(** * sdrconnect-scanner: a shallow embedding of the scan execution engine

    The development follows [sdrconnect-scanner.go]: machine integers are
    [Z] with their wrap-around written out, [float64] values are IEEE 754
    binary64 numbers ([spec_float] at precision 53), Go strings are byte
    strings, the websocket is a script of receive outcomes, and the global
    variables of the program are the fields of one [World] record that is
    threaded through the session functions. *)

From Stdlib Require Import ZArith List String Ascii Lia Bool DecimalString.
From Stdlib Require Import Floats.SpecFloat.
From stdpp Require Import base option list gmap strings.
Import ListNotations.
Local Open Scope Z_scope.

(* ================================================================== *)
(** ** Machine integers *)
(* ================================================================== *)

(** Conversion to an unsigned [w]-bit integer keeps the low [w] bits. *)
Definition to_uint (w : Z) (z : Z) : Z := z mod 2 ^ w.

(** Conversion to a signed [w]-bit integer: two's complement. *)
Definition to_int (w : Z) (z : Z) : Z :=
  (z + 2 ^ (w - 1)) mod 2 ^ w - 2 ^ (w - 1).

Definition uint16 := to_uint 16.
Definition uint32 := to_uint 32.
Definition uint64 := to_uint 64.
Definition int32 := to_int 32.
Definition int64 := to_int 64.

Definition is_uint (w : Z) (z : Z) : Prop := 0 <= z < 2 ^ w.
Definition is_int (w : Z) (z : Z) : Prop := - 2 ^ (w - 1) <= z < 2 ^ (w - 1).

(** [math.MaxUint64] *)
Definition MaxUint64 : Z := 2 ^ 64 - 1.

(* ================================================================== *)
(** ** float64 *)
(* ================================================================== *)

Definition float64 := spec_float.

Definition prec64 : Z := 53.
Definition emax64 : Z := 1024.

(** An integer constant converted to float64 (round to nearest even). *)
Definition float64_of_Z (z : Z) : float64 :=
  binary_normalize prec64 emax64 z 0 false.

Definition f64_div (x y : float64) : float64 := SFdiv prec64 emax64 x y.

(** [x >= y] on float64: false as soon as one operand is NaN. *)
Definition f64_ge (x y : float64) : bool := SFleb y x.

Definition f64_lt (x y : float64) : bool := SFltb x y.

Definition f64_isNaN (x : float64) : bool :=
  match x with S754_nan => true | _ => false end.

(** The built-in [max] and [min] on floats: a NaN operand gives NaN, and
    negative zero is below positive zero. *)
Definition f64_max (x y : float64) : float64 :=
  match x, y with
  | S754_nan, _ | _, S754_nan => S754_nan
  | S754_zero sx, S754_zero sy => S754_zero (sx && sy)
  | _, _ => if f64_lt x y then y else x
  end.

Definition f64_min (x y : float64) : float64 :=
  match x, y with
  | S754_nan, _ | _, S754_nan => S754_nan
  | S754_zero sx, S754_zero sy => S754_zero (sx || sy)
  | _, _ => if f64_lt y x then y else x
  end.

(** [slices.Max] and [slices.Min]: a left-to-right fold starting from the
    first element.  Both panic on an empty slice, hence the [option]. *)
Definition slices_Max (x : list float64) : option float64 :=
  match x with
  | [] => None
  | m :: rest => Some (fold_left f64_max rest m)
  end.

Definition slices_Min (x : list float64) : option float64 :=
  match x with
  | [] => None
  | m :: rest => Some (fold_left f64_min rest m)
  end.

(** The integer part of a float (fraction discarded, towards zero);
    [None] for NaN and the infinities. *)
Definition f64_trunc (x : float64) : option Z :=
  match x with
  | S754_zero _ => Some 0
  | S754_finite s m e =>
      let a := if 0 <=? e then Z.shiftl (Zpos m) e else Z.shiftr (Zpos m) (- e) in
      Some (if s then - a else a)
  | S754_infinity _ | S754_nan => None
  end.

(* ================================================================== *)
(** ** Data model *)
(* ================================================================== *)

Record Message := {
  EventType : string;
  Property : string;
  Value : string;
}.

Inductive DemodulatorMode :=
| DemodulatorUnknown
| DemodulatorAM
| DemodulatorUSB
| DemodulatorLSB
| DemodulatorCW
| DemodulatorSAM
| DemodulatorNFM
| DemodulatorWFM.

(** The errors the program hands around.  [Errorf text] is [fmt.Errorf]
    without a [%w] verb, [Errorf_w text e] the same wrapping [e]. *)
Inductive error :=
| ErrDeadlineExceeded
| ErrTransport (descr : string)
| ErrUserCommandNextScan
| ErrUserCommandTerminate
| ErrSyntax
| ErrRange
| Errorf (text : string)
| Errorf_w (text : string) (wrapped : error).

(** [errors.Is]: [target] is [err] or is wrapped somewhere inside it. *)
Definition error_eqb (a b : error) : bool :=
  match a, b with
  | ErrDeadlineExceeded, ErrDeadlineExceeded => true
  | ErrUserCommandNextScan, ErrUserCommandNextScan => true
  | ErrUserCommandTerminate, ErrUserCommandTerminate => true
  | ErrSyntax, ErrSyntax => true
  | ErrRange, ErrRange => true
  | _, _ => false
  end.

Fixpoint errors_Is (err target : error) : bool :=
  error_eqb err target ||
  match err with
  | Errorf_w _ wrapped => errors_Is wrapped target
  | _ => false
  end.

Module LOSpan.
Record t := {
  from : Z;
  to : Z;
  frequency : Z;
}.
End LOSpan.

(** [time.Duration], in nanoseconds. *)
Definition Duration := Z.

Module Scan.
Record t := {
  Start : Z;
  Stop : Z;
  Step : Z;
  List : list Z;
  DeviceName : string;
  DeviceSerial : string;
  Profile : string;
  DetectPowerThreshold : float64;
  DetectSNRThreshold : float64;
  DetectTime : Duration;
  ListenTime : Duration;
  ListenExtraTimeRDS : Duration;
  LOOffset : Z;
  LOSpans : option (list LOSpan.t);
  SampleRate : float64;
  Demodulator : DemodulatorMode;
  LNAStateSet : bool;
  LNAState : Z;
  SquelchEnable : bool;
  SquelchThreshold : float64;
  AGCEnable : bool;
  AGCThreshold : float64;
}.

(** Every integer field holds a value of its Go type. *)
Definition wf (scan : t) : Prop :=
  is_uint 64 (Start scan) /\ is_uint 64 (Stop scan) /\
  is_int 64 (Step scan) /\ Forall (is_uint 64) (List scan) /\
  is_int 32 (LOOffset scan) /\ is_uint 32 (LNAState scan).
End Scan.

Module Settings.
Record t := {
  DeviceName : string;
  DeviceSerial : string;
  Profile : string;
  SampleRate : float64;
  FilterBandwidth : Z;
  DeviceCenterFrequency : Z;
  DeviceVFOFrequency : Z;
  Demodulator : DemodulatorMode;
  LNAState : Z;
  SquelchEnable : bool;
  SquelchThreshold : float64;
  AGCEnable : bool;
  AGCThreshold : float64;
}.

Definition wf (s : t) : Prop :=
  is_uint 32 (FilterBandwidth s) /\ is_uint 64 (DeviceCenterFrequency s) /\
  is_uint 64 (DeviceVFOFrequency s) /\ is_uint 32 (LNAState s).
End Settings.

Record FrequencyAndIndex := {
  frequency : Z;
  index : Z;
}.

Record ReceiveStats := {
  countMessages : Z;
  signalPower : list float64;
  signalSNR : list float64;
  rdsPI : list Z;
  rdsPS : list string;
}.

(** [maxStats]: the capacity every statistics slice is made with. *)
Definition maxStats : Z := 100.

(** [len(s) < cap(s)] for a statistics slice. *)
Definition below_cap {A} (s : list A) : bool := Z.of_nat (length s) <? maxStats.

(* ================================================================== *)
(** ** Frequency plans *)
(* ================================================================== *)

(** The generator goroutine sends on an unbuffered channel, so it runs in
    lockstep with its consumer.  [fuel] is the number of receives the
    consumer is prepared to make; the result is the items sent within
    those, and whether the channel was then closed. *)
Fixpoint rangeUp (fuel : nat) (freq stop step idx : Z)
  : list FrequencyAndIndex * bool :=
  if freq <=? stop then
    match fuel with
    | O => ([], false)
    | S fuel' =>
        let '(sent, closed) :=
          rangeUp fuel' (uint64 (freq + step)) stop step (int64 (idx + 1)) in
        ({| frequency := freq; index := idx |} :: sent, closed)
    end
  else ([], true).

Fixpoint rangeDown (fuel : nat) (freq stop step idx : Z)
  : list FrequencyAndIndex * bool :=
  if stop <=? freq then
    match fuel with
    | O => ([], false)
    | S fuel' =>
        let '(sent, closed) :=
          rangeDown fuel' (uint64 (freq - step)) stop step (int64 (idx + 1)) in
        ({| frequency := freq; index := idx |} :: sent, closed)
    end
  else ([], true).

Fixpoint rangeList (fuel : nat) (l : list Z) (idx : Z)
  : list FrequencyAndIndex * bool :=
  match l with
  | [] => ([], true)
  | freq :: rest =>
      match fuel with
      | O => ([], false)
      | S fuel' =>
          let '(sent, closed) := rangeList fuel' rest (idx + 1) in
          ({| frequency := freq; index := idx |} :: sent, closed)
      end
  end.

Definition getScanFrequenciesAndIndexes (fuel : nat) (scan : Scan.t)
  : list FrequencyAndIndex * bool :=
  if 0 <? Scan.Step scan then
    let step := uint64 (Scan.Step scan) in
    rangeUp fuel (Scan.Start scan) (Scan.Stop scan) step 0
  else if Scan.Step scan <? 0 then
    let step := uint64 (int64 (- Scan.Step scan)) in
    rangeDown fuel (Scan.Start scan) (Scan.Stop scan) step 0
  else if 0 <? Z.of_nat (length (Scan.List scan)) then
    rangeList fuel (Scan.List scan) 0
  else
    ([], true).

(** The scan plan of [scan] is [plan] when the generator sends exactly
    the items of [plan] and then closes the channel. *)
Definition yields (scan : Scan.t) (plan : list FrequencyAndIndex) : Prop :=
  exists fuel, getScanFrequenciesAndIndexes fuel scan = (plan, true).

(** The sequence the specification describes for a range with a positive
    step: [start], [start + step], ... up to the last value not above
    [stop]. *)
Definition ascending (start stop step : Z) : list Z :=
  map (fun k => start + Z.of_nat k * step)
      (seq 0 (Z.to_nat ((stop - start) / step + 1))).

Definition descending (start stop step : Z) : list Z :=
  map (fun k => start - Z.of_nat k * step)
      (seq 0 (Z.to_nat ((start - stop) / step + 1))).

(* ================================================================== *)
(** ** LO span planner *)
(* ================================================================== *)

Definition bandwidthskHz : list Z := [200; 300; 600; 1536; 5000; 6000; 7000; 8000].

Fixpoint getIFBandwidth_loop (rate prevBandwidth : Z) (rest : list Z) : Z :=
  match rest with
  | [] => uint32 (prevBandwidth * 1000)
  | bandwidth :: rest' =>
      if rate <? bandwidth then uint32 (prevBandwidth * 1000)
      else getIFBandwidth_loop rate bandwidth rest'
  end.

(** The bucket the specification's words select: the first one whose
    threshold exceeds the rate, else the last one. *)
Fixpoint first_bucket_above (rate : Z) (buckets : list Z) (last_bucket : Z) : Z :=
  match buckets with
  | [] => last_bucket
  | b :: rest => if rate <? b then b else first_bucket_above rate rest b
  end.

Definition IFBandwidth_as_specified (rate : Z) : Z :=
  first_bucket_above rate bandwidthskHz 0 * 1000.

(** The bucket the code selects: the last one that does not exceed the
    rate, and the first bucket when the rate is below all of them. *)
Definition largest_bucket_at_most (rate : Z) : Z :=
  List.last (List.filter (fun b => b <=? rate) bandwidthskHz) 200.

Record LOWalk := {
  loSpans : list LOSpan.t;
  fmin : Z;
  fmax : Z;
  flo : Z;
  idxFrom : Z;
  idxTo : Z;
}.

Definition lo_center (flo LOOffset : Z) : Z :=
  uint64 (int64 (int64 flo + int64 LOOffset)).

(** One iteration of the loop over the plan in [getLOSpans]. *)
Definition getLOSpans_step (maxDf LOOffset : Z) (st : LOWalk)
    (freqAndIdx : FrequencyAndIndex) : LOWalk :=
  let freq := frequency freqAndIdx in
  let idx := index freqAndIdx in
  let fmin1 := Z.min (fmin st) freq in
  let fmax1 := Z.max (fmax st) freq in
  let df := uint64 (fmax1 - fmin1) in
  let '(spans, from1, fmin2, fmax2) :=
    if maxDf <? df then
      (loSpans st ++ [{| LOSpan.from := idxFrom st; LOSpan.to := idxTo st;
                         LOSpan.frequency := lo_center (flo st) LOOffset |}],
       idx, freq, freq)
    else (loSpans st, idxFrom st, fmin1, fmax1) in
  {| loSpans := spans; fmin := fmin2; fmax := fmax2;
     flo := uint64 (fmin2 + fmax2) / 2;
     idxFrom := from1; idxTo := idx |}.

Definition getLOSpans_init : LOWalk :=
  {| loSpans := []; fmin := MaxUint64; fmax := 0;
     flo := uint64 (MaxUint64 + 0) / 2; idxFrom := 0; idxTo := 0 |}.

Definition getLOSpans_finish (LOOffset : Z) (st : LOWalk) : list LOSpan.t :=
  loSpans st ++ [{| LOSpan.from := idxFrom st; LOSpan.to := idxTo st;
                    LOSpan.frequency := lo_center (flo st) LOOffset |}].

(** The spans the walk over a whole plan produces. *)
Definition getLOSpans_walk (maxDf LOOffset : Z) (plan : list FrequencyAndIndex)
  : list LOSpan.t :=
  getLOSpans_finish LOOffset
    (fold_left (getLOSpans_step maxDf LOOffset) plan getLOSpans_init).

(** [IFBandwidth - filterBandwidth - |offset|] over the integers. *)
Definition availableBandwidth (ifBandwidth filterBandwidth LOOffset : Z) : Z :=
  ifBandwidth - filterBandwidth - Z.abs LOOffset.

(* ================================================================== *)
(** ** The library functions the scanner calls on strings *)
(* ================================================================== *)

(** The value of a byte of a string. *)
Definition byte_val (c : ascii) : Z := Z.of_N (N_of_ascii c).

Definition byte_chr (z : Z) : ascii := ascii_of_N (Z.to_N z).

(** [s[i]], with 0 outside the string (every use is guarded by a test on
    the length). *)
Definition byteAt (s : string) (i : nat) : Z :=
  match String.get i s with
  | Some c => byte_val c
  | None => 0
  end.

(** [s[i:]] and [s[0:i]] *)
Fixpoint string_drop (i : nat) (s : string) : string :=
  match i, s with
  | O, _ => s
  | S i', String _ t => string_drop i' t
  | S _, EmptyString => EmptyString
  end.

Fixpoint string_take (i : nat) (s : string) : string :=
  match i, s with
  | O, _ => EmptyString
  | S i', String c t => String c (string_take i' t)
  | S _, EmptyString => EmptyString
  end.

(** [strconv]'s [lower]: [c | ('x' - 'X')]. *)
Definition lower (c : Z) : Z := Z.lor c 32.

Definition is_digit (c : Z) : bool := (48 <=? c) && (c <=? 57).

(** [strconv.underscoreOK]: underscores only between digits, or between a
    base prefix and a digit.  [saw] is the last character class seen. *)
Inductive Saw := SawStart | SawDigit | SawUnderscore | SawOther.

Fixpoint underscoreOK_loop (s : string) (hex : bool) (saw : Saw) : bool :=
  match s with
  | EmptyString => match saw with SawUnderscore => false | _ => true end
  | String c t =>
      let b := byte_val c in
      if is_digit b || (hex && (97 <=? lower b) && (lower b <=? 102)) then
        underscoreOK_loop t hex SawDigit
      else if b =? 95 then
        match saw with
        | SawDigit => underscoreOK_loop t hex SawUnderscore
        | _ => false
        end
      else
        match saw with
        | SawUnderscore => false
        | _ => underscoreOK_loop t hex SawOther
        end
  end.

Definition underscoreOK (s : string) : bool :=
  let s :=
    match s with
    | String c t => if (byte_val c =? 45) || (byte_val c =? 43) then t else s
    | EmptyString => s
    end in
  if (2 <=? String.length s)%nat && (byteAt s 0 =? 48) &&
     ((lower (byteAt s 1) =? 98) || (lower (byteAt s 1) =? 111) ||
      (lower (byteAt s 1) =? 120))
  then underscoreOK_loop (string_drop 2 s) (lower (byteAt s 1) =? 120) SawDigit
  else underscoreOK_loop s false SawStart.

(** The digit loop of [strconv.ParseUint].  [inl] is an early return,
    [inr] the accumulated value and whether an underscore was seen. *)
Fixpoint ParseUint_digits (s : string) (base : Z) (base0 : bool)
    (cutoff maxVal n : Z) (underscores : bool)
  : (Z * option error) + (Z * bool) :=
  match s with
  | EmptyString => inr (n, underscores)
  | String ch t =>
      let c := byte_val ch in
      if (c =? 95) && base0 then
        ParseUint_digits t base base0 cutoff maxVal n true
      else
        let d :=
          if is_digit c then Some (c - 48)
          else if (97 <=? lower c) && (lower c <=? 122) then Some (lower c - 97 + 10)
          else None in
        match d with
        | None => inl (0, Some ErrSyntax)
        | Some d =>
            if base <=? d then inl (0, Some ErrSyntax)
            else if cutoff <=? n then inl (maxVal, Some ErrRange)
            else
              let n := uint64 (n * base) in
              let n1 := uint64 (n + d) in
              if (n1 <? n) || (maxVal <? n1) then inl (maxVal, Some ErrRange)
              else ParseUint_digits t base base0 cutoff maxVal n1 underscores
        end
  end.

(** [strconv.ParseUint(s, base, bitSize)] for [base] 0 or 2..36 and
    [bitSize] 1..64: the value and the error. *)
Definition ParseUint (s : string) (base bitSize : Z) : Z * option error :=
  if String.eqb s "" then (0, Some ErrSyntax)
  else
    let base0 := base =? 0 in
    let '(base', digits) :=
      if base0 then
        if byteAt s 0 =? 48 then
          if (3 <=? String.length s)%nat && (lower (byteAt s 1) =? 98)
          then (2, string_drop 2 s)
          else if (3 <=? String.length s)%nat && (lower (byteAt s 1) =? 111)
          then (8, string_drop 2 s)
          else if (3 <=? String.length s)%nat && (lower (byteAt s 1) =? 120)
          then (16, string_drop 2 s)
          else (8, string_drop 1 s)
        else (10, s)
      else (base, s) in
    let cutoff := MaxUint64 / base' + 1 in
    let maxVal := uint64 (Z.shiftl 1 bitSize - 1) in
    match ParseUint_digits digits base' base0 cutoff maxVal 0 false with
    | inl r => r
    | inr (n, underscores) =>
        if underscores && negb (underscoreOK s) then (0, Some ErrSyntax)
        else (n, None)
    end.

(** [strconv.ParseBool] *)
Definition ParseBool (str : string) : bool * option error :=
  if existsb (String.eqb str) ["1"; "t"; "T"; "TRUE"; "true"; "True"]
  then (true, None)
  else if existsb (String.eqb str) ["0"; "f"; "F"; "FALSE"; "false"; "False"]
  then (false, None)
  else (false, Some ErrSyntax).

(** [strconv.FormatUint(n, 10)] and the verb [%d] on an unsigned value. *)
Definition FormatUint (n : Z) : string :=
  NilZero.string_of_uint (N.to_uint (Z.to_N n)).

(** [strings.Join] *)
Fixpoint Join (elems : list string) (sep : string) : string :=
  match elems with
  | [] => ""
  | [e] => e
  | e :: rest => e +:+ sep +:+ Join rest sep
  end.

Definition DemodulatorMode_String (dm : DemodulatorMode) : string :=
  match dm with
  | DemodulatorUnknown => "UNKNOWN"
  | DemodulatorAM => "AM"
  | DemodulatorUSB => "USB"
  | DemodulatorLSB => "LSB"
  | DemodulatorCW => "CW"
  | DemodulatorSAM => "SAM"
  | DemodulatorNFM => "NFM"
  | DemodulatorWFM => "WFM"
  end.

Definition ParseDemodulatorMode (dmstring : string) : DemodulatorMode * option error :=
  if String.eqb dmstring "AM" then (DemodulatorAM, None)
  else if String.eqb dmstring "USB" then (DemodulatorUSB, None)
  else if String.eqb dmstring "LSB" then (DemodulatorLSB, None)
  else if String.eqb dmstring "CW" then (DemodulatorCW, None)
  else if String.eqb dmstring "SAM" then (DemodulatorSAM, None)
  else if String.eqb dmstring "NFM" then (DemodulatorNFM, None)
  else if String.eqb dmstring "WFM" then (DemodulatorWFM, None)
  else (DemodulatorUnknown, Some (Errorf ("invalid demodulator mode: " +:+ dmstring))).

(** *** UTF-8 decoding ([unicode/utf8]) *)

Definition RuneError : Z := 65533.
Definition RuneSelf : Z := 128.
Definition UTFMax : nat := 4.

(** The table [first]: for a lead byte, the size of the sequence in the low
    three bits and the index of the range its second byte must be in; 240
    for an ASCII byte, 241 for a byte that cannot start a sequence. *)
Definition utf8_first (b : Z) : Z :=
  if b <? 128 then 240
  else if b <? 194 then 241
  else if b <? 224 then 2
  else if b =? 224 then 19
  else if b <? 237 then 3
  else if b =? 237 then 35
  else if b <? 240 then 3
  else if b =? 240 then 52
  else if b <? 244 then 4
  else if b =? 244 then 68
  else 241.

(** The table [acceptRanges]: lowest and highest second byte. *)
Definition acceptRanges (i : Z) : Z * Z :=
  if i =? 0 then (128, 191)
  else if i =? 1 then (160, 191)
  else if i =? 2 then (128, 159)
  else if i =? 3 then (144, 191)
  else if i =? 4 then (128, 143)
  else (0, 0).

Definition continuation (b : Z) : bool := (128 <=? b) && (b <=? 191).

(** The runes of two-, three- and four-byte sequences. *)
Definition rune2 (s0 s1 : Z) : Z :=
  Z.lor (Z.shiftl (Z.land s0 31) 6) (Z.land s1 63).

Definition rune3 (s0 s1 s2 : Z) : Z :=
  Z.lor (Z.lor (Z.shiftl (Z.land s0 15) 12) (Z.shiftl (Z.land s1 63) 6))
        (Z.land s2 63).

Definition rune4 (s0 s1 s2 s3 : Z) : Z :=
  Z.lor (Z.lor (Z.lor (Z.shiftl (Z.land s0 7) 18) (Z.shiftl (Z.land s1 63) 12))
               (Z.shiftl (Z.land s2 63) 6))
        (Z.land s3 63).

(** The body of [DecodeRuneInString] on a string of length [n] whose
    first four bytes are [s0 .. s3].  A byte is looked at only after the
    length has been tested. *)
Definition DecodeRune_bytes (n : nat) (s0 s1 s2 s3 : Z) : Z * nat :=
  if (n <? 1)%nat then (RuneError, 0%nat)
  else
    let x := utf8_first s0 in
    if 240 <=? x then
      (* the mask is all ones exactly when [x] is odd *)
      (if Z.odd x then RuneError else s0, 1%nat)
    else
      let sz := Z.land x 7 in
      let accept := acceptRanges (Z.shiftr x 4) in
      if Z.of_nat n <? sz then (RuneError, 1%nat)
      else if (s1 <? accept.1) || (accept.2 <? s1) then (RuneError, 1%nat)
      else if sz <=? 2 then (rune2 s0 s1, 2%nat)
      else if negb (continuation s2) then (RuneError, 1%nat)
      else if sz <=? 3 then (rune3 s0 s1 s2, 3%nat)
      else if negb (continuation s3) then (RuneError, 1%nat)
      else (rune4 s0 s1 s2 s3, 4%nat).

Definition DecodeRuneInString (s : string) : Z * nat :=
  DecodeRune_bytes (String.length s) (byteAt s 0) (byteAt s 1) (byteAt s 2)
                   (byteAt s 3).

Definition RuneStart (b : Z) : bool := negb (Z.land b 192 =? 128).

(** The backwards search for a lead byte in [DecodeLastRuneInString]. *)
Fixpoint DecodeLast_start (fuel : nat) (s : string) (start lim : Z) : Z :=
  match fuel with
  | O => start
  | S fuel' =>
      if lim <=? start then
        if RuneStart (byteAt s (Z.to_nat start)) then start
        else DecodeLast_start fuel' s (start - 1) lim
      else start
  end.

Definition DecodeLastRuneInString (s : string) : Z * nat :=
  let end_ := Z.of_nat (String.length s) in
  if end_ =? 0 then (RuneError, 0%nat)
  else
    let start := end_ - 1 in
    let r := byteAt s (Z.to_nat start) in
    if r <? RuneSelf then (r, 1%nat)
    else
      let lim := Z.max (end_ - Z.of_nat UTFMax) 0 in
      let start := Z.max (DecodeLast_start UTFMax s (start - 1) lim) 0 in
      let '(r, size) := DecodeRuneInString (string_drop (Z.to_nat start) s) in
      if negb (start + Z.of_nat size =? end_) then (RuneError, 1%nat)
      else (r, size).

(** [unicode.IsSpace] *)
Definition IsSpace (r : Z) : bool :=
  if to_uint 32 r <=? 255 then
    existsb (Z.eqb r) [9; 10; 11; 12; 13; 32; 133; 160]
  else
    (r =? 5760) || ((8192 <=? r) && (r <=? 8202)) || (r =? 8232) ||
    (r =? 8233) || (r =? 8239) || (r =? 8287) || (r =? 12288).

(** *** [strings.TrimSpace] *)

(** [for i, r := range s]: the index of the first rune on which [f] is
    [truth], or -1.  [rest] is [s[i:]]. *)
Fixpoint indexFunc_loop (fuel : nat) (rest : string) (i : Z)
    (f : Z -> bool) (truth : bool) : Z :=
  match fuel with
  | O => -1
  | S fuel' =>
      if String.eqb rest "" then -1
      else
        let '(r, size) := DecodeRuneInString rest in
        if Bool.eqb (f r) truth then i
        else indexFunc_loop fuel' (string_drop size rest) (i + Z.of_nat size) f truth
  end.

Definition indexFunc (s : string) (f : Z -> bool) (truth : bool) : Z :=
  indexFunc_loop (String.length s) s 0 f truth.

Fixpoint lastIndexFunc_loop (fuel : nat) (s : string) (i : nat)
    (f : Z -> bool) (truth : bool) : Z :=
  match fuel with
  | O => -1
  | S fuel' =>
      if (0 <? i)%nat then
        let '(r, size) := DecodeLastRuneInString (string_take i s) in
        let i := (i - size)%nat in
        if Bool.eqb (f r) truth then Z.of_nat i
        else lastIndexFunc_loop fuel' s i f truth
      else -1
  end.

Definition lastIndexFunc (s : string) (f : Z -> bool) (truth : bool) : Z :=
  lastIndexFunc_loop (String.length s) s (String.length s) f truth.

Definition TrimLeftFunc (s : string) (f : Z -> bool) : string :=
  let i := indexFunc s f false in
  if i =? -1 then "" else string_drop (Z.to_nat i) s.

Definition TrimRightFunc (s : string) (f : Z -> bool) : string :=
  let i := lastIndexFunc s f false in
  let i :=
    if (0 <=? i) && (RuneSelf <=? byteAt s (Z.to_nat i)) then
      i + Z.of_nat (DecodeRuneInString (string_drop (Z.to_nat i) s)).2
    else i + 1 in
  string_take (Z.to_nat i) s.

Definition TrimFunc (s : string) (f : Z -> bool) : string :=
  TrimRightFunc (TrimLeftFunc s f) f.

Definition asciiSpace (c : Z) : bool :=
  existsb (Z.eqb c) [9; 10; 11; 12; 13; 32].

(** The second loop of [TrimSpace], which moves [stop] down over
    [u = s[start:]]. *)
Fixpoint TrimSpace_stop (u : string) (stop : nat) : string :=
  match stop with
  | O => ""
  | S stop' =>
      let c := byteAt u stop' in
      if RuneSelf <=? c then TrimRightFunc (string_take stop u) IsSpace
      else if asciiSpace c then TrimSpace_stop u stop'
      else string_take stop u
  end.

(** The first loop of [TrimSpace], which moves [start] up. *)
Fixpoint TrimSpace (s : string) : string :=
  match s with
  | EmptyString => ""
  | String ch t =>
      let c := byte_val ch in
      if RuneSelf <=? c then TrimFunc s IsSpace
      else if asciiSpace c then TrimSpace t
      else TrimSpace_stop s (String.length s)
  end.

(** A string is blank when every rune in it is white space. *)
Definition blank (s : string) : bool := indexFunc s IsSpace false =? -1.

(** *** Formatting ([fmt]) *)

(** [num / den] rounded to the nearest integer, ties to even. *)
Definition round_half_even (num den : Z) : Z :=
  let q := num / den in
  match 2 * (num mod den) ?= den with
  | Lt => q
  | Gt => q + 1
  | Eq => if Z.even q then q else q + 1
  end.

(** The verb [%.1f]: the exact value rounded to one decimal. *)
Definition format_f1 (x : float64) : string :=
  match x with
  | S754_nan => "NaN"
  | S754_infinity s => if s then "-Inf" else "+Inf"
  | S754_zero s => (if s then "-" else "") +:+ "0.0"
  | S754_finite s m e =>
      let tenths :=
        if 0 <=? e then Zpos m * 2 ^ e * 10
        else round_half_even (Zpos m * 10) (2 ^ (- e)) in
      (if s then "-" else "") +:+ FormatUint (tenths / 10) +:+ "." +:+
      FormatUint (tenths mod 10)
  end.

Definition hex_digit (d : Z) : ascii :=
  byte_chr (if d <? 10 then 48 + d else 55 + d).

Fixpoint hex_upper (fuel : nat) (n : Z) (acc : string) : string :=
  match fuel with
  | O => acc
  | S fuel' =>
      let acc := String (hex_digit (n mod 16)) acc in
      if n / 16 =? 0 then acc else hex_upper fuel' (n / 16) acc
  end.

Fixpoint zeros (n : nat) : string :=
  match n with
  | O => ""
  | S n' => String "0"%char (zeros n')
  end.

(** The verb [%04X] on an unsigned value. *)
Definition format_04X (n : Z) : string :=
  let digits := hex_upper 16 n "" in
  zeros (4 - String.length digits) +:+ digits.

(* ================================================================== *)
(** ** Signal detection *)
(* ================================================================== *)

(** The [switch] on the number of samples in [detectSignal]; [None] would
    be a panic of [slices.Max]. *)
Definition signalMax (samples : list float64) : option float64 :=
  match length samples with
  | O => Some (float64_of_Z (-1000))
  | 1%nat => samples !! 0%nat
  | _ => slices_Max (drop 1 samples)
  end.

Definition detectSignal (stats : ReceiveStats) (scan : Scan.t) : option bool :=
  signalPowerMax ← signalMax (signalPower stats);
  signalSNRMax ← signalMax (signalSNR stats);
  Some (f64_ge signalPowerMax (Scan.DetectPowerThreshold scan) ||
        f64_ge signalSNRMax (Scan.DetectSNRThreshold scan)).

(* ================================================================== *)
(** ** The session: transport script, keyboard and global state *)
(* ================================================================== *)

(** The read deadline of the websocket: none ([time.Time{}]), a time-out
    from now, or now. *)
Inductive Deadline :=
| NoDeadline
| DeadlineIn (timeout : Duration)
| DeadlineNow.

Inductive Key := KeyNone | KeyCtrlC | KeySpace | KeyOther.

(** What [keyboard.GetKey] returns for one key press. *)
Record KeyPress := {
  char : Z;
  key : Key;
}.

(** What one call of [websocket.JSON.Receive] gives: the content of the
    variable [message] after the call (the loops read nothing else of
    it), or an error. *)
Inductive Received :=
| RecvMessage (m : Message)
| RecvError (e : error).

(** One read of the socket, together with the keys pressed before the
    session loop looks at the flags after that read. *)
Record Event := {
  keys : list KeyPress;
  received : Received;
}.

(** The global variables of the program. *)
Record World := {
  sdrconnectSettings : Settings.t;
  receiveStats : ReceiveStats;
  userCommandTogglePause : bool;
  userCommandNextScan : bool;
  userCommandTerminate : bool;
  keyboardListening : bool;
  readDeadline : Deadline;
  requests : list Message;
}.

Definition with_settings (s : Settings.t) (w : World) : World :=
  {| sdrconnectSettings := s; receiveStats := receiveStats w;
     userCommandTogglePause := userCommandTogglePause w;
     userCommandNextScan := userCommandNextScan w;
     userCommandTerminate := userCommandTerminate w;
     keyboardListening := keyboardListening w;
     readDeadline := readDeadline w; requests := requests w |}.

Definition with_stats (st : ReceiveStats) (w : World) : World :=
  {| sdrconnectSettings := sdrconnectSettings w; receiveStats := st;
     userCommandTogglePause := userCommandTogglePause w;
     userCommandNextScan := userCommandNextScan w;
     userCommandTerminate := userCommandTerminate w;
     keyboardListening := keyboardListening w;
     readDeadline := readDeadline w; requests := requests w |}.

Definition with_flags (pause next terminate listening : bool) (w : World) : World :=
  {| sdrconnectSettings := sdrconnectSettings w; receiveStats := receiveStats w;
     userCommandTogglePause := pause;
     userCommandNextScan := next;
     userCommandTerminate := terminate;
     keyboardListening := listening;
     readDeadline := readDeadline w; requests := requests w |}.

(** [ws.SetReadDeadline] *)
Definition SetReadDeadline (d : Deadline) (w : World) : World :=
  {| sdrconnectSettings := sdrconnectSettings w; receiveStats := receiveStats w;
     userCommandTogglePause := userCommandTogglePause w;
     userCommandNextScan := userCommandNextScan w;
     userCommandTerminate := userCommandTerminate w;
     keyboardListening := keyboardListening w;
     readDeadline := d; requests := requests w |}.

(** [websocket.JSON.Send]: the request goes on the wire (most recent
    first); whether it fails is the caller's [sendErr]. *)
Definition Send (request : Message) (w : World) : World :=
  {| sdrconnectSettings := sdrconnectSettings w; receiveStats := receiveStats w;
     userCommandTogglePause := userCommandTogglePause w;
     userCommandNextScan := userCommandNextScan w;
     userCommandTerminate := userCommandTerminate w;
     keyboardListening := keyboardListening w;
     readDeadline := readDeadline w; requests := request :: requests w |}.

(** One iteration of the goroutine [getKeyPresses]; it stops listening
    after a terminate key. *)
Definition getKeyPresses_step (w : World) (k : KeyPress) : World :=
  if negb (keyboardListening w) then w
  else if match key k with KeyCtrlC => true | _ => false end ||
          (char k =? 113) || (char k =? 81) then
    with_flags (userCommandTogglePause w) (userCommandNextScan w) true false w
  else if match key k with KeySpace => true | _ => false end then
    with_flags true (userCommandNextScan w) (userCommandTerminate w) true w
  else if (char k =? 110) || (char k =? 78) then
    with_flags (userCommandTogglePause w) true (userCommandTerminate w) true w
  else w.

Definition getKeyPresses (ks : list KeyPress) (w : World) : World :=
  fold_left getKeyPresses_step ks w.

(** How a session function ends on a script of events: it returns [a]
    leaving [rest] unread, or the script ends while it is blocked in a
    read. *)
Inductive Outcome (A : Type) :=
| Returned (a : A) (w : World) (rest : list Event)
| Waiting (w : World).
Arguments Returned {A} a w rest.
Arguments Waiting {A} w.

(** What a finished call returned, and the state it left. *)
Definition result {A} (o : Outcome A) : option A :=
  match o with
  | Returned a _ _ => Some a
  | Waiting _ => None
  end.

Definition world {A} (o : Outcome A) : World :=
  match o with
  | Returned _ w _ => w
  | Waiting w => w
  end.

(** A compiled regular expression, as what [MatchString] answers. *)
Record Regexp := {
  MatchString : string -> bool;
}.

Fixpoint string_rev_acc (s acc : string) : string :=
  match s with
  | EmptyString => acc
  | String c t => string_rev_acc t (String c acc)
  end.

Definition no_newline (s : string) : bool :=
  forallb (fun c => negb (byte_val c =? 10)) (list_ascii_of_string s).

(** [regexp.MustCompile("^.*CV$")]: the text ends in CV and has no line
    break before that. *)
Definition pattern_CV : Regexp :=
  {| MatchString := fun s =>
       match string_rev_acc s "" with
       | String v (String c t) =>
           (byte_val v =? 86) && (byte_val c =? 67) && no_newline t
       | _ => false
       end |}.

(** The wait times *)
Definition Millisecond : Duration := 1000000.
Definition waitGetProperty : Duration := 1000 * Millisecond.
Definition waitSetProperty : Duration := 2000 * Millisecond.
Definition waitSelectDevice : Duration := 6000 * Millisecond.
Definition waitApplyProfile : Duration := 600 * Millisecond.
Definition waitSetCenterFrequency : Duration := 1000 * Millisecond.

Module SettingsUpdate.
Import Settings.

Definition SampleRate (x : float64) (s : t) : t :=
  Build_t (DeviceName s) (DeviceSerial s) (Profile s) x (FilterBandwidth s)
    (DeviceCenterFrequency s) (DeviceVFOFrequency s) (Demodulator s) (LNAState s)
    (SquelchEnable s) (SquelchThreshold s) (AGCEnable s) (AGCThreshold s).

Definition FilterBandwidth (x : Z) (s : t) : t :=
  Build_t (DeviceName s) (DeviceSerial s) (Profile s) (Settings.SampleRate s) x
    (DeviceCenterFrequency s) (DeviceVFOFrequency s) (Demodulator s) (LNAState s)
    (SquelchEnable s) (SquelchThreshold s) (AGCEnable s) (AGCThreshold s).

Definition DeviceCenterFrequency (x : Z) (s : t) : t :=
  Build_t (DeviceName s) (DeviceSerial s) (Profile s) (Settings.SampleRate s)
    (Settings.FilterBandwidth s) x (DeviceVFOFrequency s) (Demodulator s) (LNAState s)
    (SquelchEnable s) (SquelchThreshold s) (AGCEnable s) (AGCThreshold s).

Definition DeviceVFOFrequency (x : Z) (s : t) : t :=
  Build_t (DeviceName s) (DeviceSerial s) (Profile s) (Settings.SampleRate s)
    (Settings.FilterBandwidth s) (Settings.DeviceCenterFrequency s) x (Demodulator s)
    (LNAState s) (SquelchEnable s) (SquelchThreshold s) (AGCEnable s) (AGCThreshold s).

Definition Demodulator (x : DemodulatorMode) (s : t) : t :=
  Build_t (DeviceName s) (DeviceSerial s) (Profile s) (Settings.SampleRate s)
    (Settings.FilterBandwidth s) (Settings.DeviceCenterFrequency s)
    (Settings.DeviceVFOFrequency s) x (LNAState s)
    (SquelchEnable s) (SquelchThreshold s) (AGCEnable s) (AGCThreshold s).

Definition LNAState (x : Z) (s : t) : t :=
  Build_t (DeviceName s) (DeviceSerial s) (Profile s) (Settings.SampleRate s)
    (Settings.FilterBandwidth s) (Settings.DeviceCenterFrequency s)
    (Settings.DeviceVFOFrequency s) (Settings.Demodulator s) x
    (SquelchEnable s) (SquelchThreshold s) (AGCEnable s) (AGCThreshold s).

Definition SquelchEnable (x : bool) (s : t) : t :=
  Build_t (DeviceName s) (DeviceSerial s) (Profile s) (Settings.SampleRate s)
    (Settings.FilterBandwidth s) (Settings.DeviceCenterFrequency s)
    (Settings.DeviceVFOFrequency s) (Settings.Demodulator s) (Settings.LNAState s)
    x (SquelchThreshold s) (AGCEnable s) (AGCThreshold s).

Definition SquelchThreshold (x : float64) (s : t) : t :=
  Build_t (DeviceName s) (DeviceSerial s) (Profile s) (Settings.SampleRate s)
    (Settings.FilterBandwidth s) (Settings.DeviceCenterFrequency s)
    (Settings.DeviceVFOFrequency s) (Settings.Demodulator s) (Settings.LNAState s)
    (Settings.SquelchEnable s) x (AGCEnable s) (AGCThreshold s).

Definition AGCEnable (x : bool) (s : t) : t :=
  Build_t (DeviceName s) (DeviceSerial s) (Profile s) (Settings.SampleRate s)
    (Settings.FilterBandwidth s) (Settings.DeviceCenterFrequency s)
    (Settings.DeviceVFOFrequency s) (Settings.Demodulator s) (Settings.LNAState s)
    (Settings.SquelchEnable s) (Settings.SquelchThreshold s) x (AGCThreshold s).

Definition AGCThreshold (x : float64) (s : t) : t :=
  Build_t (DeviceName s) (DeviceSerial s) (Profile s) (Settings.SampleRate s)
    (Settings.FilterBandwidth s) (Settings.DeviceCenterFrequency s)
    (Settings.DeviceVFOFrequency s) (Settings.Demodulator s) (Settings.LNAState s)
    (Settings.SquelchEnable s) (Settings.SquelchThreshold s) (Settings.AGCEnable s) x.
End SettingsUpdate.

Definition set_countMessages (n : Z) (st : ReceiveStats) : ReceiveStats :=
  {| countMessages := n; signalPower := signalPower st; signalSNR := signalSNR st;
     rdsPI := rdsPI st; rdsPS := rdsPS st |}.

Definition set_signalPower (l : list float64) (st : ReceiveStats) : ReceiveStats :=
  {| countMessages := countMessages st; signalPower := l; signalSNR := signalSNR st;
     rdsPI := rdsPI st; rdsPS := rdsPS st |}.

Definition set_signalSNR (l : list float64) (st : ReceiveStats) : ReceiveStats :=
  {| countMessages := countMessages st; signalPower := signalPower st; signalSNR := l;
     rdsPI := rdsPI st; rdsPS := rdsPS st |}.

Definition set_rdsPI (l : list Z) (st : ReceiveStats) : ReceiveStats :=
  {| countMessages := countMessages st; signalPower := signalPower st;
     signalSNR := signalSNR st; rdsPI := l; rdsPS := rdsPS st |}.

Definition set_rdsPS (l : list string) (st : ReceiveStats) : ReceiveStats :=
  {| countMessages := countMessages st; signalPower := signalPower st;
     signalSNR := signalSNR st; rdsPI := rdsPI st; rdsPS := l |}.

(** The statistics as the program starts, and as [runScan] clears them at
    each frequency. *)
Definition clearStats : ReceiveStats :=
  {| countMessages := 0; signalPower := []; signalSNR := []; rdsPI := []; rdsPS := [] |}.

(** [rdsPIset[rdsPI]++] over the decoded identifiers. *)
Definition rdsPIset (l : list Z) : gmap Z Z :=
  fold_left (fun m pi => <[pi := int64 (default 0 (m !! pi) + 1)]> m) l ∅.

(** The power and SNR fields of the report line. *)
Definition powerField (samples : list float64) : option (list string) :=
  if (length samples =? 1)%nat then
    x ← samples !! 0%nat;
    Some ["pwr=" +:+ format_f1 x +:+ "dB"]
  else if (1 <? length samples)%nat then
    lo ← slices_Min (drop 1 samples);
    hi ← slices_Max (drop 1 samples);
    Some ["pwr=[" +:+ format_f1 lo +:+ "dB," +:+ format_f1 hi +:+ "dB]"]
  else Some [].

Definition snrField (samples : list float64) : option (list string) :=
  if (length samples =? 1)%nat then
    x ← samples !! 0%nat;
    Some ["snr=" +:+ format_f1 x +:+ "dB"]
  else if (1 <? length samples)%nat then
    lo ← slices_Min (drop 1 samples);
    hi ← slices_Max (drop 1 samples);
    Some ["snr=[" +:+ format_f1 lo +:+ ".dB," +:+ format_f1 hi +:+ "dB]"]
  else Some [].

(** The test [setSdrconnectProperty] makes on every message. *)
Definition is_property_changed_of (property : string) (message : Message) : bool :=
  String.eqb (EventType message) "property_changed" &&
  String.eqb (Property message) property.

(* ================================================================== *)
(** ** Vocabulary of the properties *)
(* ================================================================== *)

(** The target frequency at index [i] of a plan. *)
Definition target (plan : list FrequencyAndIndex) (i : Z) : option Z :=
  if 0 <=? i then frequency <$> plan !! Z.to_nat i else None.

(** What the items sent by a generator satisfy: each frequency is a
    uint64 and each index is the position, counted from [idx]. *)
Definition well_indexed (idx : Z) (plan : list FrequencyAndIndex) : Prop :=
  Forall (fun x => is_uint 64 (frequency x)) plan /\
  forall (i : nat) x, plan !! i = Some x -> index x = idx + Z.of_nat i.

(** [lo] and [hi] are the least and the greatest target with an index in
    [a..b]. *)
Definition window (plan : list FrequencyAndIndex) (a b lo hi : Z) : Prop :=
  0 <= a /\ a <= b /\ b < Z.of_nat (length plan) /\
  (exists i, a <= i <= b /\ target plan i = Some lo) /\
  (exists j, a <= j <= b /\ target plan j = Some hi) /\
  (forall i f, a <= i <= b -> target plan i = Some f -> lo <= f <= hi).

(** [spans] cut the index range [lo..hi] into consecutive non-empty
    pieces, in increasing order. *)
Fixpoint covers (lo : Z) (spans : list LOSpan.t) (hi : Z) : Prop :=
  match spans with
  | [] => lo = hi + 1
  | s :: rest =>
      LOSpan.from s = lo /\ LOSpan.from s <= LOSpan.to s /\
      covers (LOSpan.to s + 1) rest hi
  end.

(** What the walk guarantees about one span. *)
Definition span_ok (plan : list FrequencyAndIndex) (maxDf LOOffset : Z)
    (s : LOSpan.t) : Prop :=
  exists lo hi,
    window plan (LOSpan.from s) (LOSpan.to s) lo hi /\ hi - lo <= maxDf /\
    LOSpan.frequency s = lo_center (uint64 (lo + hi) / 2) LOOffset.

(** The state of the walk in [getLOSpans] after the items [pre]: the
    closed spans cover the indexes below [idxFrom], and the open one runs
    from [idxFrom] to the last item. *)
Definition walk_inv (maxDf LOOffset : Z) (pre : list FrequencyAndIndex)
    (st : LOWalk) : Prop :=
  covers 0 (loSpans st) (idxFrom st - 1) /\
  idxTo st = Z.of_nat (length pre) - 1 /\
  window pre (idxFrom st) (idxTo st) (fmin st) (fmax st) /\
  fmax st - fmin st <= maxDf /\
  flo st = uint64 (fmin st + fmax st) / 2 /\
  Forall (span_ok pre maxDf LOOffset) (loSpans st).

(** [m] is in [l] and no element of [l] is above it, resp. below it, in
    the order of the float64 comparison. *)
Definition is_max_of (l : list float64) (m : float64) : Prop :=
  In m l /\ forall y, In y l -> SFleb y m = true.

Definition is_min_of (l : list float64) (m : float64) : Prop :=
  In m l /\ forall y, In y l -> SFleb m y = true.

Definition no_NaN (l : list float64) : Prop :=
  Forall (fun x => f64_isNaN x = false) l.

(** Statistics with the given power and SNR samples and nothing else. *)
Definition statsOf (power snr : list float64) : ReceiveStats :=
  {| countMessages := Z.of_nat (length power) + Z.of_nat (length snr);
     signalPower := power; signalSNR := snr; rdsPI := []; rdsPS := [] |}.

(** No stored identifier is 0 and no stored name is blank. *)
Definition stats_ok (st : ReceiveStats) : Prop :=
  Forall (fun pi => pi <> 0 /\ is_uint 16 pi) (rdsPI st) /\
  Forall (fun ps => ps <> "" /\ blank ps = false) (rdsPS st).

(** The event is a message that is not a property-changed message for
    [property]. *)
Definition other_message (property : string) (ev : Event) : Prop :=
  exists m, received ev = RecvMessage m /\ is_property_changed_of property m = false.

(** The message counter after [n] more messages. *)
Definition counted (n : nat) (count : Z) : Z :=
  Nat.iter n (fun c => int64 (c + 1)) count.

(** What every exit of [TrimSpace] returns: the empty string or a string
    that starts with a rune that is not white space. *)
Definition trimmed (s : string) : Prop :=
  s = "" \/ IsSpace (DecodeRuneInString s).1 = false.

(** A property-changed message. *)
Definition changed (property value : string) : Message :=
  {| EventType := "property_changed"; Property := property; Value := value |}.

(** A message read with no key pressed, and a read that ends on [e]. *)
Definition message_event (m : Message) : Event :=
  {| keys := []; received := RecvMessage m |}.

Definition error_event (e : error) : Event :=
  {| keys := []; received := RecvError e |}.

(* ================================================================== *)
(** ** Concrete data for running the functions *)
(* ================================================================== *)

(** A scan section that sets a range or a list and the LO offset only. *)
Definition scanOf (start stop step : Z) (list : list Z) (offset : Z) : Scan.t :=
  {| Scan.Start := start; Scan.Stop := stop; Scan.Step := step; Scan.List := list;
     Scan.DeviceName := ""; Scan.DeviceSerial := ""; Scan.Profile := "";
     Scan.DetectPowerThreshold := S754_zero false;
     Scan.DetectSNRThreshold := S754_zero false;
     Scan.DetectTime := 600 * Millisecond; Scan.ListenTime := 5000 * Millisecond;
     Scan.ListenExtraTimeRDS := 0; Scan.LOOffset := offset; Scan.LOSpans := None;
     Scan.SampleRate := S754_zero false; Scan.Demodulator := DemodulatorUnknown;
     Scan.LNAStateSet := false; Scan.LNAState := 0;
     Scan.SquelchEnable := false; Scan.SquelchThreshold := S754_zero false;
     Scan.AGCEnable := false; Scan.AGCThreshold := S754_zero false |}.

(** The same with the two detection thresholds. *)
Definition scanWithThresholds (power snr : float64) : Scan.t :=
  {| Scan.Start := 0; Scan.Stop := 0; Scan.Step := 0; Scan.List := [];
     Scan.DeviceName := ""; Scan.DeviceSerial := ""; Scan.Profile := "";
     Scan.DetectPowerThreshold := power;
     Scan.DetectSNRThreshold := snr;
     Scan.DetectTime := 600 * Millisecond; Scan.ListenTime := 5000 * Millisecond;
     Scan.ListenExtraTimeRDS := 0; Scan.LOOffset := 0; Scan.LOSpans := None;
     Scan.SampleRate := S754_zero false; Scan.Demodulator := DemodulatorUnknown;
     Scan.LNAStateSet := false; Scan.LNAState := 0;
     Scan.SquelchEnable := false; Scan.SquelchThreshold := S754_zero false;
     Scan.AGCEnable := false; Scan.AGCThreshold := S754_zero false |}.

(** Receiver settings with a sample rate and a filter bandwidth. *)
Definition settingsOf (sampleRate : float64) (filterBandwidth : Z) : Settings.t :=
  {| Settings.DeviceName := ""; Settings.DeviceSerial := ""; Settings.Profile := "";
     Settings.SampleRate := sampleRate; Settings.FilterBandwidth := filterBandwidth;
     Settings.DeviceCenterFrequency := 0; Settings.DeviceVFOFrequency := 0;
     Settings.Demodulator := DemodulatorUnknown; Settings.LNAState := 0;
     Settings.SquelchEnable := false; Settings.SquelchThreshold := S754_zero false;
     Settings.AGCEnable := false; Settings.AGCThreshold := S754_zero false |}.

(** The program state right after start-up, with given statistics. *)
Definition worldOf (stats : ReceiveStats) : World :=
  {| sdrconnectSettings := settingsOf (S754_zero false) 0;
     receiveStats := stats;
     userCommandTogglePause := false; userCommandNextScan := false;
     userCommandTerminate := false; keyboardListening := true;
     readDeadline := NoDeadline; requests := [] |}.

(** A detect window at 100 MHz: the VFO confirmation, one power report,
    then the deadline. *)
Definition example_detect_window : list Event :=
  [message_event (changed "device_vfo_frequency" "100000000");
   message_event (changed "signal_power" "-50");
   error_event ErrDeadlineExceeded].

(** Converting an out-of-range float64 the way the arm64 instruction
    does: it saturates, and NaN gives 0. *)
Definition arm64_uint32 (x : float64) : Z :=
  match x with
  | S754_nan | S754_zero _ => 0
  | S754_infinity s | S754_finite s _ _ => if s then 0 else 2 ^ 32 - 1
  end.

Fixpoint decimal_value (s : string) (n : Z) : option Z :=
  match s with
  | EmptyString => Some n
  | String c t =>
      if is_digit (byte_val c) then decimal_value t (10 * n + (byte_val c - 48))
      else None
  end.

(** [strconv.ParseFloat] restricted to plain integer literals, on which it
    is the nearest float64; 0 on every other text. *)
Definition ParseFloat_integers (s : string) : float64 :=
  let '(neg, digits) :=
    match s with
    | String c t =>
        if byte_val c =? 45 then (true, t)
        else if byte_val c =? 43 then (false, t)
        else (false, s)
    | EmptyString => (false, s)
    end in
  if String.eqb digits "" then S754_zero false
  else
    match decimal_value digits 0 with
    | Some n => binary_normalize prec64 emax64 (if neg then - n else n) 0 neg
    | None => S754_zero false
    end.

(** One order in which the keys of a map may be visited. *)
Definition rangeOrder_sorted (m : gmap Z Z) : list Z := (map_to_list m).*1.

(* ================================================================== *)
(** ** The plan with its LO frequencies *)
(* ================================================================== *)

Module FrequencyAndLOFrequency.
Record t := {
  frequency : Z;
  loFrequency : Z;
}.
End FrequencyAndLOFrequency.

(** [s[i]] on a slice: [None] is the index-out-of-range panic. *)
Definition at_index {A} (s : list A) (i : Z) : option A :=
  if 0 <=? i then s !! Z.to_nat i else None.

(** [scan.LOSpans = loSpans]: the one field of a scan that is written
    after the configuration has been read. *)
Definition set_LOSpans (loSpans : option (list LOSpan.t)) (scan : Scan.t) : Scan.t :=
  {| Scan.Start := Scan.Start scan; Scan.Stop := Scan.Stop scan;
     Scan.Step := Scan.Step scan; Scan.List := Scan.List scan;
     Scan.DeviceName := Scan.DeviceName scan;
     Scan.DeviceSerial := Scan.DeviceSerial scan;
     Scan.Profile := Scan.Profile scan;
     Scan.DetectPowerThreshold := Scan.DetectPowerThreshold scan;
     Scan.DetectSNRThreshold := Scan.DetectSNRThreshold scan;
     Scan.DetectTime := Scan.DetectTime scan;
     Scan.ListenTime := Scan.ListenTime scan;
     Scan.ListenExtraTimeRDS := Scan.ListenExtraTimeRDS scan;
     Scan.LOOffset := Scan.LOOffset scan; Scan.LOSpans := loSpans;
     Scan.SampleRate := Scan.SampleRate scan;
     Scan.Demodulator := Scan.Demodulator scan;
     Scan.LNAStateSet := Scan.LNAStateSet scan; Scan.LNAState := Scan.LNAState scan;
     Scan.SquelchEnable := Scan.SquelchEnable scan;
     Scan.SquelchThreshold := Scan.SquelchThreshold scan;
     Scan.AGCEnable := Scan.AGCEnable scan;
     Scan.AGCThreshold := Scan.AGCThreshold scan |}.

(** How the channel of a generator stands after the receives its
    consumer has made: closed, still open, or its goroutine has
    panicked. *)
Inductive ChannelEnd := ChanClosed | ChanOpen | ChanPanic.

(** The loop of the goroutine in [getScanFrequenciesAndLOFrequencies]
    over the items it receives; the flag says that an index was out of
    range. *)
Fixpoint LOFrequencies_loop (LOSpans : list LOSpan.t) (loIdx nextLOIdx : Z)
    (plan : list FrequencyAndIndex)
  : list FrequencyAndLOFrequency.t * bool :=
  match plan with
  | [] => ([], false)
  | freqAndIdx :: rest =>
      let freq := frequency freqAndIdx in
      let idx := index freqAndIdx in
      if idx =? nextLOIdx then
        match at_index LOSpans loIdx with
        | None => ([], true)
        | Some span =>
            let loFrequency := LOSpan.frequency span in
            let loIdx := int64 (loIdx + 1) in
            let next :=
              if loIdx <? Z.of_nat (length LOSpans)
              then LOSpan.from <$> at_index LOSpans loIdx
              else Some (-1) in
            match next with
            | None => ([], true)
            | Some nextLOIdx =>
                let '(sent, panicked) :=
                  LOFrequencies_loop LOSpans loIdx nextLOIdx rest in
                ({| FrequencyAndLOFrequency.frequency := freq;
                    FrequencyAndLOFrequency.loFrequency := loFrequency |} :: sent,
                 panicked)
            end
        end
      else
        let '(sent, panicked) := LOFrequencies_loop LOSpans loIdx nextLOIdx rest in
        ({| FrequencyAndLOFrequency.frequency := freq;
            FrequencyAndLOFrequency.loFrequency := 0 |} :: sent,
         panicked)
  end.

(** [getScanFrequenciesAndLOFrequencies]: the items sent within [fuel]
    receives and how the channel stands then.  The goroutine reads
    [scan.LOSpans[0]] before anything else. *)
Definition getScanFrequenciesAndLOFrequencies (fuel : nat) (scan : Scan.t)
  : list FrequencyAndLOFrequency.t * ChannelEnd :=
  let LOSpans := default [] (Scan.LOSpans scan) in
  match at_index LOSpans 0 with
  | None => ([], ChanPanic)
  | Some span =>
      let '(plan, closed) := getScanFrequenciesAndIndexes fuel scan in
      let '(sent, panicked) := LOFrequencies_loop LOSpans 0 (LOSpan.from span) plan in
      (sent, if panicked then ChanPanic else if closed then ChanClosed else ChanOpen)
  end.

(** The last value of a range that is still within [stop]. *)
Definition last_ascending (start stop step : Z) : Z :=
  start + (stop - start) / step * step.

Definition last_descending (start stop step : Z) : Z :=
  start - (start - stop) / step * step.

(** The LO frequency the item of index [idx] carries when [spans] are the
    spans of the plan: the centre of the span that starts at [idx], and 0
    when no span starts there. *)
Definition lo_at (spans : list LOSpan.t) (idx : Z) : Z :=
  match List.find (fun s => LOSpan.from s =? idx) spans with
  | Some s => LOSpan.frequency s
  | None => 0
  end.

(** [==] on demodulator modes *)
#[global] Instance DemodulatorMode_eq_dec : EqDecision DemodulatorMode.
Proof. solve_decision. Defined.

(* ================================================================== *)
(** ** float64 comparisons *)
(* ================================================================== *)

(** [x == y], [x != y] and [x > y] on float64; a NaN operand makes [==]
    and [>] false and [!=] true. *)
Definition f64_eq (x y : float64) : bool := SFeqb x y.
Definition f64_ne (x y : float64) : bool := negb (SFeqb x y).
Definition f64_gt (x y : float64) : bool := SFltb y x.

Definition f64_zero : float64 := S754_zero false.

(* ================================================================== *)
(** ** Errors as results *)
(* ================================================================== *)

(** A value or the error that ended the computation. *)
Definition Result (A : Type) : Type := A + error.

Definition bind_result {A B} (m : Result A) (k : A -> Result B) : Result B :=
  match m with
  | inl a => k a
  | inr e => inr e
  end.

Notation "x <~ m ; k" := (bind_result m (fun x => k))
  (at level 20, m at level 100, k at level 200, only parsing).
Notation "' x <~ m ; k" := (bind_result m (fun x => k))
  (at level 20, x pattern, m at level 100, k at level 200, only parsing).

(** [if err != nil { return nil, err }] after a call that returns a
    value, a flag and an error. *)
Definition checked {A} (r : A * bool * option error) : Result (A * bool) :=
  match r.2 with
  | Some e => inr e
  | None => inl r.1
  end.

(* ================================================================== *)
(** ** The label file *)
(* ================================================================== *)

(** What one call of [reader.Read] of [encoding/csv] gives before the end
    of the file: a record or an error.  The end of the list is [io.EOF]. *)
Inductive CsvRead :=
| CsvRecord (record : list string)
| CsvError (e : error).

(** The verb [%v] on a slice of strings. *)
Definition format_v_strings (record : list string) : string :=
  "[" +:+ Join record " " +:+ "]".

(** The key a record is stored under: a first field of four bytes is a
    PI code in hexadecimal, any other one a frequency in decimal. *)
Definition label_key (record0 : string) : Z * option error :=
  if (String.length record0 =? 4)%nat
  then ParseUint record0 16 16
  else ParseUint record0 10 64.

(** The loop of [readLabelFile] over the records; [labels] is the global
    map, which keeps what was stored before an error. *)
Fixpoint readLabelFile_loop (reads : list CsvRead) (labels : gmap Z string)
  : gmap Z string * option error :=
  match reads with
  | [] => (labels, None)
  | CsvError e :: _ => (labels, Some e)
  | CsvRecord record :: rest =>
      if negb (length record =? 2)%nat then
        (labels, Some (Errorf ("invalid label record: " +:+ format_v_strings record)))
      else
        let record0 := nth 0 record "" in
        let record1 := nth 1 record "" in
        let '(key, err) := label_key record0 in
        match err with
        | Some e => (labels, Some e)
        | None =>
            let label := TrimSpace record1 in
            let labels :=
              match labels !! key with
              | Some currentLabel => <[key := currentLabel +:+ "|" +:+ label]> labels
              | None => <[key := label]> labels
              end in
            readLabelFile_loop rest labels
        end
  end.

(** [readLabelFile]: [file] is what [os.Open] and then the reader give. *)
Definition readLabelFile (file : Result (list CsvRead)) (labels : gmap Z string)
  : gmap Z string * option error :=
  match file with
  | inr e => (labels, Some e)
  | inl reads => readLabelFile_loop reads labels
  end.

(** The labels the records of a file give for [key], in the order of the
    file. *)
Fixpoint labels_of (key : Z) (reads : list CsvRead) : list string :=
  match reads with
  | CsvRecord [record0; record1] :: rest =>
      match label_key record0 with
      | (k, None) =>
          if k =? key then TrimSpace record1 :: labels_of key rest
          else labels_of key rest
      | _ => []
      end
  | _ => []
  end.

(** What the map holds for a key that has the label [current] (if any)
    after the labels [more] have been added. *)
Definition joined (current : option string) (more : list string) : option string :=
  match current, more with
  | None, [] => None
  | None, _ => Some (Join more "|")
  | Some c, _ => Some (Join (c :: more) "|")
  end.

(* ================================================================== *)
(** ** The configuration file *)
(* ================================================================== *)

(** A key of a section of the ini file, as what its accessors return. *)
Module IniKey.
Record t := {
  String : string;
  Uint : Z * option error;
  Uint64 : Z * option error;
  Float64 : float64 * option error;
  Float64s : list float64;
}.
End IniKey.

(** A section: its keys by name. *)
Definition IniSection : Type := string -> option IniKey.t.

Definition HasKey (section : IniSection) (name : string) : bool :=
  match section name with
  | Some _ => true
  | None => false
  end.

Definition getStringConfigSetting (defaultSection : IniSection) (setting : string)
    (section : IniSection) : string * bool * option error :=
  match section setting with
  | Some key => (IniKey.String key, true, None)
  | None =>
      match defaultSection setting with
      | Some key => (IniKey.String key, true, None)
      | None => ("", false, None)
      end
  end.

Definition getUint32ConfigSetting (defaultSection : IniSection) (setting : string)
    (section : IniSection) : Z * bool * option error :=
  let '(valueUint, found, err) :=
    match section setting with
    | Some key => ((IniKey.Uint key).1, true, (IniKey.Uint key).2)
    | None =>
        match defaultSection setting with
        | Some key => ((IniKey.Uint key).1, true, (IniKey.Uint key).2)
        | None => (0, false, None)
        end
    end in
  match err with
  | None => (uint32 valueUint, found, err)
  | Some _ => (0, found, err)
  end.

Definition getUint64ConfigSetting (defaultSection : IniSection) (setting : string)
    (section : IniSection) : Z * bool * option error :=
  match section setting with
  | Some key => ((IniKey.Uint64 key).1, true, (IniKey.Uint64 key).2)
  | None =>
      match defaultSection setting with
      | Some key => ((IniKey.Uint64 key).1, true, (IniKey.Uint64 key).2)
      | None => (0, false, None)
      end
  end.

Definition getFloat64ConfigSetting (defaultSection : IniSection) (setting : string)
    (section : IniSection) : float64 * bool * option error :=
  match section setting with
  | Some key => ((IniKey.Float64 key).1, true, (IniKey.Float64 key).2)
  | None =>
      match defaultSection setting with
      | Some key => ((IniKey.Float64 key).1, true, (IniKey.Float64 key).2)
      | None => (f64_zero, false, None)
      end
  end.

(** What the ini library hands to [readConfigFile]: the default section
    and the sections named scan, each with the error it may give. *)
Record IniFile := {
  GetSection_default : Result IniSection;
  SectionsByName_scan : Result (list IniSection);
}.

Definition waitSignalPowerAndSNR : Duration := 600 * Millisecond.
Definition defaultDetectTime : Duration := waitSignalPowerAndSNR.
Definition Second : Duration := 1000 * Millisecond.
Definition defaultListenTime : Duration := 5 * Second.

(* ================================================================== *)
(** ** Reading the configuration *)
(* ================================================================== *)

Section Config.

(** What converting a float64 that has no value in the integer type
    yields: Go leaves it to the implementation. *)
Variable uint64_of_unrepresentable : float64 -> Z.
Variable int64_of_unrepresentable : float64 -> Z.
Variable int32_of_unrepresentable : float64 -> Z.

Definition float64_to_uint64 (x : float64) : Z :=
  match f64_trunc x with
  | Some z =>
      if (0 <=? z) && (z <? 2 ^ 64) then z
      else uint64 (uint64_of_unrepresentable x)
  | None => uint64 (uint64_of_unrepresentable x)
  end.

Definition float64_to_int64 (x : float64) : Z :=
  match f64_trunc x with
  | Some z =>
      if (- 2 ^ 63 <=? z) && (z <? 2 ^ 63) then z
      else int64 (int64_of_unrepresentable x)
  | None => int64 (int64_of_unrepresentable x)
  end.

Definition float64_to_int32 (x : float64) : Z :=
  match f64_trunc x with
  | Some z =>
      if (- 2 ^ 31 <=? z) && (z <? 2 ^ 31) then z
      else int32 (int32_of_unrepresentable x)
  | None => int32 (int32_of_unrepresentable x)
  end.

(** The range or the list of a scan section:
    [(freqStart, freqStop, freqStep, freqList)]. *)
Definition readScanFrequencies (section : IniSection)
  : Result (Z * Z * Z * list Z) :=
  let hasRange := HasKey section "range" in
  let hasList := HasKey section "list" in
  if (negb hasRange && negb hasList) || (hasRange && hasList) then
    inr (Errorf "scan section should have a 'range' or 'list' setting (but not both)")
  else if hasRange then
    let freqRangeValues :=
      match section "range" with
      | Some key => IniKey.Float64s key
      | None => []
      end in
    if negb (length freqRangeValues =? 3)%nat then
      inr (Errorf "range setting must have exactly three values")
    else
      let v0 := nth 0 freqRangeValues f64_zero in
      let v1 := nth 1 freqRangeValues f64_zero in
      let v2 := nth 2 freqRangeValues f64_zero in
      if f64_eq v2 f64_zero then
        inr (Errorf "range setting step value must not be 0")
      else if f64_gt v2 f64_zero && negb (f64_gt v1 v0) then
        inr (Errorf "range setting end value must be greater than start value")
      else if f64_lt v2 f64_zero && negb (f64_lt v1 v0) then
        inr (Errorf
               "range setting end value must be less than start value (negative step)")
      else
        inl (float64_to_uint64 v0, float64_to_uint64 v1, float64_to_int64 v2, [])
  else if hasList then
    let freqListValues :=
      match section "list" with
      | Some key => IniKey.Float64s key
      | None => []
      end in
    if (length freqListValues =? 0)%nat then
      inr (Errorf "invalid frequency scan list")
    else inl (0, 0, 0, map float64_to_uint64 freqListValues)
  else inl (0, 0, 0, []).

(** The body of the loop of [readConfigFile] over the scan sections. *)
Definition readScanSection (defaultSection section : IniSection) : Result Scan.t :=
  '(freqStart, freqStop, freqStep, freqList) <~ readScanFrequencies section;
  '(deviceName, _) <~
    checked (getStringConfigSetting defaultSection "device name" section);
  '(deviceSerial, _) <~
    checked (getStringConfigSetting defaultSection "device serial" section);
  if negb (String.eqb deviceName "") && negb (String.eqb deviceSerial "") then
    inr (Errorf "select only one of 'device name' or 'device serial'")
  else
  '(profile, _) <~
    checked (getStringConfigSetting defaultSection "profile" section);
  '(detectPowerThreshold, _) <~
    checked (getFloat64ConfigSetting defaultSection "detect power threshold" section);
  '(detectSNRThreshold, _) <~
    checked (getFloat64ConfigSetting defaultSection "detect snr threshold" section);
  '(detectTimeMs, found) <~
    checked (getUint32ConfigSetting defaultSection "detect time" section);
  detectTime <~
    (if found then
       let detectTime := int64 (detectTimeMs * Millisecond) in
       if detectTime <? waitSignalPowerAndSNR
       then inr (Errorf "detect time should be at least 600ms")
       else inl detectTime
     else inl defaultDetectTime : Result Duration);
  '(listenTimeMs, found) <~
    checked (getUint32ConfigSetting defaultSection "listen time" section);
  let listenTime :=
    if found then int64 (listenTimeMs * Millisecond) else defaultListenTime in
  '(listenTimeRDSMs, found) <~
    checked (getUint32ConfigSetting defaultSection "listen time rds" section);
  listenExtraTimeRDS <~
    (if found then
       let listenTimeRDS := int64 (listenTimeRDSMs * Millisecond) in
       if listenTimeRDS <? listenTime
       then inr (Errorf
                   "listen time rds should be greater than or equal to listen time")
       else inl (int64 (listenTimeRDS - listenTime))
     else inl 0 : Result Duration);
  '(loOffsetFloat, _) <~
    checked (getFloat64ConfigSetting defaultSection "lo offset" section);
  let loOffset := float64_to_int32 loOffsetFloat in
  '(sampleRate, _) <~
    checked (getFloat64ConfigSetting defaultSection "sample rate" section);
  '(demodulatorString, found) <~
    checked (getStringConfigSetting defaultSection "demodulator" section);
  demodulator <~
    (if found then
       match ParseDemodulatorMode demodulatorString with
       | (_, Some e) => inr e
       | (demodulator, None) => inl demodulator
       end
     else inl DemodulatorUnknown : Result DemodulatorMode);
  '(lnaState, found) <~
    checked (getUint32ConfigSetting defaultSection "lna state" section);
  let lnaStateSet := found in
  '(squelchThreshold, found) <~
    checked (getFloat64ConfigSetting defaultSection "squelch" section);
  let squelchEnable := found in
  '(agcThreshold, found) <~
    checked (getFloat64ConfigSetting defaultSection "agc" section);
  let agcEnable := found in
  inl {| Scan.Start := freqStart; Scan.Stop := freqStop; Scan.Step := freqStep;
         Scan.List := freqList;
         Scan.DeviceName := deviceName; Scan.DeviceSerial := deviceSerial;
         Scan.Profile := profile;
         Scan.DetectPowerThreshold := detectPowerThreshold;
         Scan.DetectSNRThreshold := detectSNRThreshold;
         Scan.DetectTime := detectTime; Scan.ListenTime := listenTime;
         Scan.ListenExtraTimeRDS := listenExtraTimeRDS;
         Scan.LOOffset := loOffset; Scan.LOSpans := None;
         Scan.SampleRate := sampleRate; Scan.Demodulator := demodulator;
         Scan.LNAStateSet := lnaStateSet; Scan.LNAState := lnaState;
         Scan.SquelchEnable := squelchEnable; Scan.SquelchThreshold := squelchThreshold;
         Scan.AGCEnable := agcEnable; Scan.AGCThreshold := agcThreshold |}.

(** The loop over the scan sections: the scans read so far are dropped
    at the first error. *)
Fixpoint readScanSections (defaultSection : IniSection)
    (scanSections : list IniSection) (scans : list Scan.t) : Result (list Scan.t) :=
  match scanSections with
  | [] => inl scans
  | section :: rest =>
      scan <~ readScanSection defaultSection section;
      readScanSections defaultSection rest (scans ++ [scan])
  end.

(** [readConfigFile]: [(scans, err)], from what [ini.LoadSources] gave. *)
Definition readConfigFile (config : Result IniFile) : list Scan.t * option error :=
  let result :=
    config <~ config;
    defaultSection <~ GetSection_default config;
    scanSections <~ SectionsByName_scan config;
    readScanSections defaultSection scanSections [] in
  match result with
  | inl scans => (scans, None)
  | inr err => ([], Some err)
  end.

End Config.

(** What [readConfigFile] guarantees about a scan it returns. *)
Definition configured (scan : Scan.t) : Prop :=
  Scan.wf scan /\
  waitSignalPowerAndSNR <= Scan.DetectTime scan /\
  0 <= Scan.ListenTime scan /\
  0 <= Scan.ListenExtraTimeRDS scan /\
  (Scan.DeviceName scan = "" \/ Scan.DeviceSerial scan = "") /\
  Scan.LOSpans scan = None /\
  (Scan.List scan = [] \/
   (Scan.List scan <> [] /\
    Scan.Start scan = 0 /\ Scan.Stop scan = 0 /\ Scan.Step scan = 0)).

(** A section that has the one key [name]. *)
Definition section_with (name : string) (key : IniKey.t) : IniSection :=
  fun setting => if String.eqb setting name then Some key else None.

Definition no_keys : IniSection := fun _ => None.

(** A key [range] or [list] with the given values. *)
Definition float64s_key (values : list float64) : IniKey.t :=
  {| IniKey.String := ""; IniKey.Uint := (0, Some ErrSyntax);
     IniKey.Uint64 := (0, Some ErrSyntax);
     IniKey.Float64 := (f64_zero, Some ErrSyntax);
     IniKey.Float64s := values |}.

(* ================================================================== *)
(** ** Receiver settings that name the device *)
(* ================================================================== *)

Module SettingsSelect.
Import Settings.

Definition DeviceName (x : string) (s : t) : t :=
  Build_t x (DeviceSerial s) (Profile s) (SampleRate s) (FilterBandwidth s)
    (DeviceCenterFrequency s) (DeviceVFOFrequency s) (Demodulator s) (LNAState s)
    (SquelchEnable s) (SquelchThreshold s) (AGCEnable s) (AGCThreshold s).

Definition DeviceSerial (x : string) (s : t) : t :=
  Build_t (Settings.DeviceName s) x (Profile s) (SampleRate s) (FilterBandwidth s)
    (DeviceCenterFrequency s) (DeviceVFOFrequency s) (Demodulator s) (LNAState s)
    (SquelchEnable s) (SquelchThreshold s) (AGCEnable s) (AGCThreshold s).

Definition Profile (x : string) (s : t) : t :=
  Build_t (Settings.DeviceName s) (Settings.DeviceSerial s) x (SampleRate s)
    (FilterBandwidth s)
    (DeviceCenterFrequency s) (DeviceVFOFrequency s) (Demodulator s) (LNAState s)
    (SquelchEnable s) (SquelchThreshold s) (AGCEnable s) (AGCThreshold s).
End SettingsSelect.

(** [SDRconnectSettings{}] *)
Definition zeroSettings : Settings.t :=
  {| Settings.DeviceName := ""; Settings.DeviceSerial := ""; Settings.Profile := "";
     Settings.SampleRate := f64_zero; Settings.FilterBandwidth := 0;
     Settings.DeviceCenterFrequency := 0; Settings.DeviceVFOFrequency := 0;
     Settings.Demodulator := DemodulatorUnknown; Settings.LNAState := 0;
     Settings.SquelchEnable := false; Settings.SquelchThreshold := f64_zero;
     Settings.AGCEnable := false; Settings.AGCThreshold := f64_zero |}.

(* ================================================================== *)
(** ** The scan loop: sends, log and outcomes *)
(* ================================================================== *)

(** The outcome of the [k]-th call of [websocket.JSON.Send] of the
    session, counting from 0; the requests made so far are in the
    state. *)
Definition SendScript : Type := nat -> option error.

Definition nextSend (sends : SendScript) (w : World) : option error :=
  sends (length (requests w)).

(** How a function of the scan loop ends on a script of events: it
    returns, with the lines it has logged; the script ends while it is
    blocked in a read; the plan generator has not closed its channel
    within the fuel; or the program has panicked. *)
Inductive ScanOutcome :=
| ScanReturned (err : option error) (log : list string) (w : World) (rest : list Event)
| ScanWaiting (log : list string) (w : World)
| ScanGeneratorOpen (log : list string) (w : World) (rest : list Event)
| ScanPanic.

(** An outcome with the statistics of its final state left out. *)
Definition forget_stats (o : ScanOutcome) : ScanOutcome :=
  match o with
  | ScanReturned err log w rest => ScanReturned err log (with_stats clearStats w) rest
  | ScanWaiting log w => ScanWaiting log (with_stats clearStats w)
  | ScanGeneratorOpen log w rest =>
      ScanGeneratorOpen log (with_stats clearStats w) rest
  | ScanPanic => ScanPanic
  end.

(** The lines logged when the function ended. *)
Definition scan_log (o : ScanOutcome) : list string :=
  match o with
  | ScanReturned _ log _ _ => log
  | ScanWaiting log _ => log
  | ScanGeneratorOpen log _ _ => log
  | ScanPanic => []
  end.

(** The two kinds of lines [runScan] logs: a detect line starts with the
    word detect and the field [f=] of a frequency, a listen line with the
    word listen. *)
Definition detect_line (freq : Z) (line : string) : Prop :=
  exists fields, line = Join ("detect" :: ("f=" +:+ FormatUint freq) :: fields) " ".

Definition listen_line (line : string) : Prop :=
  exists fields, line = Join ("listen" :: fields) " ".

(** The same for [initScan], which also hands back the scan it may have
    written the LO spans into; [InitPlanning] is [getLOSpans] still
    receiving from the generator after the fuel. *)
Inductive InitOutcome :=
| InitReturned (err : option error) (scan : Scan.t) (w : World) (rest : list Event)
| InitWaiting (w : World)
| InitPlanning (w : World) (rest : list Event).

(** Two states that differ in the statistics only. *)
Definition same_but_stats (w w' : World) : Prop :=
  sdrconnectSettings w = sdrconnectSettings w' /\
  userCommandTogglePause w = userCommandTogglePause w' /\
  userCommandNextScan w = userCommandNextScan w' /\
  userCommandTerminate w = userCommandTerminate w' /\
  keyboardListening w = keyboardListening w' /\
  readDeadline w = readDeadline w' /\
  requests w = requests w'.

(** Two outcomes of a session call that agree in all but the
    statistics. *)
Definition same_outcome {A} (o o' : Outcome A) : Prop :=
  match o, o' with
  | Returned a w rest, Returned a' w' rest' =>
      a = a' /\ same_but_stats w w' /\ rest = rest'
  | Waiting w, Waiting w' => same_but_stats w w'
  | _, _ => False
  end.

(** Every statistics slice is within its capacity. *)
Definition within_cap (st : ReceiveStats) : Prop :=
  Z.of_nat (length (signalPower st)) <= maxStats /\
  Z.of_nat (length (signalSNR st)) <= maxStats /\
  Z.of_nat (length (rdsPI st)) <= maxStats /\
  Z.of_nat (length (rdsPS st)) <= maxStats.

(** The test [getSdrconnectProperty] makes on every message. *)
Definition is_response_of (property : string) (message : Message) : bool :=
  String.eqb (EventType message) "get_property_response" &&
  String.eqb (Property message) property.

(** The event is a message that is not the answer about [property]. *)
Definition other_response (property : string) (ev : Event) : Prop :=
  exists m, received ev = RecvMessage m /\ is_response_of property m = false.

(** An answer to a get request. *)
Definition response (property value : string) : Message :=
  {| EventType := "get_property_response"; Property := property; Value := value |}.

(** No user command is pending. *)
Definition no_command (w : World) : Prop :=
  userCommandTogglePause w = false /\ userCommandNextScan w = false /\
  userCommandTerminate w = false.

(* ================================================================== *)
(** ** Concrete data for the session, the start-up and the configuration *)
(* ================================================================== *)

(** A session in which every send succeeds. *)
Definition sends_ok : SendScript := fun _ => None.

(** The key n, and the space bar. *)
Definition key_n : KeyPress := {| char := 110; key := KeyOther |}.

(** A conversion of an unrepresentable float64 that gives 0. *)
Definition zero_of_unrepresentable : float64 -> Z := fun _ => 0.

(** [strconv.ParseFloat] on texts it accepts, and a formatter for scans
    that set no float property. *)
Definition ParseFloat_no_error : string -> option error := fun _ => None.
Definition FormatFloat_blank : float64 -> string := fun _ => "".

(** The float64 0.5 *)
Definition f64_half : float64 := S754_finite false 4503599627370496 (-53).

(** A configuration with an empty default section and two scan sections:
    a range and a list. *)
Definition example_config : Result IniFile :=
  inl {| GetSection_default := inl no_keys;
         SectionsByName_scan :=
           inl [section_with "range"
                  (float64s_key [float64_of_Z 88000000; float64_of_Z 108000000;
                                 float64_of_Z 100000]);
                section_with "list"
                  (float64s_key [float64_of_Z 100000; float64_of_Z 100100;
                                 float64_of_Z 500000])] |}.

(** A label file with two labels for one frequency and one for a PI
    code. *)
Definition example_labels : list CsvRead :=
  [CsvRecord ["100000"; " BBC "]; CsvRecord ["C201"; "Radio"];
   CsvRecord ["100000"; "Two"]].

(** The answers of the receiver to the eight requests of
    [getSdrconnectSettings]. *)
Definition example_settings_answers : list Event :=
  [message_event (response "device_sample_rate" "2000000");
   message_event (changed "signal_power" "-50");
   message_event (response "filter_bandwidth" "200000");
   message_event (response "demodulator" "WFM");
   message_event (response "lna_state" "3");
   message_event (response "squelch_enable" "false");
   message_event (response "squelch_threshold" "-100");
   message_event (response "agc_enable" "true");
   message_event (response "agc_threshold" "-30")].

(** A scan of one frequency that asks for a profile. *)
Definition scanWithProfile (profile : string) : Scan.t :=
  {| Scan.Start := 0; Scan.Stop := 0; Scan.Step := 0; Scan.List := [100000000];
     Scan.DeviceName := ""; Scan.DeviceSerial := ""; Scan.Profile := profile;
     Scan.DetectPowerThreshold := S754_zero false;
     Scan.DetectSNRThreshold := S754_zero false;
     Scan.DetectTime := 600 * Millisecond; Scan.ListenTime := 5000 * Millisecond;
     Scan.ListenExtraTimeRDS := 0; Scan.LOOffset := 0; Scan.LOSpans := None;
     Scan.SampleRate := S754_zero false; Scan.Demodulator := DemodulatorUnknown;
     Scan.LNAStateSet := false; Scan.LNAState := 0;
     Scan.SquelchEnable := false; Scan.SquelchThreshold := S754_zero false;
     Scan.AGCEnable := false; Scan.AGCThreshold := S754_zero false |}.

(** The three targets of the examples, their plan and their LO spans at
    an available bandwidth of 300000. *)
Definition example_targets : Scan.t := scanOf 0 0 0 [100000; 100100; 500000] 0.

Definition example_targets_plan : list FrequencyAndIndex :=
  [{| frequency := 100000; index := 0 |}; {| frequency := 100100; index := 1 |};
   {| frequency := 500000; index := 2 |}].

Definition example_spans : list LOSpan.t :=
  [{| LOSpan.from := 0; LOSpan.to := 1; LOSpan.frequency := 100050 |};
   {| LOSpan.from := 2; LOSpan.to := 2; LOSpan.frequency := 500000 |}].

(** One item of a plan at 100 MHz that needs no retuning. *)
Definition example_item : FrequencyAndLOFrequency.t :=
  {| FrequencyAndLOFrequency.frequency := 100000000;
     FrequencyAndLOFrequency.loFrequency := 0 |}.


(* ================================================================== *)
(** ** Functions that depend on the platform and on [strconv.ParseFloat] *)
(* ================================================================== *)

Section Scanner.

(** What converting a float64 that has no uint32 value yields: Go leaves
    it to the implementation. *)
Variable uint32_of_unrepresentable : float64 -> Z.

(** [strconv.ParseFloat(s, 64)], the value it returns. *)
Variable ParseFloat : string -> float64.

(** The order in which [range] visits the keys of a map, which Go leaves
    unspecified. *)
Variable rangeOrder : gmap Z Z -> list Z.

Definition float64_to_uint32 (x : float64) : Z :=
  match f64_trunc x with
  | Some z =>
      if (0 <=? z) && (z <? 2 ^ 32) then z
      else uint32 (uint32_of_unrepresentable x)
  | None => uint32 (uint32_of_unrepresentable x)
  end.

Definition getIFBandwidth (sampleRate : float64) : Z :=
  let rate := float64_to_uint32 (f64_div sampleRate (float64_of_Z 1000)) in
  let prevBandwidth := nth 0 bandwidthskHz 0 in
  getIFBandwidth_loop rate prevBandwidth bandwidthskHz.

(** [maxDf] in [getLOSpans] *)
Definition getLOSpans_maxDf (settings : Settings.t) (scan : Scan.t) : Z :=
  uint64 (uint32 (uint32 (getIFBandwidth (Settings.SampleRate settings) -
                          Settings.FilterBandwidth settings) -
                  uint32 (Z.max (Scan.LOOffset scan)
                                (int32 (- Scan.LOOffset scan))))).

(** [getLOSpans]; [None] when the generator has not closed its channel
    after [fuel] items. *)
Definition getLOSpans (fuel : nat) (settings : Settings.t) (scan : Scan.t)
  : option (list LOSpan.t) :=
  let maxDf := getLOSpans_maxDf settings scan in
  let '(plan, closed) := getScanFrequenciesAndIndexes fuel scan in
  if closed then Some (getLOSpans_walk maxDf (Scan.LOOffset scan) plan)
  else None.

(** The fields of the line [showStats] logs, in the order in which they
    are appended.  A field that is left out is the empty list. *)
Definition showStats_fields (labels : gmap Z string) (what : string) (w : World)
  : option (list string) :=
  let stats := receiveStats w in
  let freq := Settings.DeviceVFOFrequency (sdrconnectSettings w) in
  let whatField := if negb (String.eqb what "") then [what] else [] in
  let freqField := ["f=" +:+ FormatUint freq] in
  let labelPI :=
    match rdsPI stats with
    | pi :: _ =>
        match labels !! uint64 pi with
        | Some label => ["l=" +:+ label]
        | None => []
        end
    | [] => []
    end in
  let labelFreq :=
    match labels !! freq with
    | Some label => ["l=" +:+ label]
    | None => []
    end in
  pwr ← powerField (signalPower stats);
  snr ← snrField (signalSNR stats);
  let rdsPIField :=
    match rdsPI stats with
    | pi :: _ =>
        let set := rdsPIset (rdsPI stats) in
        if (size set =? 1)%nat then ["RDS/PI=" +:+ format_04X pi]
        else ["RDS/PI=[" +:+ Join (map format_04X (rangeOrder set)) " " +:+ "]"]
    | [] => []
    end in
  let rdsPSField :=
    match rdsPS stats with
    | _ :: _ => ["RDS/PS=" +:+ Join (rdsPS stats) "|"]
    | [] => []
    end in
  Some ((whatField ++ freqField ++ labelPI ++ labelFreq) ++ pwr ++
        (snr ++ rdsPIField ++ rdsPSField)).

(** The line [showStats] hands to [log.Println]. *)
Definition showStats (labels : gmap Z string) (what : string) (w : World)
  : option string :=
  fields ← showStats_fields labels what w;
  Some (Join fields " ").

(** The [switch message.Property] of [receiveMessages]: the settings and
    statistics after a property-changed message, and the sequence
    string. *)
Definition property_changed (message : Message) (w : World) (sequence : string)
  : World * string :=
  let settings := sdrconnectSettings w in
  let stats := receiveStats w in
  let p := Property message in
  let v := Value message in
  if String.eqb p "device_sample_rate" then
    (with_settings (SettingsUpdate.SampleRate (ParseFloat v) settings) w,
     sequence +:+ "S")
  else if String.eqb p "device_vfo_frequency" then
    (with_settings (SettingsUpdate.DeviceVFOFrequency (ParseUint v 10 64).1 settings) w,
     sequence +:+ "V")
  else if String.eqb p "device_center_frequency" then
    (with_settings (SettingsUpdate.DeviceCenterFrequency (ParseUint v 10 64).1 settings) w,
     sequence +:+ "C")
  else if String.eqb p "filter_bandwidth" then
    let filterBandwidth := (ParseUint v 10 32).1 in
    (with_settings (SettingsUpdate.FilterBandwidth (uint32 filterBandwidth) settings) w,
     sequence +:+ "F")
  else if String.eqb p "signal_power" then
    if below_cap (signalPower stats) then
      let signalPower1 := ParseFloat v in
      (with_stats (set_signalPower (signalPower stats ++ [signalPower1]) stats) w,
       sequence)
    else (w, sequence)
  else if String.eqb p "signal_snr" then
    if below_cap (signalSNR stats) then
      let signalSNR1 := ParseFloat v in
      (with_stats (set_signalSNR (signalSNR stats ++ [signalSNR1]) stats) w,
       sequence)
    else (w, sequence)
  else if String.eqb p "rds_pi" then
    if below_cap (rdsPI stats) then
      let rdsPI1 := (ParseUint v 10 16).1 in
      if negb (rdsPI1 =? 0) then
        (with_stats (set_rdsPI (rdsPI stats ++ [uint16 rdsPI1]) stats) w, sequence)
      else (w, sequence)
    else (w, sequence)
  else if String.eqb p "rds_ps" then
    if below_cap (rdsPS stats) then
      let rdsPS1 := TrimSpace v in
      if negb (String.eqb rdsPS1 "") then
        (with_stats (set_rdsPS (rdsPS stats ++ [rdsPS1]) stats) w, sequence)
      else (w, sequence)
    else (w, sequence)
  else if String.eqb p "demodulator" then
    (with_settings (SettingsUpdate.Demodulator (ParseDemodulatorMode v).1 settings) w,
     sequence)
  else if String.eqb p "lna_state" then
    let lnaState := (ParseUint v 0 32).1 in
    (with_settings (SettingsUpdate.LNAState (uint32 lnaState) settings) w, sequence)
  else if String.eqb p "squelch_enable" then
    (with_settings (SettingsUpdate.SquelchEnable (ParseBool v).1 settings) w, sequence)
  else if String.eqb p "squelch_threshold" then
    (with_settings (SettingsUpdate.SquelchThreshold (ParseFloat v) settings) w, sequence)
  else if String.eqb p "agc_enable" then
    (with_settings (SettingsUpdate.AGCEnable (ParseBool v).1 settings) w, sequence)
  else if String.eqb p "agc_threshold" then
    (with_settings (SettingsUpdate.AGCThreshold (ParseFloat v) settings) w, sequence)
  else (w, sequence).

(** [receiveStats.countMessages++] *)
Definition count_message (w : World) : World :=
  with_stats (set_countMessages (int64 (countMessages (receiveStats w) + 1))
                                (receiveStats w)) w.

(** The [for] loop of [receiveMessages], one iteration per event.  Every
    return runs the deferred [ws.SetReadDeadline(time.Time{})]. *)
Fixpoint receiveMessages_loop (sequencePattern : option Regexp)
    (events : list Event) (sequence : string) (paused : bool) (w : World)
  : Outcome (option error) :=
  match events with
  | [] => Waiting w
  | ev :: rest =>
      let w := getKeyPresses (keys ev) w in
      match received ev with
      | RecvError err =>
          let err :=
            if errors_Is err ErrDeadlineExceeded &&
               match sequencePattern with None => true | Some _ => false end &&
               (0 <? countMessages (receiveStats w))
            then None else Some err in
          Returned err (SetReadDeadline NoDeadline w) rest
      | RecvMessage message =>
          let w := count_message w in
          if userCommandTerminate w then
            let w := with_flags (userCommandTogglePause w) (userCommandNextScan w)
                                false (keyboardListening w) w in
            Returned (Some ErrUserCommandTerminate) (SetReadDeadline NoDeadline w) rest
          else if userCommandNextScan w then
            let w := with_flags (userCommandTogglePause w) false
                                (userCommandTerminate w) (keyboardListening w) w in
            Returned (Some ErrUserCommandNextScan) (SetReadDeadline NoDeadline w) rest
          else
            let '(w, paused) :=
              if userCommandTogglePause w then
                let w := with_flags false (userCommandNextScan w)
                                    (userCommandTerminate w) (keyboardListening w) w in
                (SetReadDeadline (if negb paused then NoDeadline else DeadlineNow) w,
                 negb paused)
              else (w, paused) in
            if String.eqb (EventType message) "property_changed" then
              let '(w, sequence) := property_changed message w sequence in
              if match sequencePattern with
                 | Some pattern => MatchString pattern sequence
                 | None => false
                 end
              then Returned None (SetReadDeadline NoDeadline w) rest
              else receiveMessages_loop sequencePattern rest sequence paused w
            else receiveMessages_loop sequencePattern rest sequence paused w
      end
  end.

(** [receiveMessages(&sdrconnectSettings, sequencePattern, timeout)]:
    every caller passes the global settings. *)
Definition receiveMessages (sequencePattern : option Regexp) (timeout : Duration)
    (events : list Event) (w : World) : Outcome (option error) :=
  receiveMessages_loop sequencePattern events "" false
    (SetReadDeadline (DeadlineIn timeout) w).

Fixpoint setSdrconnectProperty_loop (property value : string)
    (events : list Event) (w : World)
  : Outcome (string * bool * option error) :=
  match events with
  | [] => Waiting w
  | ev :: rest =>
      let w := getKeyPresses (keys ev) w in
      match received ev with
      | RecvError err =>
          if errors_Is err ErrDeadlineExceeded then
            Returned (value, false, None) (SetReadDeadline NoDeadline w) rest
          else
            Returned ("", false,
                      Some (Errorf_w ("setSdrconnectProperty(" +:+ property +:+ ")") err))
                     (SetReadDeadline NoDeadline w) rest
      | RecvMessage message =>
          if is_property_changed_of property message then
            Returned (Value message, true, None) (SetReadDeadline NoDeadline w) rest
          else setSdrconnectProperty_loop property value rest w
      end
  end.

(** [setSdrconnectProperty]: [(actualValue, changed, err)]. *)
Definition setSdrconnectProperty (property value : string)
    (sendErr : option error) (events : list Event) (w : World)
  : Outcome (string * bool * option error) :=
  let request :=
    {| EventType := "set_property"; Property := property; Value := value |} in
  let w := Send request w in
  match sendErr with
  | Some err => Returned ("", false, Some err) w events
  | None =>
      setSdrconnectProperty_loop property value events
        (SetReadDeadline (DeadlineIn waitSetProperty) w)
  end.

Fixpoint getSdrconnectProperty_loop (property : string)
    (events : list Event) (w : World) : Outcome (string * option error) :=
  match events with
  | [] => Waiting w
  | ev :: rest =>
      let w := getKeyPresses (keys ev) w in
      match received ev with
      | RecvError err =>
          Returned ("", Some (Errorf_w ("getSdrconnectProperty(" +:+ property +:+ ")") err))
                   (SetReadDeadline NoDeadline w) rest
      | RecvMessage message =>
          if String.eqb (EventType message) "get_property_response" &&
             String.eqb (Property message) property
          then Returned (Value message, None) (SetReadDeadline NoDeadline w) rest
          else getSdrconnectProperty_loop property rest w
      end
  end.

Definition getSdrconnectProperty (property : string)
    (sendErr : option error) (events : list Event) (w : World)
  : Outcome (string * option error) :=
  let request :=
    {| EventType := "get_property"; Property := property; Value := "" |} in
  let w := Send request w in
  match sendErr with
  | Some err => Returned ("", Some err) w events
  | None =>
      getSdrconnectProperty_loop property events
        (SetReadDeadline (DeadlineIn waitGetProperty) w)
  end.

Definition setCenterFrequency (loFreq : Z)
    (sendErr : option error) (events : list Event) (w : World)
  : Outcome (option error) :=
  let request :=
    {| EventType := "set_property"; Property := "device_center_frequency";
       Value := FormatUint loFreq |} in
  let w := Send request w in
  match sendErr with
  | Some err => Returned (Some err) w events
  | None =>
      match receiveMessages (Some pattern_CV) waitSetCenterFrequency events w with
      | Returned (Some err) w rest => Returned (Some err) w rest
      | Returned None w rest =>
          let actual := Settings.DeviceCenterFrequency (sdrconnectSettings w) in
          if negb (actual =? loFreq)
          then Returned (Some (Errorf ("error setting center frequency - requested: "
                                       +:+ FormatUint loFreq +:+ " - actual: "
                                       +:+ FormatUint actual))) w rest
          else Returned None w rest
      | Waiting w => Waiting w
      end
  end.

Definition setVFOFrequencyAndGetSignalStats (freq : Z) (detectTime : Duration)
    (sendErr : option error) (events : list Event) (w : World)
  : Outcome (option error) :=
  let request :=
    {| EventType := "set_property"; Property := "device_vfo_frequency";
       Value := FormatUint freq |} in
  let w := Send request w in
  match sendErr with
  | Some err => Returned (Some err) w events
  | None =>
      match receiveMessages None detectTime events w with
      | Returned (Some err) w rest => Returned (Some err) w rest
      | Returned None w rest =>
          let actual := Settings.DeviceVFOFrequency (sdrconnectSettings w) in
          if negb (actual =? freq)
          then Returned (Some (Errorf ("error setting VFO frequency - requested: "
                                       +:+ FormatUint freq +:+ " - actual: "
                                       +:+ FormatUint actual))) w rest
          else Returned None w rest
      | Waiting w => Waiting w
      end
  end.

(* ================================================================== *)
(** ** Selecting the device *)
(* ================================================================== *)

Definition selectSdrconnectDeviceByName (device_name : string)
    (sendErr : option error) (events : list Event) (w : World)
  : Outcome (option error) :=
  let request :=
    {| EventType := "selected_device_name"; Property := ""; Value := device_name |} in
  let w := Send request w in
  match sendErr with
  | Some err => Returned (Some err) w events
  | None => receiveMessages None waitSelectDevice events w
  end.

Definition selectSdrconnectDeviceBySerial (device_serial : string)
    (sendErr : option error) (events : list Event) (w : World)
  : Outcome (option error) :=
  let request :=
    {| EventType := "selected_device_serial"; Property := ""; Value := device_serial |} in
  let w := Send request w in
  match sendErr with
  | Some err => Returned (Some err) w events
  | None => receiveMessages None waitSelectDevice events w
  end.

Definition applySdrconnectProfile (profile : string)
    (sendErr : option error) (events : list Event) (w : World)
  : Outcome (option error) :=
  let request :=
    {| EventType := "apply_device_profile"; Property := ""; Value := profile |} in
  let w := Send request w in
  match sendErr with
  | Some err => Returned (Some err) w events
  | None => receiveMessages None waitApplyProfile events w
  end.

(* ================================================================== *)
(** ** Running a scan *)
(* ================================================================== *)

(** The body of the loop of [runScan] for the items of the plan; [labels]
    is the global label map, [log] the lines handed to [log.Println] so
    far.  A panic of the generator is reported when the loop asks for the
    next item. *)
Fixpoint runScan_loop (scan : Scan.t) (sends : SendScript) (labels : gmap Z string)
    (items : list FrequencyAndLOFrequency.t) (ending : ChannelEnd)
    (events : list Event) (log : list string) (w : World) : ScanOutcome :=
  match items with
  | [] =>
      match ending with
      | ChanClosed => ScanReturned None log w events
      | ChanOpen => ScanGeneratorOpen log w events
      | ChanPanic => ScanPanic
      end
  | freqAndLOFreq :: items' =>
      let loFreq := FrequencyAndLOFrequency.loFrequency freqAndLOFreq in
      let retuned :=
        if negb (loFreq =? 0) &&
           negb (loFreq =? Settings.DeviceCenterFrequency (sdrconnectSettings w))
        then setCenterFrequency loFreq (nextSend sends w) events w
        else Returned None w events in
      match retuned with
      | Waiting w => ScanWaiting log w
      | Returned (Some err) w rest => ScanReturned (Some err) log w rest
      | Returned None w events =>
          let w := with_stats clearStats w in
          let freq := FrequencyAndLOFrequency.frequency freqAndLOFreq in
          match setVFOFrequencyAndGetSignalStats freq (Scan.DetectTime scan)
                  (nextSend sends w) events w with
          | Waiting w => ScanWaiting log w
          | Returned (Some err) w rest => ScanReturned (Some err) log w rest
          | Returned None w events =>
              match detectSignal (receiveStats w) scan with
              | None => ScanPanic
              | Some false => runScan_loop scan sends labels items' ending events log w
              | Some true =>
                  match showStats labels "detect" w with
                  | None => ScanPanic
                  | Some line =>
                      let log := log ++ [line] in
                      match receiveMessages None (Scan.ListenTime scan) events w with
                      | Waiting w => ScanWaiting log w
                      | Returned (Some err) w rest => ScanReturned (Some err) log w rest
                      | Returned None w events =>
                          let extra :=
                            if (0 <? Z.of_nat (length (rdsPI (receiveStats w)))) &&
                               (0 <? Scan.ListenExtraTimeRDS scan)
                            then receiveMessages None (Scan.ListenExtraTimeRDS scan)
                                   events w
                            else Returned None w events in
                          match extra with
                          | Waiting w => ScanWaiting log w
                          | Returned (Some err) w rest =>
                              ScanReturned (Some err) log w rest
                          | Returned None w events =>
                              match showStats labels "listen" w with
                              | None => ScanPanic
                              | Some line =>
                                  runScan_loop scan sends labels items' ending events
                                    (log ++ [line]) w
                              end
                          end
                      end
                  end
              end
          end
      end
  end.


(* ================================================================== *)
(** ** Reading the settings of the receiver and initialising a scan *)
(* ================================================================== *)

Section Startup.

(** The error [strconv.ParseFloat(s, 64)] returns beside its value. *)
Variable ParseFloat_err : string -> option error.

(** [strconv.FormatFloat(x, 'f', -1, 64)] *)
Variable FormatFloat : float64 -> string.

(** One block of [getSdrconnectSettings]: get [property], store what
    [store] makes of the answer in the local [settings], and go on with
    [next] unless there was an error. *)
Definition getSetting (property : string) (sends : SendScript)
    (store : string -> Settings.t -> Settings.t * option error)
    (next : Settings.t -> list Event -> World -> Outcome (Settings.t * option error))
    (settings : Settings.t) (events : list Event) (w : World)
  : Outcome (Settings.t * option error) :=
  match getSdrconnectProperty property (nextSend sends w) events w with
  | Waiting w => Waiting w
  | Returned (_, Some err) w rest => Returned (settings, Some err) w rest
  | Returned (result, None) w rest =>
      let '(settings, err) := store result settings in
      match err with
      | Some e => Returned (settings, Some e) w rest
      | None => next settings rest w
      end
  end.

(** The assignments of [getSdrconnectSettings] and [initScan]: a field
    assigned straight from a call is written whatever the error; one that
    goes through a local variable is written after the error test. *)
Definition store_SampleRate (result : string) (s : Settings.t)
  : Settings.t * option error :=
  (SettingsUpdate.SampleRate (ParseFloat result) s, ParseFloat_err result).

Definition store_FilterBandwidth (result : string) (s : Settings.t)
  : Settings.t * option error :=
  match ParseUint result 10 32 with
  | (_, Some e) => (s, Some e)
  | (filterBandwidth, None) =>
      (SettingsUpdate.FilterBandwidth (uint32 filterBandwidth) s, None)
  end.

Definition store_Demodulator (result : string) (s : Settings.t)
  : Settings.t * option error :=
  (SettingsUpdate.Demodulator (ParseDemodulatorMode result).1 s,
   (ParseDemodulatorMode result).2).

Definition store_LNAState (result : string) (s : Settings.t)
  : Settings.t * option error :=
  match ParseUint result 10 32 with
  | (_, Some e) => (s, Some e)
  | (lnaState, None) => (SettingsUpdate.LNAState (uint32 lnaState) s, None)
  end.

Definition store_SquelchEnable (result : string) (s : Settings.t)
  : Settings.t * option error :=
  (SettingsUpdate.SquelchEnable (ParseBool result).1 s, (ParseBool result).2).

Definition store_SquelchThreshold (result : string) (s : Settings.t)
  : Settings.t * option error :=
  (SettingsUpdate.SquelchThreshold (ParseFloat result) s, ParseFloat_err result).

Definition store_AGCEnable (result : string) (s : Settings.t)
  : Settings.t * option error :=
  (SettingsUpdate.AGCEnable (ParseBool result).1 s, (ParseBool result).2).

Definition store_AGCThreshold (result : string) (s : Settings.t)
  : Settings.t * option error :=
  (SettingsUpdate.AGCThreshold (ParseFloat result) s, ParseFloat_err result).

(** [getSdrconnectSettings]: [(settings, err)]; the global settings are
    assigned by the caller. *)
Definition getSdrconnectSettings (sends : SendScript) (events : list Event) (w : World)
  : Outcome (Settings.t * option error) :=
  getSetting "device_sample_rate" sends store_SampleRate
    (getSetting "filter_bandwidth" sends store_FilterBandwidth
       (getSetting "demodulator" sends store_Demodulator
          (getSetting "lna_state" sends store_LNAState
             (getSetting "squelch_enable" sends store_SquelchEnable
                (getSetting "squelch_threshold" sends store_SquelchThreshold
                   (getSetting "agc_enable" sends store_AGCEnable
                      (getSetting "agc_threshold" sends store_AGCThreshold
                         (fun settings rest w => Returned (settings, None) w rest))))))))
    zeroSettings events w.

(** A block of [initScan]: it returns an error, or nil and the function
    goes on. *)
Definition InitStep : Type := list Event -> World -> Outcome (option error).

Definition andThen (a b : InitStep) : InitStep := fun events w =>
  match a events w with
  | Returned None w rest => b rest w
  | o => o
  end.

Definition skip : InitStep := fun events w => Returned None w events.

(** Set [property] and, without an error, store in the global settings
    what [store] makes of the actual value. *)
Definition setThen (property value : string) (sends : SendScript)
    (store : string -> Settings.t -> Settings.t * option error) : InitStep :=
  fun events w =>
    match setSdrconnectProperty property value (nextSend sends w) events w with
    | Waiting w => Waiting w
    | Returned (_, _, Some err) w rest => Returned (Some err) w rest
    | Returned (actual, _, None) w rest =>
        let '(settings, err) := store actual (sdrconnectSettings w) in
        Returned err (with_settings settings w) rest
    end.

Definition getThen (property : string) (sends : SendScript)
    (store : string -> Settings.t -> Settings.t * option error) : InitStep :=
  fun events w =>
    match getSdrconnectProperty property (nextSend sends w) events w with
    | Waiting w => Waiting w
    | Returned (_, Some err) w rest => Returned (Some err) w rest
    | Returned (result, None) w rest =>
        let '(settings, err) := store result (sdrconnectSettings w) in
        Returned err (with_settings settings w) rest
    end.

(** Run a call that returns an error only and, without one, update the
    global settings. *)
Definition callThen (call : option error -> list Event -> World -> Outcome (option error))
    (sends : SendScript) (update : Settings.t -> Settings.t) : InitStep :=
  fun events w =>
    match call (nextSend sends w) events w with
    | Returned None w rest =>
        Returned None (with_settings (update (sdrconnectSettings w)) w) rest
    | o => o
    end.

Definition initScan_device (scan : Scan.t) (sends : SendScript) : InitStep :=
  fun events w =>
    if negb (String.eqb (Scan.DeviceName scan) "") then
      if negb (String.eqb (Scan.DeviceName scan)
                          (Settings.DeviceName (sdrconnectSettings w)))
      then callThen (selectSdrconnectDeviceByName (Scan.DeviceName scan)) sends
             (SettingsSelect.DeviceName (Scan.DeviceName scan)) events w
      else skip events w
    else if negb (String.eqb (Scan.DeviceSerial scan) "") then
      if negb (String.eqb (Scan.DeviceSerial scan)
                          (Settings.DeviceSerial (sdrconnectSettings w)))
      then callThen (selectSdrconnectDeviceBySerial (Scan.DeviceSerial scan)) sends
             (SettingsSelect.DeviceSerial (Scan.DeviceSerial scan)) events w
      else skip events w
    else skip events w.

Definition initScan_profile (scan : Scan.t) (sends : SendScript) : InitStep :=
  fun events w =>
    if negb (String.eqb (Scan.Profile scan) (Settings.Profile (sdrconnectSettings w)))
    then callThen (applySdrconnectProfile (Scan.Profile scan)) sends
           (SettingsSelect.Profile (Scan.Profile scan)) events w
    else skip events w.

Definition initScan_sampleRate (scan : Scan.t) (sends : SendScript) : InitStep :=
  fun events w =>
    if f64_ne (Scan.SampleRate scan) f64_zero &&
       f64_ne (Scan.SampleRate scan) (Settings.SampleRate (sdrconnectSettings w))
    then setThen "device_sample_rate" (FormatFloat (Scan.SampleRate scan)) sends
           store_SampleRate events w
    else skip events w.

Definition initScan_demodulator (scan : Scan.t) (sends : SendScript) : InitStep :=
  fun events w =>
    if negb (bool_decide (Scan.Demodulator scan = DemodulatorUnknown)) &&
       negb (bool_decide (Scan.Demodulator scan =
                          Settings.Demodulator (sdrconnectSettings w)))
    then setThen "demodulator" (DemodulatorMode_String (Scan.Demodulator scan)) sends
           store_Demodulator events w
    else skip events w.

Definition initScan_lnaState (scan : Scan.t) (sends : SendScript) : InitStep :=
  fun events w =>
    if Scan.LNAStateSet scan &&
       negb (Scan.LNAState scan =? Settings.LNAState (sdrconnectSettings w))
    then setThen "lna_state" (FormatUint (Scan.LNAState scan)) sends
           (fun _ s => (SettingsUpdate.LNAState (Scan.LNAState scan) s, None)) events w
    else skip events w.

Definition initScan_squelch (scan : Scan.t) (sends : SendScript) : InitStep :=
  if Scan.SquelchEnable scan then
    andThen
      (fun events w =>
         if negb (Bool.eqb (Scan.SquelchEnable scan)
                           (Settings.SquelchEnable (sdrconnectSettings w)))
         then setThen "squelch_enable" "true" sends
                (fun _ s => (SettingsUpdate.SquelchEnable (Scan.SquelchEnable scan) s,
                             None)) events w
         else skip events w)
      (fun events w =>
         if f64_ne (Scan.SquelchThreshold scan)
                   (Settings.SquelchThreshold (sdrconnectSettings w))
         then setThen "squelch_threshold" (FormatFloat (Scan.SquelchThreshold scan)) sends
                (fun _ s => (SettingsUpdate.SquelchThreshold (Scan.SquelchThreshold scan) s,
                             None)) events w
         else skip events w)
  else skip.

Definition initScan_agc (scan : Scan.t) (sends : SendScript) : InitStep :=
  if Scan.AGCEnable scan then
    andThen
      (fun events w =>
         if negb (Bool.eqb (Scan.AGCEnable scan)
                           (Settings.AGCEnable (sdrconnectSettings w)))
         then setThen "agc_enable" "true" sends
                (fun _ s => (SettingsUpdate.AGCEnable (Scan.AGCEnable scan) s, None))
                events w
         else skip events w)
      (fun events w =>
         if f64_ne (Scan.AGCThreshold scan)
                   (Settings.AGCThreshold (sdrconnectSettings w))
         then setThen "agc_threshold" (FormatFloat (Scan.AGCThreshold scan)) sends
                (fun _ s => (SettingsUpdate.AGCThreshold (Scan.AGCThreshold scan) s,
                             None)) events w
         else skip events w)
  else skip.

(** "make sure we know the current sample rate and filter bandwidth" *)
Definition initScan_knownSampleRate (sends : SendScript) : InitStep :=
  fun events w =>
    if f64_eq (Settings.SampleRate (sdrconnectSettings w)) f64_zero
    then getThen "device_sample_rate" sends store_SampleRate events w
    else skip events w.

Definition initScan_knownFilterBandwidth (sends : SendScript) : InitStep :=
  fun events w =>
    if Settings.FilterBandwidth (sdrconnectSettings w) =? 0
    then getThen "filter_bandwidth" sends store_FilterBandwidth events w
    else skip events w.

(** The requests of [initScan], up to the planning of the LO spans. *)
Definition initScan_requests (scan : Scan.t) (sends : SendScript) : InitStep :=
  andThen (initScan_device scan sends)
    (andThen (initScan_profile scan sends)
       (andThen (initScan_sampleRate scan sends)
          (andThen (initScan_demodulator scan sends)
             (andThen (initScan_lnaState scan sends)
                (andThen (initScan_squelch scan sends)
                   (andThen (initScan_agc scan sends)
                      (andThen (initScan_knownSampleRate sends)
                         (initScan_knownFilterBandwidth sends)))))))).

Definition initScan (fuel : nat) (scan : Scan.t) (sends : SendScript)
    (events : list Event) (w : World) : InitOutcome :=
  match initScan_requests scan sends events w with
  | Waiting w => InitWaiting w
  | Returned (Some err) w rest => InitReturned (Some err) scan w rest
  | Returned None w rest =>
      match Scan.LOSpans scan with
      | Some _ => InitReturned None scan w rest
      | None =>
          match getLOSpans fuel (sdrconnectSettings w) scan with
          | Some loSpans => InitReturned None (set_LOSpans (Some loSpans) scan) w rest
          | None => InitPlanning w rest
          end
      end
  end.

End Startup.

(* ================================================================ *)
(** ** Machine integers *)
(* ================================================================ *)

Lemma to_uint_small w z : 0 <= z < 2 ^ w -> to_uint w z = z.
Proof. intros H. unfold to_uint. apply Z.mod_small. exact H. Qed.

Lemma to_uint_range w z : 0 < w -> 0 <= to_uint w z < 2 ^ w.
Proof.
  intros Hw. unfold to_uint. apply Z.mod_pos_bound.
  apply Z.pow_pos_nonneg; lia.
Qed.

Lemma uint64_small z : 0 <= z < 2 ^ 64 -> uint64 z = z.
Proof. apply to_uint_small. Qed.

Lemma uint32_small z : 0 <= z < 2 ^ 32 -> uint32 z = z.
Proof. apply to_uint_small. Qed.

Lemma uint64_range z : 0 <= uint64 z < 2 ^ 64.
Proof. apply to_uint_range. lia. Qed.

Lemma uint32_range z : 0 <= uint32 z < 2 ^ 32.
Proof. apply to_uint_range. lia. Qed.

Lemma int64_small z : - 2 ^ 63 <= z < 2 ^ 63 -> int64 z = z.
Proof.
  intros H. unfold int64, to_int.
  change (2 ^ (64 - 1)) with (2 ^ 63).
  rewrite Z.mod_small; lia.
Qed.

Lemma int32_small z : - 2 ^ 31 <= z < 2 ^ 31 -> int32 z = z.
Proof.
  intros H. unfold int32, to_int.
  change (2 ^ (32 - 1)) with (2 ^ 31).
  rewrite Z.mod_small; lia.
Qed.

(** A signed reinterpretation does not change the low 64 bits. *)
Lemma uint64_int64 z : uint64 (int64 z) = uint64 z.
Proof.
  unfold uint64, int64, to_uint, to_int.
  change (2 ^ (64 - 1)) with (2 ^ 63).
  rewrite (Z.mod_eq (z + 2 ^ 63) (2 ^ 64)) by lia.
  replace (z + 2 ^ 63 - 2 ^ 64 * ((z + 2 ^ 63) / 2 ^ 64) - 2 ^ 63)
    with (z + (- ((z + 2 ^ 63) / 2 ^ 64)) * 2 ^ 64) by ring.
  apply Z_mod_plus_full.
Qed.




(* ================================================================ *)
(** ** IF bandwidth *)
(* ================================================================ *)

Lemma float64_to_uint32_range x : 0 <= float64_to_uint32 x < 2 ^ 32.
Proof.
  unfold float64_to_uint32.
  destruct (f64_trunc x) as [z|]; [|apply uint32_range].
  destruct (0 <=? z) eqn:H0; destruct (z <? 2 ^ 32) eqn:H1; simpl;
    try apply uint32_range.
  apply Z.leb_le in H0. apply Z.ltb_lt in H1. lia.
Qed.

Ltac split_ltb :=
  repeat match goal with
         | |- context [?a <? ?b] => destruct (Z.ltb_spec a b); try lia
         | |- context [?a <=? ?b] => destruct (Z.leb_spec a b); try lia
         end.

(** The loop of [getIFBandwidth] returns the last bucket that does not
    exceed the rate, in Hz. *)
Lemma getIFBandwidth_loop_largest rate :
  getIFBandwidth_loop rate 200 bandwidthskHz = largest_bucket_at_most rate * 1000.
Proof.
  unfold largest_bucket_at_most, bandwidthskHz.
  cbn [List.filter getIFBandwidth_loop].
  split_ltb; reflexivity.
Qed.

(** [largest_bucket_at_most] is what its name says. *)
Lemma largest_bucket_at_most_spec rate :
  In (largest_bucket_at_most rate) bandwidthskHz /\
  (rate < 200 -> largest_bucket_at_most rate = 200) /\
  (200 <= rate ->
   largest_bucket_at_most rate <= rate /\
   forall b, In b bandwidthskHz -> b <= rate -> b <= largest_bucket_at_most rate).
Proof.
  unfold largest_bucket_at_most, bandwidthskHz.
  cbn [List.filter].
  split_ltb; cbn [List.last In]; (split; [tauto|]); (split; [lia|]);
    intros Hge; try lia; (split; [lia|]); intros b Hb Hle; intuition lia.
Qed.

(** C2, as the code has it: for every sample rate, [getIFBandwidth] maps
    the rate [uint32(sampleRate / 1000)] through the ordered breakpoints
    200/300/600/1536/5000/6000/7000/8000 kHz to the last bucket that does
    not exceed the rate (the bucket just before the first one whose
    threshold exceeds it), to the first bucket when the rate is below
    200, and to the last bucket when no threshold exceeds the rate; the
    result is the bucket times 1000. *)
Theorem getIFBandwidth_largest_bucket_at_most (sampleRate : float64) :
  let rate := float64_to_uint32 (f64_div sampleRate (float64_of_Z 1000)) in
  getIFBandwidth sampleRate = largest_bucket_at_most rate * 1000 /\
  In (largest_bucket_at_most rate) bandwidthskHz /\
  (rate < 200 -> largest_bucket_at_most rate = 200) /\
  (200 <= rate ->
   largest_bucket_at_most rate <= rate /\
   forall b, In b bandwidthskHz -> b <= rate -> b <= largest_bucket_at_most rate).
Proof.
  intros rate. split; [|apply largest_bucket_at_most_spec].
  unfold getIFBandwidth.
  change (nth 0 bandwidthskHz 0) with 200.
  apply getIFBandwidth_loop_largest.
Qed.

Lemma getIFBandwidth_range sampleRate :
  200000 <= getIFBandwidth sampleRate <= 8000000.
Proof.
  unfold getIFBandwidth. change (nth 0 bandwidthskHz 0) with 200.
  rewrite getIFBandwidth_loop_largest.
  destruct (largest_bucket_at_most_spec
              (float64_to_uint32 (f64_div sampleRate (float64_of_Z 1000))))
    as [Hin _].
  unfold bandwidthskHz in Hin. cbn [In] in Hin. intuition lia.
Qed.

(* ================================================================ *)
(** ** Frequency plans *)
(* ================================================================ *)

Lemma ascending_cons start stop step :
  0 < step -> start <= stop ->
  ascending start stop step = start :: ascending (start + step) stop step.
Proof.
  intros Hstep Hle. unfold ascending.
  replace (stop - start) with ((stop - (start + step)) + 1 * step) by ring.
  rewrite Z.div_add by lia.
  assert (Hq : 0 <= (stop - (start + step)) / step + 1).
  { assert (- 1 <= (stop - (start + step)) / step); [|lia].
    apply Z.div_le_lower_bound; lia. }
  replace (Z.to_nat ((stop - (start + step)) / step + 1 + 1))
    with (S (Z.to_nat ((stop - (start + step)) / step + 1))) by lia.
  cbn [seq map]. f_equal; [lia|].
  rewrite <- seq_shift, map_map.
  apply map_ext. intros k. lia.
Qed.

Lemma ascending_nil start stop step :
  0 < step -> stop < start -> ascending start stop step = [].
Proof.
  intros Hstep Hlt. unfold ascending.
  assert ((stop - start) / step < 0) by (apply Z.div_lt_upper_bound; lia).
  replace (Z.to_nat ((stop - start) / step + 1)) with O by lia.
  reflexivity.
Qed.

Lemma descending_cons start stop step :
  0 < step -> stop <= start ->
  descending start stop step = start :: descending (start - step) stop step.
Proof.
  intros Hstep Hle. unfold descending.
  replace (start - stop) with ((start - step - stop) + 1 * step) by ring.
  rewrite Z.div_add by lia.
  assert (Hq : 0 <= (start - step - stop) / step + 1).
  { assert (- 1 <= (start - step - stop) / step); [|lia].
    apply Z.div_le_lower_bound; lia. }
  replace (Z.to_nat ((start - step - stop) / step + 1 + 1))
    with (S (Z.to_nat ((start - step - stop) / step + 1))) by lia.
  cbn [seq map]. f_equal; [lia|].
  rewrite <- seq_shift, map_map.
  apply map_ext. intros k. lia.
Qed.

Lemma descending_nil start stop step :
  0 < step -> start < stop -> descending start stop step = [].
Proof.
  intros Hstep Hlt. unfold descending.
  assert ((start - stop) / step < 0) by (apply Z.div_lt_upper_bound; lia).
  replace (Z.to_nat ((start - stop) / step + 1)) with O by lia.
  reflexivity.
Qed.

(** Where adding the step never passes 2^64, a generator given enough
    fuel sends the ascending sequence and closes. *)
Lemma rangeUp_ascending stop step :
  0 < step -> stop + step < 2 ^ 64 ->
  forall n fuel start idx,
    0 <= start -> length (ascending start stop step) = n -> (n <= fuel)%nat ->
    exists plan,
      rangeUp fuel start stop step idx = (plan, true) /\
      map frequency plan = ascending start stop step.
Proof.
  intros Hstep Hmax. induction n as [|n IH]; intros fuel start idx H0 Hlen Hfuel.
  - destruct (Z.leb_spec start stop) as [Hle|Hgt].
    + rewrite ascending_cons in Hlen by lia. discriminate.
    + exists []. rewrite ascending_nil by lia.
      destruct fuel; cbn [rangeUp];
        (destruct (Z.leb_spec start stop); [lia|]); split; reflexivity.
  - destruct (Z.leb_spec start stop) as [Hle|Hgt].
    2:{ rewrite ascending_nil in Hlen by lia. discriminate. }
    rewrite ascending_cons in Hlen |- * by lia.
    destruct fuel as [|fuel]; [lia|].
    cbn [rangeUp]. destruct (Z.leb_spec start stop); [|lia].
    rewrite uint64_small by lia.
    destruct (IH fuel (start + step) (int64 (idx + 1))) as (plan & Hrun & Hfreq);
      [lia| cbn [length] in Hlen; lia | lia |].
    rewrite Hrun. eexists. split; [reflexivity|].
    cbn [map frequency]. rewrite Hfreq. reflexivity.
Qed.

(** Likewise downwards, where subtracting the step never passes 0. *)
Lemma rangeDown_descending stop step :
  0 < step -> step <= stop ->
  forall n fuel start idx,
    start < 2 ^ 64 -> length (descending start stop step) = n -> (n <= fuel)%nat ->
    exists plan,
      rangeDown fuel start stop step idx = (plan, true) /\
      map frequency plan = descending start stop step.
Proof.
  intros Hstep Hmin. induction n as [|n IH]; intros fuel start idx H0 Hlen Hfuel.
  - destruct (Z.leb_spec stop start) as [Hle|Hgt].
    + rewrite descending_cons in Hlen by lia. discriminate.
    + exists []. rewrite descending_nil by lia.
      destruct fuel; cbn [rangeDown];
        (destruct (Z.leb_spec stop start); [lia|]); split; reflexivity.
  - destruct (Z.leb_spec stop start) as [Hle|Hgt].
    2:{ rewrite descending_nil in Hlen by lia. discriminate. }
    rewrite descending_cons in Hlen |- * by lia.
    destruct fuel as [|fuel]; [lia|].
    cbn [rangeDown]. destruct (Z.leb_spec stop start); [|lia].
    rewrite uint64_small by lia.
    destruct (IH fuel (start - step) (int64 (idx + 1))) as (plan & Hrun & Hfreq);
      [lia| cbn [length] in Hlen; lia | lia |].
    rewrite Hrun. eexists. split; [reflexivity|].
    cbn [map frequency]. rewrite Hfreq. reflexivity.
Qed.

Lemma well_indexed_nil idx : well_indexed idx [].
Proof. split; [constructor|]. intros i x H. discriminate. Qed.

Lemma well_indexed_cons idx x plan :
  is_uint 64 (frequency x) -> index x = idx ->
  (plan <> [] -> well_indexed (idx + 1) plan) ->
  well_indexed idx (x :: plan).
Proof.
  intros Hx Hidx Hrest.
  destruct plan as [|y plan].
  - split; [constructor; [exact Hx|constructor]|].
    intros [|i] z Hz; cbn in Hz; [|discriminate].
    injection Hz as <-. lia.
  - destruct Hrest as [Hall Hi]; [discriminate|].
    split; [constructor; assumption|].
    intros [|i] z Hz; cbn in Hz.
    + injection Hz as <-. lia.
    + apply Hi in Hz. lia.
Qed.

Lemma rangeUp_well_indexed stop step :
  forall fuel freq idx plan closed,
    rangeUp fuel freq stop step idx = (plan, closed) ->
    is_uint 64 freq -> 0 <= idx -> idx + Z.of_nat (length plan) <= 2 ^ 63 ->
    well_indexed idx plan.
Proof.
  induction fuel as [|fuel IH]; intros freq idx plan closed Hrun Hfreq Hidx Hlen;
    cbn [rangeUp] in Hrun; destruct (freq <=? stop);
    try (injection Hrun as <- <-; apply well_indexed_nil).
  destruct (rangeUp fuel (uint64 (freq + step)) stop step (int64 (idx + 1)))
    as [sent c] eqn:Hrec.
  injection Hrun as <- <-. cbn [length] in Hlen.
  apply well_indexed_cons; [exact Hfreq|reflexivity|].
  intros Hne.
  assert (0 < Z.of_nat (length sent)) by (destruct sent; [congruence|cbn; lia]).
  rewrite int64_small in Hrec by lia.
  apply (IH _ _ _ _ Hrec); [apply uint64_range|lia|lia].
Qed.

Lemma rangeDown_well_indexed stop step :
  forall fuel freq idx plan closed,
    rangeDown fuel freq stop step idx = (plan, closed) ->
    is_uint 64 freq -> 0 <= idx -> idx + Z.of_nat (length plan) <= 2 ^ 63 ->
    well_indexed idx plan.
Proof.
  induction fuel as [|fuel IH]; intros freq idx plan closed Hrun Hfreq Hidx Hlen;
    cbn [rangeDown] in Hrun; destruct (stop <=? freq);
    try (injection Hrun as <- <-; apply well_indexed_nil).
  destruct (rangeDown fuel (uint64 (freq - step)) stop step (int64 (idx + 1)))
    as [sent c] eqn:Hrec.
  injection Hrun as <- <-. cbn [length] in Hlen.
  apply well_indexed_cons; [exact Hfreq|reflexivity|].
  intros Hne.
  assert (0 < Z.of_nat (length sent)) by (destruct sent; [congruence|cbn; lia]).
  rewrite int64_small in Hrec by lia.
  apply (IH _ _ _ _ Hrec); [apply uint64_range|lia|lia].
Qed.

Lemma rangeList_well_indexed :
  forall fuel l idx plan closed,
    rangeList fuel l idx = (plan, closed) ->
    Forall (is_uint 64) l ->
    well_indexed idx plan.
Proof.
  induction fuel as [|fuel IH]; intros l idx plan closed Hrun Hl;
    destruct l as [|freq rest]; cbn [rangeList] in Hrun;
    try (injection Hrun as <- <-; apply well_indexed_nil).
  destruct (rangeList fuel rest (idx + 1)) as [sent c] eqn:Hrec.
  injection Hrun as <- <-.
  inversion Hl; subst.
  apply well_indexed_cons; [assumption|reflexivity|].
  intros _. apply (IH _ _ _ _ Hrec). assumption.
Qed.

(** A list plan is sent whole as soon as the fuel reaches its length. *)
Lemma rangeList_complete :
  forall l fuel idx, (length l <= fuel)%nat ->
    exists plan, rangeList fuel l idx = (plan, true) /\ map frequency plan = l.
Proof.
  induction l as [|freq rest IH]; intros fuel idx Hfuel.
  - exists []. destruct fuel; split; reflexivity.
  - destruct fuel as [|fuel]; [cbn in Hfuel; lia|].
    destruct (IH fuel (idx + 1)) as (plan & Hrun & Hfreq); [cbn in Hfuel; lia|].
    cbn [rangeList]. rewrite Hrun. eexists. split; [reflexivity|].
    cbn [map frequency]. rewrite Hfreq. reflexivity.
Qed.

Lemma generator_well_indexed fuel scan plan closed :
  Scan.wf scan ->
  getScanFrequenciesAndIndexes fuel scan = (plan, closed) ->
  Z.of_nat (length plan) <= 2 ^ 63 ->
  well_indexed 0 plan.
Proof.
  intros (Hstart & Hstop & Hstep & Hlist & _) Hrun Hlen.
  unfold getScanFrequenciesAndIndexes in Hrun.
  destruct (0 <? Scan.Step scan).
  - apply (rangeUp_well_indexed _ _ _ _ _ _ _ Hrun); [assumption|lia|lia].
  - destruct (Scan.Step scan <? 0).
    + apply (rangeDown_well_indexed _ _ _ _ _ _ _ Hrun); [assumption|lia|lia].
    + destruct (0 <? Z.of_nat (length (Scan.List scan))).
      * apply (rangeList_well_indexed _ _ _ _ _ Hrun). assumption.
      * injection Hrun as <- <-. apply well_indexed_nil.
Qed.

(** The ascending sequence starts at [start], goes up by [step], and its
    last element is at most [stop] and above [stop - step]. *)
Lemma ascending_spec start stop step :
  0 < step -> start <= stop ->
  ascending start stop step =
    map (fun k => start + Z.of_nat k * step)
        (seq 0 (S (Z.to_nat ((stop - start) / step)))) /\
  stop - step < start + (stop - start) / step * step <= stop.
Proof.
  intros Hstep Hle. split.
  - unfold ascending.
    assert (0 <= (stop - start) / step) by (apply Z.div_pos; lia).
    replace (Z.to_nat ((stop - start) / step + 1))
      with (S (Z.to_nat ((stop - start) / step))) by lia.
    reflexivity.
  - pose proof (Z.mod_pos_bound (stop - start) step Hstep) as Hmod.
    pose proof (Z.div_mod (stop - start) step ltac:(lia)) as Hdiv.
    lia.
Qed.

Lemma descending_spec start stop step :
  0 < step -> stop <= start ->
  descending start stop step =
    map (fun k => start - Z.of_nat k * step)
        (seq 0 (S (Z.to_nat ((start - stop) / step)))) /\
  stop <= start - (start - stop) / step * step < stop + step.
Proof.
  intros Hstep Hle. split.
  - unfold descending.
    assert (0 <= (start - stop) / step) by (apply Z.div_pos; lia).
    replace (Z.to_nat ((start - stop) / step + 1))
      with (S (Z.to_nat ((start - stop) / step))) by lia.
    reflexivity.
  - pose proof (Z.mod_pos_bound (start - stop) step Hstep) as Hmod.
    pose proof (Z.div_mod (start - stop) step ltac:(lia)) as Hdiv.
    lia.
Qed.

(** A range with a positive step whose stop is at least one step below
    2^64 yields the ascending sequence. *)
Lemma getScanFrequencies_ascending scan :
  Scan.wf scan -> 0 < Scan.Step scan ->
  Scan.Stop scan + Scan.Step scan < 2 ^ 64 ->
  exists plan,
    yields scan plan /\
    map frequency plan =
    ascending (Scan.Start scan) (Scan.Stop scan) (Scan.Step scan).
Proof.
  intros (Hstart & Hstop & Hstep & _) Hpos Hmax.
  unfold is_uint, is_int in *.
  destruct (rangeUp_ascending (Scan.Stop scan) (Scan.Step scan) Hpos Hmax
              (length (ascending (Scan.Start scan) (Scan.Stop scan) (Scan.Step scan)))
              (length (ascending (Scan.Start scan) (Scan.Stop scan) (Scan.Step scan)))
              (Scan.Start scan) 0 ltac:(lia) eq_refl ltac:(lia))
    as (plan & Hrun & Hfreq).
  exists plan. split; [|exact Hfreq].
  eexists. unfold getScanFrequenciesAndIndexes.
  destruct (Z.ltb_spec 0 (Scan.Step scan)); [|lia].
  rewrite uint64_small by lia. exact Hrun.
Qed.

(** A range with a negative step whose stop is at least one step above 0
    yields the descending sequence. *)
Lemma getScanFrequencies_descending scan :
  Scan.wf scan -> Scan.Step scan < 0 ->
  - Scan.Step scan <= Scan.Stop scan ->
  exists plan,
    yields scan plan /\
    map frequency plan =
    descending (Scan.Start scan) (Scan.Stop scan) (- Scan.Step scan).
Proof.
  intros (Hstart & Hstop & Hstep & _) Hneg Hmin.
  unfold is_uint, is_int in *. change (2 ^ (64 - 1)) with (2 ^ 63) in Hstep.
  destruct (rangeDown_descending (Scan.Stop scan) (- Scan.Step scan)
              ltac:(lia) Hmin
              (length (descending (Scan.Start scan) (Scan.Stop scan) (- Scan.Step scan)))
              (length (descending (Scan.Start scan) (Scan.Stop scan) (- Scan.Step scan)))
              (Scan.Start scan) 0 ltac:(lia) eq_refl ltac:(lia))
    as (plan & Hrun & Hfreq).
  exists plan. split; [|exact Hfreq].
  eexists. unfold getScanFrequenciesAndIndexes.
  destruct (Z.ltb_spec 0 (Scan.Step scan)); [lia|].
  destruct (Z.ltb_spec (Scan.Step scan) 0); [|lia].
  rewrite uint64_int64, uint64_small by lia. exact Hrun.
Qed.

(** A list is sent as it is. *)
Lemma getScanFrequencies_list scan :
  Scan.Step scan = 0 -> Scan.List scan <> [] ->
  exists plan, yields scan plan /\ map frequency plan = Scan.List scan.
Proof.
  intros Hstep Hne.
  destruct (rangeList_complete (Scan.List scan) (length (Scan.List scan)) 0
              ltac:(lia)) as (plan & Hrun & Hfreq).
  exists plan. split; [|exact Hfreq].
  exists (length (Scan.List scan)).
  unfold getScanFrequenciesAndIndexes. rewrite Hstep. cbn [Z.ltb Z.compare].
  destruct (Scan.List scan) as [|f l] eqn:Hl; [congruence|].
  cbn [length]. destruct (Z.ltb_spec 0 (Z.of_nat (S (length l)))); [|lia].
  exact Hrun.
Qed.

(* ================================================================ *)
(** ** LO span planner *)
(* ================================================================ *)

Lemma target_app_l pre l i :
  i < Z.of_nat (length pre) -> target (pre ++ l) i = target pre i.
Proof.
  intros Hi. unfold target. destruct (0 <=? i) eqn:H0; [|reflexivity].
  apply Z.leb_le in H0. rewrite lookup_app_l by lia. reflexivity.
Qed.

Lemma target_snoc pre x :
  target (pre ++ [x]) (Z.of_nat (length pre)) = Some (frequency x).
Proof.
  unfold target. destruct (Z.leb_spec 0 (Z.of_nat (length pre))); [|lia].
  rewrite Nat2Z.id, lookup_app_r by lia.
  rewrite Nat.sub_diag. reflexivity.
Qed.

Lemma target_Some plan i f :
  target plan i = Some f ->
  0 <= i < Z.of_nat (length plan) /\
  exists x, plan !! Z.to_nat i = Some x /\ frequency x = f.
Proof.
  unfold target. destruct (Z.leb_spec 0 i); [|discriminate].
  destruct (plan !! Z.to_nat i) as [x|] eqn:Hx; [|discriminate].
  cbn. intros [= <-]. apply lookup_lt_Some in Hx as Hlt.
  split; [lia|]. exists x. split; reflexivity.
Qed.

Lemma target_uint64 plan i f :
  Forall (fun x => is_uint 64 (frequency x)) plan ->
  target plan i = Some f -> 0 <= f < 2 ^ 64.
Proof.
  intros Hall Ht. apply target_Some in Ht as (_ & x & Hx & <-).
  rewrite Forall_forall in Hall. apply Hall.
  apply list_elem_of_lookup. eauto.
Qed.

Lemma window_app pre l a b lo hi :
  window pre a b lo hi -> window (pre ++ l) a b lo hi.
Proof.
  intros (Ha & Hab & Hb & (i & Hi & Hlo) & (j & Hj & Hhi) & Hall).
  repeat split; try lia.
  - rewrite length_app. lia.
  - exists i. split; [lia|]. rewrite target_app_l by lia. exact Hlo.
  - exists j. split; [lia|]. rewrite target_app_l by lia. exact Hhi.
  - apply (Hall i0); [lia|]. rewrite <- (target_app_l pre l) by lia. assumption.
  - apply (Hall i0); [lia|]. rewrite <- (target_app_l pre l) by lia. assumption.
Qed.

Lemma span_ok_app pre l maxDf LOOffset s :
  span_ok pre maxDf LOOffset s -> span_ok (pre ++ l) maxDf LOOffset s.
Proof.
  intros (lo & hi & Hw & Hdf & Hc). exists lo, hi.
  split; [apply window_app; exact Hw|]. split; assumption.
Qed.

Lemma covers_snoc s : forall spans a,
  covers a spans (LOSpan.from s - 1) -> LOSpan.from s <= LOSpan.to s ->
  covers a (spans ++ [s]) (LOSpan.to s).
Proof.
  induction spans as [|s0 spans IH]; intros a Hc Hle; cbn [covers app] in *.
  - repeat split; lia.
  - destruct Hc as (H1 & H2 & H3). repeat split; try assumption.
    apply IH; assumption.
Qed.

Lemma window_bounds plan a b lo hi :
  Forall (fun x => is_uint 64 (frequency x)) plan ->
  window plan a b lo hi -> 0 <= lo /\ lo <= hi /\ hi < 2 ^ 64.
Proof.
  intros Hall (Ha & Hab & Hb & (i & Hi & Hlo) & (j & Hj & Hhi) & Hin).
  pose proof (target_uint64 _ _ _ Hall Hlo).
  pose proof (target_uint64 _ _ _ Hall Hhi).
  pose proof (Hin i lo Hi Hlo). lia.
Qed.

(** The first item opens the first span. *)
Lemma walk_first maxDf LOOffset x :
  0 <= maxDf -> is_uint 64 (frequency x) -> index x = 0 ->
  walk_inv maxDf LOOffset [x] (getLOSpans_step maxDf LOOffset getLOSpans_init x).
Proof.
  intros HmaxDf [Hx0 Hx1] Hidx.
  unfold getLOSpans_step, getLOSpans_init, MaxUint64.
  cbn [fmin fmax flo idxFrom idxTo loSpans].
  rewrite Z.min_r, Z.max_r by lia.
  rewrite Z.sub_diag.
  change (uint64 0) with 0.
  destruct (Z.ltb_spec maxDf 0); [lia|].
  unfold walk_inv. cbn [fmin fmax flo idxFrom idxTo loSpans covers length].
  rewrite Hidx.
  split; [lia|]. split; [lia|].
  split; [|split; [lia|split; [reflexivity|constructor]]].
  unfold window. cbn [length].
  split; [lia|]. split; [lia|]. split; [lia|].
  split; [exists 0; split; [lia|reflexivity]|].
  split; [exists 0; split; [lia|reflexivity]|].
  intros k f Hk Hf. assert (k = 0) by lia. subst k.
  cbn in Hf. injection Hf as <-. lia.
Qed.

(** Every further item either extends the open span or closes it. *)
Lemma walk_step maxDf LOOffset pre st x :
  Forall (fun y => is_uint 64 (frequency y)) pre ->
  is_uint 64 (frequency x) -> index x = Z.of_nat (length pre) ->
  walk_inv maxDf LOOffset pre st ->
  walk_inv maxDf LOOffset (pre ++ [x]) (getLOSpans_step maxDf LOOffset st x).
Proof.
  intros Hpre [Hx0 Hx1] Hidx (Hcov & Hto & Hwin & Hdf & Hflo & Hspans).
  pose proof (window_bounds _ _ _ _ _ Hpre Hwin) as (Hlo0 & Hlohi & Hhi).
  pose proof (target_snoc pre x) as Hlast.
  pose proof (window_app _ [x] _ _ _ _ Hwin) as Hwin'.
  destruct Hwin as (Ha & Hab & Hb & (i & Hi & Hlo) & (j & Hj & Hhi') & Hin).
  unfold getLOSpans_step.
  rewrite (uint64_small (Z.max (fmax st) (frequency x) - Z.min (fmin st) (frequency x)))
    by lia.
  destruct (Z.ltb_spec maxDf
              (Z.max (fmax st) (frequency x) - Z.min (fmin st) (frequency x)))
    as [Hcut|Hkeep];
    unfold walk_inv; cbn [fmin fmax flo idxFrom idxTo loSpans].
  - (* the open span is closed and the item opens the next one *)
    rewrite length_app. cbn [length]. rewrite Hidx.
    split.
    { replace (Z.of_nat (length pre) - 1) with
        (LOSpan.to {| LOSpan.from := idxFrom st; LOSpan.to := idxTo st;
               LOSpan.frequency := lo_center (flo st) LOOffset |})
        by (cbn; lia).
      apply covers_snoc; cbn [LOSpan.from LOSpan.to]; [exact Hcov|lia]. }
    split; [lia|].
    split.
    { unfold window. rewrite length_app. cbn [length].
      split; [lia|]. split; [lia|]. split; [lia|].
      split; [exists (Z.of_nat (length pre)); split; [lia|exact Hlast]|].
      split; [exists (Z.of_nat (length pre)); split; [lia|exact Hlast]|].
      intros k f Hk Hf. assert (k = Z.of_nat (length pre)) by lia. subst k.
      assert (f = frequency x) by congruence. lia. }
    split; [lia|]. split; [reflexivity|].
    apply Forall_app. split.
    + eapply Forall_impl; [exact Hspans|].
      intros s Hs. apply span_ok_app. exact Hs.
    + constructor; [|constructor].
      exists (fmin st), (fmax st). cbn [LOSpan.from LOSpan.to LOSpan.frequency].
      split; [exact Hwin'|]. split; [lia|]. rewrite Hflo. reflexivity.
  - (* the item joins the open span *)
    rewrite length_app. cbn [length]. rewrite Hidx.
    split; [exact Hcov|]. split; [lia|].
    split.
    { unfold window. rewrite length_app. cbn [length].
      split; [lia|]. split; [lia|]. split; [lia|].
      split.
      { destruct (Z.min_spec (fmin st) (frequency x)) as [[_ ->]|[_ ->]].
        - exists i. split; [lia|]. rewrite target_app_l by lia. exact Hlo.
        - exists (Z.of_nat (length pre)). split; [lia|exact Hlast]. }
      split.
      { destruct (Z.max_spec (fmax st) (frequency x)) as [[_ ->]|[_ ->]].
        - exists (Z.of_nat (length pre)). split; [lia|exact Hlast].
        - exists j. split; [lia|]. rewrite target_app_l by lia. exact Hhi'. }
      intros k f Hk Hf.
      destruct (Z.eq_dec k (Z.of_nat (length pre))) as [->|Hne].
      - assert (f = frequency x) by congruence. lia.
      - rewrite target_app_l in Hf by lia.
        pose proof (Hin k f ltac:(lia) Hf). lia. }
    split; [lia|]. split; [reflexivity|].
    eapply Forall_impl; [exact Hspans|].
    intros s Hs. apply span_ok_app. exact Hs.
Qed.

Lemma well_indexed_app_inv pre rest :
  well_indexed 0 (pre ++ rest) ->
  Forall (fun y => is_uint 64 (frequency y)) pre /\
  match rest with
  | [] => True
  | x :: _ => is_uint 64 (frequency x) /\ index x = Z.of_nat (length pre)
  end.
Proof.
  intros [Hall Hidx]. apply Forall_app in Hall as [Hpre Hrest].
  split; [exact Hpre|].
  destruct rest as [|x rest]; [exact I|].
  inversion Hrest; subst. split; [assumption|].
  rewrite (Hidx (length pre) x); [lia|].
  rewrite lookup_app_r by lia. rewrite Nat.sub_diag. reflexivity.
Qed.

Lemma walk_fold maxDf LOOffset : forall rest pre st,
  well_indexed 0 (pre ++ rest) ->
  walk_inv maxDf LOOffset pre st ->
  walk_inv maxDf LOOffset (pre ++ rest)
           (fold_left (getLOSpans_step maxDf LOOffset) rest st).
Proof.
  induction rest as [|x rest IH]; intros pre st Hwi Hinv.
  - rewrite app_nil_r. exact Hinv.
  - destruct (well_indexed_app_inv _ _ Hwi) as (Hpre & Hx & Hidx).
    cbn [fold_left].
    replace (pre ++ x :: rest) with ((pre ++ [x]) ++ rest) in *
      by (rewrite <- app_assoc; reflexivity).
    apply IH; [exact Hwi|].
    apply walk_step; assumption.
Qed.

(** What the walk over a whole plan gives. *)
Lemma getLOSpans_walk_spec maxDf LOOffset plan :
  0 <= maxDf -> plan <> [] -> well_indexed 0 plan ->
  covers 0 (getLOSpans_walk maxDf LOOffset plan) (Z.of_nat (length plan) - 1) /\
  Forall (span_ok plan maxDf LOOffset) (getLOSpans_walk maxDf LOOffset plan) /\
  (length plan = 1%nat -> length (getLOSpans_walk maxDf LOOffset plan) = 1%nat).
Proof.
  intros HmaxDf Hne Hwi.
  destruct plan as [|x rest]; [congruence|].
  destruct (well_indexed_app_inv [] (x :: rest) Hwi) as (_ & Hx & Hidx).
  pose proof (walk_first maxDf LOOffset x HmaxDf Hx Hidx) as Hfirst.
  pose proof (walk_fold maxDf LOOffset rest [x] _ Hwi Hfirst) as Hinv.
  cbn [app] in Hinv.
  unfold getLOSpans_walk, getLOSpans_finish. cbn [fold_left].
  set (st := fold_left (getLOSpans_step maxDf LOOffset) rest
               (getLOSpans_step maxDf LOOffset getLOSpans_init x)) in *.
  destruct Hinv as (Hcov & Hto & Hwin & Hdf & Hflo & Hspans).
  assert (Hab : idxFrom st <= idxTo st) by (destruct Hwin as (_ & H & _); exact H).
  split; [|split].
  - rewrite <- Hto.
    change (idxTo st) with
      (LOSpan.to {| LOSpan.from := idxFrom st; LOSpan.to := idxTo st;
             LOSpan.frequency := lo_center (flo st) LOOffset |}) at 2.
    apply covers_snoc; cbn [LOSpan.from LOSpan.to]; assumption.
  - apply Forall_app. split; [exact Hspans|].
    constructor; [|constructor].
    exists (fmin st), (fmax st). cbn [LOSpan.from LOSpan.to LOSpan.frequency].
    split; [exact Hwin|]. split; [exact Hdf|]. rewrite Hflo. reflexivity.
  - intros Hlen. destruct rest; [|discriminate].
    subst st. cbn [fold_left].
    destruct Hx as [Hx0 Hx1].
    unfold getLOSpans_step, getLOSpans_init, MaxUint64.
    cbn [fmin fmax flo idxFrom idxTo loSpans].
    rewrite Z.min_r, Z.max_r by lia.
    rewrite Z.sub_diag. change (uint64 0) with 0.
    destruct (Z.ltb_spec maxDf 0); [lia|]. reflexivity.
Qed.

Lemma abs_offset_uint32 LOOffset :
  is_int 32 LOOffset ->
  uint32 (Z.max LOOffset (int32 (- LOOffset))) = Z.abs LOOffset.
Proof.
  unfold is_int. change (2 ^ (32 - 1)) with (2 ^ 31). intros H.
  destruct (Z.eq_dec LOOffset (- 2 ^ 31)) as [->|Hne].
  - vm_compute. reflexivity.
  - rewrite int32_small by lia. rewrite uint32_small by lia. lia.
Qed.

(** With a non-negative available bandwidth, [maxDf] is that bandwidth. *)
Lemma getLOSpans_maxDf_available settings scan :
  Settings.wf settings -> Scan.wf scan ->
  0 <= availableBandwidth (getIFBandwidth (Settings.SampleRate settings))
         (Settings.FilterBandwidth settings) (Scan.LOOffset scan) ->
  getLOSpans_maxDf settings scan =
  availableBandwidth (getIFBandwidth (Settings.SampleRate settings))
    (Settings.FilterBandwidth settings) (Scan.LOOffset scan).
Proof.
  intros (Hfb & _) (_ & _ & _ & _ & Hoff & _) Havail.
  unfold getLOSpans_maxDf, availableBandwidth in *.
  pose proof (getIFBandwidth_range (Settings.SampleRate settings)) as Hif.
  unfold is_uint in Hfb.
  rewrite (abs_offset_uint32 _ Hoff).
  rewrite (uint32_small (_ - Settings.FilterBandwidth settings)) by lia.
  rewrite uint32_small by lia. apply uint64_small. lia.
Qed.

(** C4: for every non-empty scan plan whose available bandwidth
    [IFBandwidth(sampleRate) - filterBandwidth - |offset|] is not
    negative, the spans of [getLOSpans] cut the index range
    [0 .. len(plan)-1] into consecutive pieces in increasing order with
    no overlap; within every span any two target frequencies differ by
    at most the available bandwidth (so the greatest minus the least
    does); and a plan of length 1 gives exactly one span. *)
Theorem getLOSpans_partition fuel settings scan plan :
  Settings.wf settings -> Scan.wf scan ->
  getScanFrequenciesAndIndexes fuel scan = (plan, true) ->
  plan <> [] -> Z.of_nat (length plan) <= 2 ^ 63 ->
  0 <= availableBandwidth (getIFBandwidth (Settings.SampleRate settings))
         (Settings.FilterBandwidth settings) (Scan.LOOffset scan) ->
  exists spans,
    getLOSpans fuel settings scan = Some spans /\
    covers 0 spans (Z.of_nat (length plan) - 1) /\
    (forall s lo hi, In s spans -> window plan (LOSpan.from s) (LOSpan.to s) lo hi ->
       hi - lo <= availableBandwidth (getIFBandwidth (Settings.SampleRate settings))
                    (Settings.FilterBandwidth settings) (Scan.LOOffset scan)) /\
    (forall s i j fi fj, In s spans ->
       LOSpan.from s <= i <= LOSpan.to s -> LOSpan.from s <= j <= LOSpan.to s ->
       target plan i = Some fi -> target plan j = Some fj ->
       fi - fj <= availableBandwidth (getIFBandwidth (Settings.SampleRate settings))
                    (Settings.FilterBandwidth settings) (Scan.LOOffset scan)) /\
    (length plan = 1%nat -> length spans = 1%nat).
Proof.
  intros Hset Hscan Hrun Hne Hlen Havail.
  pose proof (generator_well_indexed _ _ _ _ Hscan Hrun Hlen) as Hwi.
  pose proof (getLOSpans_maxDf_available _ _ Hset Hscan Havail) as HmaxDf.
  destruct (getLOSpans_walk_spec (getLOSpans_maxDf settings scan)
              (Scan.LOOffset scan) plan) as (Hcov & Hok & Hone);
    [rewrite HmaxDf; exact Havail|exact Hne|exact Hwi|].
  exists (getLOSpans_walk (getLOSpans_maxDf settings scan) (Scan.LOOffset scan) plan).
  split; [unfold getLOSpans; rewrite Hrun; reflexivity|].
  split; [exact Hcov|].
  assert (Hpair : forall s i j fi fj,
    In s (getLOSpans_walk (getLOSpans_maxDf settings scan) (Scan.LOOffset scan) plan) ->
    LOSpan.from s <= i <= LOSpan.to s -> LOSpan.from s <= j <= LOSpan.to s ->
    target plan i = Some fi -> target plan j = Some fj ->
    fi - fj <= getLOSpans_maxDf settings scan).
  { intros s i j fi fj Hs Hi Hj Hfi Hfj.
    rewrite Forall_forall in Hok.
    destruct (Hok s) as (lo & hi & Hwin & Hdf & _);
      [apply list_elem_of_In; exact Hs|].
    destruct Hwin as (_ & _ & _ & _ & _ & Hin).
    pose proof (Hin i fi Hi Hfi). pose proof (Hin j fj Hj Hfj). lia. }
  rewrite <- HmaxDf.
  split; [|split; [exact Hpair|exact Hone]].
  intros s lo hi Hs (_ & _ & _ & (i & Hi & Hlo) & (j & Hj & Hhi) & _).
  apply (Hpair s j i hi lo Hs Hj Hi Hhi Hlo).
Qed.



(* ================================================================ *)
(** ** The float64 order *)
(* ================================================================ *)

Lemma SFcompare_refl x : f64_isNaN x = false -> SFcompare x x = Some Eq.
Proof.
  destruct x as [s|s| |s m e]; cbn; try discriminate; intros _;
    try (destruct s; reflexivity).
  rewrite Z.compare_refl, Pos.compare_cont_refl. destruct s; reflexivity.
Qed.

Lemma SFcompare_antisym x y :
  SFcompare y x = option_map CompOpp (SFcompare x y).
Proof.
  destruct x as [sx|sx| |sx mx ex], y as [sy|sy| |sy my ey]; cbn;
    try reflexivity; try (destruct sx; reflexivity);
    try (destruct sy; reflexivity);
    try (destruct sx, sy; reflexivity).
  rewrite (Z.compare_antisym ex ey).
  pose proof (Pos.compare_cont_antisym mx my Eq) as Hm. cbn [CompOpp] in Hm.
  rewrite <- Hm.
  destruct sx, sy, (ex ?= ey); cbn; try reflexivity;
    destruct (Pos.compare_cont Eq mx my); reflexivity.
Qed.

Lemma SFleb_refl x : f64_isNaN x = false -> SFleb x x = true.
Proof. intros H. unfold SFleb. rewrite SFcompare_refl by exact H. reflexivity. Qed.

Lemma SFltb_leb x y : SFltb x y = true -> SFleb x y = true.
Proof. unfold SFltb, SFleb. destruct (SFcompare x y) as [[| |]|]; congruence. Qed.

(** [x < y] and [y <= x] exclude each other. *)
Lemma SFltb_not_ge x y : SFltb x y = true -> SFleb y x = false.
Proof.
  unfold SFltb, SFleb. rewrite (SFcompare_antisym x y).
  destruct (SFcompare x y) as [[| |]|]; cbn; congruence.
Qed.

Lemma SFcompare_Some x y :
  f64_isNaN x = false -> f64_isNaN y = false ->
  exists c, SFcompare x y = Some c.
Proof.
  destruct x, y; cbn; try discriminate; intros _ _; eexists; reflexivity.
Qed.

Lemma SFleb_total x y :
  f64_isNaN x = false -> f64_isNaN y = false ->
  SFltb x y = false -> SFleb y x = true.
Proof.
  intros Hx Hy. unfold SFltb, SFleb. rewrite (SFcompare_antisym x y).
  destruct (SFcompare_Some x y Hx Hy) as [c ->].
  destruct c; cbn; congruence.
Qed.

Lemma SFleb_trans x y z :
  SFleb x y = true -> SFleb y z = true -> SFleb x z = true.
Proof.
  unfold SFleb.
  destruct x as [sx|sx| |sx mx ex], y as [sy|sy| |sy my ey],
           z as [sz|sz| |sz mz ez]; cbn; try discriminate; try reflexivity;
    try (destruct sx; cbn; congruence);
    try (destruct sy; cbn; congruence);
    try (destruct sz; cbn; congruence);
    try (destruct sx, sy; cbn; congruence);
    try (destruct sx, sz; cbn; congruence);
    try (destruct sy, sz; cbn; congruence);
    try (destruct sx, sy, sz; cbn; congruence).
  rewrite !Pos.compare_cont_spec. cbn [Pos.switch_Eq].
  destruct sx, sy, sz; cbn; try congruence;
    destruct (Z.compare_spec ex ey), (Z.compare_spec ey ez),
             (Z.compare_spec ex ez); subst; try lia; cbn; try congruence;
    destruct (Pos.compare_spec mx my), (Pos.compare_spec my mz),
             (Pos.compare_spec mx mz); subst; try lia; cbn; congruence.
Qed.

Lemma f64_max_spec x y :
  f64_isNaN x = false -> f64_isNaN y = false ->
  (f64_max x y = x \/ f64_max x y = y) /\
  SFleb x (f64_max x y) = true /\ SFleb y (f64_max x y) = true /\
  f64_isNaN (f64_max x y) = false.
Proof.
  intros Hx Hy.
  assert (Hgen : forall r, r = (if f64_lt x y then y else x) ->
            (r = x \/ r = y) /\ SFleb x r = true /\ SFleb y r = true /\
            f64_isNaN r = false).
  { intros r ->. unfold f64_lt. destruct (SFltb x y) eqn:Hlt.
    - repeat split; auto using SFltb_leb, SFleb_refl.
    - repeat split; auto using SFleb_total, SFleb_refl. }
  destruct x as [sx|sx| |sx mx ex], y as [sy|sy| |sy my ey];
    try discriminate; try (apply Hgen; reflexivity).
  destruct sx, sy; cbn; auto.
Qed.

Lemma f64_min_spec x y :
  f64_isNaN x = false -> f64_isNaN y = false ->
  (f64_min x y = x \/ f64_min x y = y) /\
  SFleb (f64_min x y) x = true /\ SFleb (f64_min x y) y = true /\
  f64_isNaN (f64_min x y) = false.
Proof.
  intros Hx Hy.
  assert (Hgen : forall r, r = (if f64_lt y x then y else x) ->
            (r = x \/ r = y) /\ SFleb r x = true /\ SFleb r y = true /\
            f64_isNaN r = false).
  { intros r ->. unfold f64_lt. destruct (SFltb y x) eqn:Hlt.
    - repeat split; auto using SFltb_leb, SFleb_refl.
    - repeat split; auto using SFleb_total, SFleb_refl. }
  destruct x as [sx|sx| |sx mx ex], y as [sy|sy| |sy my ey];
    try discriminate; try (apply Hgen; reflexivity).
  destruct sx, sy; cbn; auto.
Qed.

Lemma f64_max_NaN_l y : f64_max S754_nan y = S754_nan.
Proof. reflexivity. Qed.

Lemma f64_max_NaN_r x : f64_max x S754_nan = S754_nan.
Proof. destruct x; reflexivity. Qed.

Lemma f64_min_NaN_l y : f64_min S754_nan y = S754_nan.
Proof. reflexivity. Qed.

Lemma f64_min_NaN_r x : f64_min x S754_nan = S754_nan.
Proof. destruct x; reflexivity. Qed.

Lemma isNaN_true x : f64_isNaN x = true -> x = S754_nan.
Proof. destruct x; cbn; congruence. Qed.

Lemma fold_max_spec : forall rest m,
  f64_isNaN m = false -> no_NaN rest ->
  is_max_of (m :: rest) (fold_left f64_max rest m) /\
  f64_isNaN (fold_left f64_max rest m) = false.
Proof.
  induction rest as [|a rest IH]; intros m Hm Hrest; cbn [fold_left].
  - split; [|exact Hm]. split; [left; reflexivity|].
    intros y [<-|[]]. apply SFleb_refl. exact Hm.
  - inversion Hrest as [|? ? Ha Hrest']; subst.
    destruct (f64_max_spec m a Hm Ha) as (Hin & Hle_m & Hle_a & Hnan).
    destruct (IH (f64_max m a) Hnan Hrest') as ([Hmem Hub] & Hres).
    split; [|exact Hres]. split.
    + destruct Hmem as [Heq|Hmem]; [|right; right; exact Hmem].
      rewrite <- Heq. destruct Hin as [->| ->]; [left|right; left]; reflexivity.
    + intros y [<-|[<-|Hy]].
      * eapply SFleb_trans; [exact Hle_m|]. apply Hub. left. reflexivity.
      * eapply SFleb_trans; [exact Hle_a|]. apply Hub. left. reflexivity.
      * apply Hub. right. exact Hy.
Qed.

Lemma fold_min_spec : forall rest m,
  f64_isNaN m = false -> no_NaN rest ->
  is_min_of (m :: rest) (fold_left f64_min rest m) /\
  f64_isNaN (fold_left f64_min rest m) = false.
Proof.
  induction rest as [|a rest IH]; intros m Hm Hrest; cbn [fold_left].
  - split; [|exact Hm]. split; [left; reflexivity|].
    intros y [<-|[]]. apply SFleb_refl. exact Hm.
  - inversion Hrest as [|? ? Ha Hrest']; subst.
    destruct (f64_min_spec m a Hm Ha) as (Hin & Hle_m & Hle_a & Hnan).
    destruct (IH (f64_min m a) Hnan Hrest') as ([Hmem Hlb] & Hres).
    split; [|exact Hres]. split.
    + destruct Hmem as [Heq|Hmem]; [|right; right; exact Hmem].
      rewrite <- Heq. destruct Hin as [->| ->]; [left|right; left]; reflexivity.
    + intros y [<-|[<-|Hy]].
      * eapply SFleb_trans; [|exact Hle_m]. apply Hlb. left. reflexivity.
      * eapply SFleb_trans; [|exact Hle_a]. apply Hlb. left. reflexivity.
      * apply Hlb. right. exact Hy.
Qed.

Lemma fold_max_NaN : forall rest m,
  f64_isNaN m = true \/ Exists (fun x => f64_isNaN x = true) rest ->
  fold_left f64_max rest m = S754_nan.
Proof.
  induction rest as [|a rest IH]; intros m H; cbn [fold_left].
  - destruct H as [H|H]; [apply isNaN_true; exact H|inversion H].
  - apply IH. destruct H as [H|H].
    + left. apply isNaN_true in H. subst. reflexivity.
    + inversion H as [? ? Ha|? ? Hr]; subst.
      * left. apply isNaN_true in Ha. subst. rewrite f64_max_NaN_r. reflexivity.
      * right. exact Hr.
Qed.

Lemma fold_min_NaN : forall rest m,
  f64_isNaN m = true \/ Exists (fun x => f64_isNaN x = true) rest ->
  fold_left f64_min rest m = S754_nan.
Proof.
  induction rest as [|a rest IH]; intros m H; cbn [fold_left].
  - destruct H as [H|H]; [apply isNaN_true; exact H|inversion H].
  - apply IH. destruct H as [H|H].
    + left. apply isNaN_true in H. subst. reflexivity.
    + inversion H as [? ? Ha|? ? Hr]; subst.
      * left. apply isNaN_true in Ha. subst. rewrite f64_min_NaN_r. reflexivity.
      * right. exact Hr.
Qed.

(** [slices.Max] of a non-empty slice: the greatest element, or NaN as
    soon as one element is NaN. *)
Lemma slices_Max_spec y rest :
  exists m, slices_Max (y :: rest) = Some m /\
    (no_NaN (y :: rest) -> is_max_of (y :: rest) m) /\
    (Exists (fun x => f64_isNaN x = true) (y :: rest) -> m = S754_nan).
Proof.
  eexists. split; [reflexivity|]. split.
  - intros Hn. inversion Hn; subst. apply fold_max_spec; assumption.
  - intros He. apply fold_max_NaN.
    inversion He; subst; [left|right]; assumption.
Qed.

Lemma slices_Min_spec y rest :
  exists m, slices_Min (y :: rest) = Some m /\
    (no_NaN (y :: rest) -> is_min_of (y :: rest) m) /\
    (Exists (fun x => f64_isNaN x = true) (y :: rest) -> m = S754_nan).
Proof.
  eexists. split; [reflexivity|]. split.
  - intros Hn. inversion Hn; subst. apply fold_min_spec; assumption.
  - intros He. apply fold_min_NaN.
    inversion He; subst; [left|right]; assumption.
Qed.

(* ================================================================ *)
(** ** Signal detection *)
(* ================================================================ *)

Lemma signalMax_total samples : exists m, signalMax samples = Some m.
Proof.
  destruct samples as [|x [|y rest]]; eexists; reflexivity.
Qed.

(** C6, as the code has it: [detectSignal] computes [signalPowerMax] and
    [signalSNRMax] as the sentinel -1000 when there are 0 samples, which
    gives non-detection on every threshold above -1000; as the sole
    sample when there is exactly 1; as the maximum over all samples
    except the first when there are 2 or more (NaN if one of those is
    NaN); and it reports detection if and only if
    [signalPowerMax >= detectPowerThreshold] or
    [signalSNRMax >= detectSNRThreshold].  With power threshold -70 and
    power samples -40, -80, -75 the maximum is -75 and power alone does
    not trigger. *)
Theorem detectSignal_rule :
  (forall stats scan, exists signalPowerMax signalSNRMax,
     signalMax (signalPower stats) = Some signalPowerMax /\
     signalMax (signalSNR stats) = Some signalSNRMax /\
     detectSignal stats scan =
     Some (f64_ge signalPowerMax (Scan.DetectPowerThreshold scan) ||
           f64_ge signalSNRMax (Scan.DetectSNRThreshold scan))) /\
  signalMax [] = Some (float64_of_Z (-1000)) /\
  (forall threshold,
     f64_lt (float64_of_Z (-1000)) threshold = true ->
     f64_ge (float64_of_Z (-1000)) threshold = false) /\
  (forall scan,
     f64_lt (float64_of_Z (-1000)) (Scan.DetectPowerThreshold scan) = true ->
     f64_lt (float64_of_Z (-1000)) (Scan.DetectSNRThreshold scan) = true ->
     detectSignal (statsOf [] []) scan = Some false) /\
  (forall x, signalMax [x] = Some x) /\
  (forall x y rest, exists m,
     signalMax (x :: y :: rest) = Some m /\
     (no_NaN (y :: rest) -> is_max_of (y :: rest) m) /\
     (Exists (fun s => f64_isNaN s = true) (y :: rest) -> m = S754_nan)) /\
  signalMax [float64_of_Z (-40); float64_of_Z (-80); float64_of_Z (-75)] =
    Some (float64_of_Z (-75)) /\
  f64_ge (float64_of_Z (-75)) (float64_of_Z (-70)) = false /\
  detectSignal
    (statsOf [float64_of_Z (-40); float64_of_Z (-80); float64_of_Z (-75)] [])
    (scanWithThresholds (float64_of_Z (-70)) (S754_zero false)) = Some false.
Proof.
  assert (Hsentinel : forall threshold,
     f64_lt (float64_of_Z (-1000)) threshold = true ->
     f64_ge (float64_of_Z (-1000)) threshold = false).
  { intros threshold H. unfold f64_ge. apply SFltb_not_ge. exact H. }
  split.
  { intros stats scan.
    destruct (signalMax_total (signalPower stats)) as [p Hp].
    destruct (signalMax_total (signalSNR stats)) as [s Hs].
    exists p, s. split; [exact Hp|]. split; [exact Hs|].
    unfold detectSignal. rewrite Hp, Hs. reflexivity. }
  split; [reflexivity|]. split; [exact Hsentinel|].
  split.
  { intros scan Hp Hs.
    change (detectSignal (statsOf [] []) scan) with
      (Some (f64_ge (float64_of_Z (-1000)) (Scan.DetectPowerThreshold scan) ||
             f64_ge (float64_of_Z (-1000)) (Scan.DetectSNRThreshold scan))).
    rewrite (Hsentinel _ Hp), (Hsentinel _ Hs). reflexivity. }
  split; [reflexivity|].
  split.
  { intros x y rest. destruct (slices_Max_spec y rest) as (m & Hm & Hmax & Hnan).
    exists m. split; [exact Hm|]. split; assumption. }
  repeat split; vm_compute; reflexivity.
Qed.

(* ================================================================ *)
(** ** The report line *)
(* ================================================================ *)

Lemma powerField_total samples : exists l, powerField samples = Some l.
Proof. destruct samples as [|x [|y rest]]; eexists; reflexivity. Qed.

Lemma snrField_total samples : exists l, snrField samples = Some l.
Proof. destruct samples as [|x [|y rest]]; eexists; reflexivity. Qed.

(** The power field sits in the line [showStats] logs. *)
Lemma showStats_has_powerField labels what w :
  exists before pwr after,
    powerField (signalPower (receiveStats w)) = Some pwr /\
    showStats_fields labels what w = Some (before ++ pwr ++ after) /\
    showStats labels what w = Some (Join (before ++ pwr ++ after) " ").
Proof.
  destruct (powerField_total (signalPower (receiveStats w))) as [pwr Hp].
  destruct (snrField_total (signalSNR (receiveStats w))) as [snr Hs].
  assert (Hf : exists before after,
             showStats_fields labels what w = Some (before ++ pwr ++ after)).
  { unfold showStats_fields. rewrite Hp, Hs. cbn [mbind option_bind].
    eexists. eexists. reflexivity. }
  destruct Hf as (before & after & Hf).
  exists before, pwr, after. split; [exact Hp|]. split; [exact Hf|].
  unfold showStats. rewrite Hf. reflexivity.
Qed.

(** C3, as the code has it: the power field of the line [showStats]
    logs is absent when there is no power sample, the single value
    [pwr=<x>dB] when there is exactly one sample, and the range
    [pwr=[<min>dB,<max>dB]] computed over all samples but the first when
    there are two or more.  For the two samples -60, -55 one sample
    remains after the first is left out, and the field is the range
    [pwr=[-55.0dB,-55.0dB]]. *)
Theorem showStats_power_field :
  (forall labels what w, exists before pwr after,
     powerField (signalPower (receiveStats w)) = Some pwr /\
     showStats_fields labels what w = Some (before ++ pwr ++ after) /\
     showStats labels what w = Some (Join (before ++ pwr ++ after) " ")) /\
  powerField [] = Some [] /\
  (forall x, powerField [x] = Some ["pwr=" +:+ format_f1 x +:+ "dB"]) /\
  (forall x y rest, exists lo hi,
     slices_Min (y :: rest) = Some lo /\ slices_Max (y :: rest) = Some hi /\
     (no_NaN (y :: rest) -> is_min_of (y :: rest) lo /\ is_max_of (y :: rest) hi) /\
     powerField (x :: y :: rest) =
     Some ["pwr=[" +:+ format_f1 lo +:+ "dB," +:+ format_f1 hi +:+ "dB]"]) /\
  powerField [float64_of_Z (-60); float64_of_Z (-55)] =
    Some ["pwr=[-55.0dB,-55.0dB]"] /\
  showStats ∅ "detect"
    (worldOf (statsOf [float64_of_Z (-60); float64_of_Z (-55)] [])) =
    Some "detect f=0 pwr=[-55.0dB,-55.0dB]".
Proof.
  split; [exact showStats_has_powerField|].
  split; [reflexivity|]. split; [reflexivity|].
  split.
  { intros x y rest.
    destruct (slices_Min_spec y rest) as (lo & Hlo & Hmin & _).
    destruct (slices_Max_spec y rest) as (hi & Hhi & Hmax & _).
    exists lo, hi. split; [exact Hlo|]. split; [exact Hhi|].
    split; [intros Hn; split; auto|].
    unfold powerField. cbn [length Nat.eqb Nat.ltb Nat.leb drop].
    rewrite Hlo, Hhi. reflexivity. }
  split; vm_compute; reflexivity.
Qed.

(* ================================================================ *)
(** ** The session loop *)
(* ================================================================ *)

Ltac split_if :=
  repeat match goal with
         | |- context [if ?b then _ else _] => destruct b
         end.

Lemma getKeyPresses_step_preserves w k :
  receiveStats (getKeyPresses_step w k) = receiveStats w /\
  sdrconnectSettings (getKeyPresses_step w k) = sdrconnectSettings w /\
  readDeadline (getKeyPresses_step w k) = readDeadline w /\
  requests (getKeyPresses_step w k) = requests w.
Proof. unfold getKeyPresses_step. split_if; repeat split; reflexivity. Qed.

Lemma getKeyPresses_preserves ks : forall w,
  receiveStats (getKeyPresses ks w) = receiveStats w /\
  sdrconnectSettings (getKeyPresses ks w) = sdrconnectSettings w /\
  readDeadline (getKeyPresses ks w) = readDeadline w /\
  requests (getKeyPresses ks w) = requests w.
Proof.
  unfold getKeyPresses.
  induction ks as [|k ks IH]; intros w; cbn [fold_left]; [repeat split; reflexivity|].
  destruct (IH (getKeyPresses_step w k)) as (H1 & H2 & H3 & H4).
  destruct (getKeyPresses_step_preserves w k) as (G1 & G2 & G3 & G4).
  repeat split; congruence.
Qed.

Lemma getKeyPresses_stats ks w :
  receiveStats (getKeyPresses ks w) = receiveStats w.
Proof. apply getKeyPresses_preserves. Qed.

(** A property-changed message leaves the flags and the message counter
    alone. *)
Lemma property_changed_preserves message w sequence :
  let w' := (property_changed message w sequence).1 in
  countMessages (receiveStats w') = countMessages (receiveStats w) /\
  userCommandTerminate w' = userCommandTerminate w /\
  userCommandNextScan w' = userCommandNextScan w /\
  userCommandTogglePause w' = userCommandTogglePause w.
Proof.
  unfold property_changed. split_if; repeat split; reflexivity.
Qed.

(** Events on which the loop does not return are left behind: the loop
    continues on the rest of the script from where they left it. *)
Lemma receiveMessages_loop_app sequencePattern : forall pre sequence paused w w1,
  receiveMessages_loop sequencePattern pre sequence paused w = Waiting w1 ->
  exists sequence1 paused1,
    forall rest,
      receiveMessages_loop sequencePattern (pre ++ rest) sequence paused w =
      receiveMessages_loop sequencePattern rest sequence1 paused1 w1.
Proof.
  induction pre as [|ev pre IH]; intros sequence paused w w1 Hrun.
  - cbn in Hrun. injection Hrun as <-. exists sequence, paused. reflexivity.
  - cbn [receiveMessages_loop app] in *.
    destruct (received ev) as [message|err]; [|discriminate].
    destruct (userCommandTerminate _); [discriminate|].
    destruct (userCommandNextScan _); [discriminate|].
    destruct (userCommandTogglePause _);
      (destruct (String.eqb (EventType message) "property_changed");
       [destruct (property_changed message _ sequence) as [w2 sequence2];
        destruct sequencePattern as [pattern|];
        [destruct (MatchString pattern sequence2); [discriminate|]|];
        apply (IH _ _ _ _ Hrun)
       |apply (IH _ _ _ _ Hrun)]).
Qed.

(** On events that all leave the loop waiting, every event is a message
    and each one is counted. *)
Lemma receiveMessages_loop_waiting sequencePattern : forall pre sequence paused w w1,
  receiveMessages_loop sequencePattern pre sequence paused w = Waiting w1 ->
  Forall (fun ev => exists m, received ev = RecvMessage m) pre /\
  countMessages (receiveStats w1) =
  counted (length pre) (countMessages (receiveStats w)).
Proof.
  induction pre as [|ev pre IH]; intros sequence paused w w1 Hrun.
  - cbn in Hrun. injection Hrun as <-. split; [constructor|reflexivity].
  - cbn [receiveMessages_loop] in Hrun.
    destruct (received ev) as [message|err] eqn:Hev; [|discriminate].
    assert (Hcount : forall w2 sequence2 paused2,
              countMessages (receiveStats w2) =
              int64 (countMessages (receiveStats w) + 1) ->
              receiveMessages_loop sequencePattern pre sequence2 paused2 w2 = Waiting w1 ->
              Forall (fun ev => exists m, received ev = RecvMessage m) (ev :: pre) /\
              countMessages (receiveStats w1) =
              counted (length (ev :: pre)) (countMessages (receiveStats w))).
    { intros w2 sequence2 paused2 Hc Hrec.
      destruct (IH _ _ _ _ Hrec) as [Hall Hn].
      split; [constructor; [eexists; exact Hev|exact Hall]|].
      rewrite Hn, Hc. unfold counted. cbn [length].
      rewrite Nat.iter_succ_r. reflexivity. }
    assert (Hc0 : countMessages (receiveStats (count_message (getKeyPresses (keys ev) w))) =
                  int64 (countMessages (receiveStats w) + 1)).
    { unfold count_message. cbn. rewrite getKeyPresses_stats. reflexivity. }
    destruct (userCommandTerminate _); [discriminate|].
    destruct (userCommandNextScan _); [discriminate|].
    destruct (userCommandTogglePause _);
      (destruct (String.eqb (EventType message) "property_changed");
       [match type of Hrun with
        | context [property_changed message ?w0 sequence] =>
            pose proof (property_changed_preserves message w0 sequence) as (Hpc & _);
            destruct (property_changed message w0 sequence) as [w2 sequence2]
        end;
        destruct sequencePattern as [pattern|];
        [destruct (MatchString pattern sequence2); [discriminate|]|];
        refine (Hcount _ _ _ _ Hrun); cbn [fst] in Hpc; rewrite Hpc; exact Hc0
       |refine (Hcount _ _ _ _ Hrun); exact Hc0]).
Qed.

Lemma counted_exact n : forall count,
  0 <= count -> count + Z.of_nat n < 2 ^ 63 ->
  counted n count = count + Z.of_nat n.
Proof.
  unfold counted, Nat.iter. induction n as [|n IH]; intros count H0 Hn; cbn [nat_rect].
  - lia.
  - rewrite IH by lia. rewrite int64_small; lia.
Qed.

Lemma receiveMessages_loop_expiry ks e rest sequence paused w :
  errors_Is e ErrDeadlineExceeded = true ->
  receiveMessages_loop None ({| keys := ks; received := RecvError e |} :: rest)
                       sequence paused w =
  Returned (if 0 <? countMessages (receiveStats w) then None else Some e)
           (SetReadDeadline NoDeadline (getKeyPresses ks w)) rest.
Proof.
  intros He. cbn [receiveMessages_loop keys received].
  rewrite He, getKeyPresses_stats. cbn [andb]. reflexivity.
Qed.

(** With a pattern, an expiry is always handed back as the error. *)
Lemma receiveMessages_loop_expiry_pattern pattern ks e rest sequence paused w :
  receiveMessages_loop (Some pattern)
    ({| keys := ks; received := RecvError e |} :: rest) sequence paused w =
  Returned (Some e) (SetReadDeadline NoDeadline (getKeyPresses ks w)) rest.
Proof.
  cbn [receiveMessages_loop keys received].
  rewrite andb_false_r. reflexivity.
Qed.

(** C1, as the code has it: in a call of [receiveMessages] with no match
    pattern, a read-deadline expiry that comes after the messages [pre]
    of this call is returned as success (nil) if and only if the message
    counter of the statistics is positive at that moment, that is, its
    value when the call started plus the number of messages received
    during the call.  So one message received during the call is enough
    for success, and with zero messages received during the call the
    expiry is an error exactly when the counter was still 0 at the
    start. *)
Theorem receiveMessages_deadline_expiry timeout pre ks e rest w w1 :
  receiveMessages None timeout pre w = Waiting w1 ->
  errors_Is e ErrDeadlineExceeded = true ->
  0 <= countMessages (receiveStats w) ->
  countMessages (receiveStats w) + Z.of_nat (length pre) < 2 ^ 63 ->
  Forall (fun ev => exists m, received ev = RecvMessage m) pre /\
  exists w2,
    receiveMessages None timeout
      (pre ++ {| keys := ks; received := RecvError e |} :: rest) w =
    Returned (if 0 <? countMessages (receiveStats w) + Z.of_nat (length pre)
              then None else Some e) w2 rest.
Proof.
  unfold receiveMessages. intros Hrun He H0 Hn.
  destruct (receiveMessages_loop_waiting _ _ _ _ _ _ Hrun) as [Hall Hcount].
  destruct (receiveMessages_loop_app _ _ _ _ _ _ Hrun) as (sequence1 & paused1 & Happ).
  split; [exact Hall|].
  rewrite Happ, (receiveMessages_loop_expiry _ _ _ _ _ _ He), Hcount.
  cbn [receiveStats SetReadDeadline].
  rewrite counted_exact by assumption.
  eexists. reflexivity.
Qed.

(** C9: in every iteration of the loop of [receiveMessages] (after any
    events [pre] on which the call has not returned), if the terminate
    flag is set when the flags are examined, that is after the message of
    this iteration has been read and counted, the call returns
    [ErrUserCommandTerminate] in that same iteration: the rest of the
    script is left unread whatever the time-out, and the flag is cleared.
    The deferred call resets the read deadline. *)
Theorem receiveMessages_terminate sequencePattern timeout pre ev m rest w w1 :
  receiveMessages sequencePattern timeout pre w = Waiting w1 ->
  received ev = RecvMessage m ->
  userCommandTerminate (getKeyPresses (keys ev) w1) = true ->
  exists w2,
    receiveMessages sequencePattern timeout (pre ++ ev :: rest) w =
    Returned (Some ErrUserCommandTerminate) w2 rest /\
    userCommandTerminate w2 = false /\
    readDeadline w2 = NoDeadline /\
    receiveStats w2 = receiveStats (count_message w1) /\
    sdrconnectSettings w2 = sdrconnectSettings w1.
Proof.
  unfold receiveMessages. intros Hrun Hev Hflag.
  destruct (receiveMessages_loop_app _ _ _ _ _ _ Hrun) as (sequence1 & paused1 & Happ).
  rewrite Happ. cbn [receiveMessages_loop]. rewrite Hev.
  change (userCommandTerminate (count_message (getKeyPresses (keys ev) w1)))
    with (userCommandTerminate (getKeyPresses (keys ev) w1)).
  rewrite Hflag.
  eexists. split; [reflexivity|].
  destruct (getKeyPresses_preserves (keys ev) w1) as (Hs & Hset & _).
  cbn. rewrite Hs, Hset. repeat split; reflexivity.
Qed.

(* ================================================================ *)
(** ** Setting a property *)
(* ================================================================ *)

Lemma setSdrconnectProperty_loop_timeout property value ks e rest :
  errors_Is e ErrDeadlineExceeded = true ->
  forall pre w,
    Forall (other_message property) pre ->
    exists w',
      setSdrconnectProperty_loop property value
        (pre ++ {| keys := ks; received := RecvError e |} :: rest) w =
      Returned (value, false, None) w' rest.
Proof.
  intros He. induction pre as [|ev pre IH]; intros w Hpre.
  - cbn [app setSdrconnectProperty_loop keys received]. rewrite He.
    eexists. reflexivity.
  - inversion Hpre as [|? ? (m & Hev & Hother) Hrest]; subst.
    cbn [app setSdrconnectProperty_loop]. rewrite Hev, Hother.
    apply IH. exact Hrest.
Qed.

(** C7: for every property name and requested value, if the request is
    sent and no matching property-changed event arrives before the read
    deadline expires (the events [pre] are other messages, then the read
    ends on the deadline), [setSdrconnectProperty] returns changed=false,
    actualValue equal to the requested value, and no error. *)
Theorem setSdrconnectProperty_timeout property value pre ks e rest w :
  Forall (other_message property) pre ->
  errors_Is e ErrDeadlineExceeded = true ->
  exists w',
    setSdrconnectProperty property value None
      (pre ++ {| keys := ks; received := RecvError e |} :: rest) w =
    Returned (value, false, None) w' rest.
Proof.
  intros Hpre He. unfold setSdrconnectProperty.
  apply setSdrconnectProperty_loop_timeout; assumption.
Qed.

(* ================================================================ *)
(** ** Parsing and trimming *)
(* ================================================================ *)

Lemma ParseUint_digits_range base base0 cutoff maxVal :
  0 <= maxVal ->
  forall s n underscores,
    0 <= n <= maxVal ->
    match ParseUint_digits s base base0 cutoff maxVal n underscores with
    | inl (v, _) => 0 <= v <= maxVal
    | inr (v, _) => 0 <= v <= maxVal
    end.
Proof.
  intros Hmax. induction s as [|ch t IH]; intros n underscores Hn;
    cbn [ParseUint_digits]; [exact Hn|].
  destruct ((byte_val ch =? 95) && base0); [apply IH; exact Hn|].
  destruct (if is_digit (byte_val ch) then _ else _) as [d|]; [|lia].
  destruct (base <=? d); [lia|].
  destruct (cutoff <=? n); [lia|].
  destruct (Z.ltb_spec (uint64 (uint64 (n * base) + d)) (uint64 (n * base)));
    cbn [orb]; [lia|].
  destruct (Z.ltb_spec maxVal (uint64 (uint64 (n * base) + d))); [lia|].
  apply IH. pose proof (uint64_range (uint64 (n * base) + d)). lia.
Qed.

(** A station identifier parsed from a message is at most 65535. *)
Lemma ParseUint_16_range s : 0 <= (ParseUint s 10 16).1 <= 65535.
Proof.
  unfold ParseUint. destruct (String.eqb s ""); [cbn; lia|].
  change (10 =? 0) with false. cbn iota.
  change (uint64 (Z.shiftl 1 16 - 1)) with 65535.
  pose proof (ParseUint_digits_range 10 false (MaxUint64 / 10 + 1) 65535
                ltac:(lia) s 0 false ltac:(lia)) as H.
  destruct (ParseUint_digits s 10 false (MaxUint64 / 10 + 1) 65535 0 false)
    as [[v e]|[v u]]; [exact H|].
  destruct (u && negb (underscoreOK s)); cbn; lia.
Qed.

Lemma string_get_take : forall k s i,
  String.get i (string_take k s) =
  if (i <? k)%nat then String.get i s else None.
Proof.
  induction k as [|k IH]; intros s i; [destruct s; reflexivity|].
  destruct s as [|c t]; cbn [string_take].
  - destruct (i <? S k)%nat; destruct i; reflexivity.
  - destruct i as [|i]; [reflexivity|].
    cbn [String.get]. rewrite IH. reflexivity.
Qed.

Lemma byteAt_take k s i :
  byteAt (string_take k s) i = if (i <? k)%nat then byteAt s i else 0.
Proof.
  unfold byteAt. rewrite string_get_take. destruct (i <? k)%nat; reflexivity.
Qed.

Lemma length_take : forall k s,
  String.length (string_take k s) = Nat.min k (String.length s).
Proof.
  induction k as [|k IH]; intros s; [reflexivity|].
  destruct s as [|c t]; [reflexivity|]. cbn. rewrite IH. reflexivity.
Qed.

Lemma take_empty k s : string_take k s = "" -> k = O \/ s = "".
Proof. destruct k, s; cbn; intros H; auto; discriminate. Qed.

Lemma take_take : forall a b s,
  string_take a (string_take b s) = string_take (Nat.min a b) s.
Proof.
  induction a as [|a IH]; intros b s; [reflexivity|].
  destruct b as [|b]; [reflexivity|].
  destruct s as [|c t]; [reflexivity|].
  cbn. rewrite IH. reflexivity.
Qed.

Ltac split_of_nat :=
  repeat match goal with
         | |- context [Z.of_nat ?a <? ?b] =>
             destruct (Z.ltb_spec (Z.of_nat a) b); try lia
         end.

(** Cutting a string after at least one byte keeps its first rune or
    makes it the error rune. *)
Lemma DecodeRune_bytes_prefix k n s0 s1 s2 s3 :
  (1 <= k)%nat ->
  (DecodeRune_bytes (Nat.min k n) s0
     (if (1 <? k)%nat then s1 else 0) (if (2 <? k)%nat then s2 else 0)
     (if (3 <? k)%nat then s3 else 0)).1 =
  (DecodeRune_bytes n s0 s1 s2 s3).1 \/
  (DecodeRune_bytes (Nat.min k n) s0
     (if (1 <? k)%nat then s1 else 0) (if (2 <? k)%nat then s2 else 0)
     (if (3 <? k)%nat then s3 else 0)).1 = RuneError.
Proof.
  intros Hk.
  destruct k as [|[|[|[|k]]]]; [lia| | | |];
    destruct n as [|[|[|[|n]]]];
    cbn [Nat.min Nat.ltb Nat.leb];
    unfold DecodeRune_bytes, utf8_first;
    cbn [Nat.ltb Nat.leb];
    repeat match goal with
           | |- context [if s0 <? ?c then _ else _] => destruct (s0 <? c)
           | |- context [if s0 =? ?c then _ else _] => destruct (s0 =? c)
           end;
    cbn -[rune2 rune3 rune4 Z.of_nat Z.ltb continuation];
    repeat match goal with
           | |- context [Z.land ?a 7] =>
               let v := eval vm_compute in (Z.land a 7) in
               change (Z.land a 7) with v
           end;
    split_of_nat;
    cbn -[rune2 rune3 rune4 continuation];
    split_if; cbn [fst]; auto.
Qed.

Lemma DecodeRune_take k s :
  (1 <= k)%nat ->
  (DecodeRuneInString (string_take k s)).1 = (DecodeRuneInString s).1 \/
  (DecodeRuneInString (string_take k s)).1 = RuneError.
Proof.
  intros Hk. unfold DecodeRuneInString.
  rewrite length_take, !byteAt_take.
  replace (0 <? k)%nat with true by (symmetry; apply Nat.ltb_lt; lia).
  apply DecodeRune_bytes_prefix. exact Hk.
Qed.

Lemma IsSpace_RuneError : IsSpace RuneError = false.
Proof. reflexivity. Qed.

Lemma first_rune_take k s :
  (1 <= k)%nat ->
  IsSpace (DecodeRuneInString s).1 = false ->
  IsSpace (DecodeRuneInString (string_take k s)).1 = false.
Proof.
  intros Hk Hs. destruct (DecodeRune_take k s Hk) as [-> | ->];
    [exact Hs|exact IsSpace_RuneError].
Qed.

(** A string whose first rune is not white space is not blank. *)
Lemma blank_first_rune s :
  s <> "" -> IsSpace (DecodeRuneInString s).1 = false -> blank s = false.
Proof.
  intros Hne Hs. unfold blank, indexFunc.
  destruct s as [|c t]; [congruence|].
  cbn [String.length indexFunc_loop String.eqb].
  destruct (DecodeRuneInString (String c t)) as [r size].
  cbn [fst] in Hs. rewrite Hs. reflexivity.
Qed.

Lemma string_drop_drop : forall a b s,
  string_drop a (string_drop b s) = string_drop (b + a) s.
Proof.
  intros a b. induction b as [|b IH]; intros s; [reflexivity|].
  destruct s as [|c t]; cbn [string_drop Nat.add].
  - destruct a; reflexivity.
  - apply IH.
Qed.

Lemma indexFunc_loop_found f : forall fuel rest i,
  0 <= i ->
  indexFunc_loop fuel rest i f false <> -1 ->
  exists j,
    indexFunc_loop fuel rest i f false = i + Z.of_nat j /\
    string_drop j rest <> "" /\
    f (DecodeRuneInString (string_drop j rest)).1 = false.
Proof.
  induction fuel as [|fuel IH]; intros rest i Hi Hfound;
    cbn [indexFunc_loop] in *; [congruence|].
  destruct (String.eqb_spec rest "") as [->|Hne]; [congruence|].
  destruct (DecodeRuneInString rest) as [r size] eqn:Hdec.
  destruct (f r) eqn:Hf; cbn [Bool.eqb] in *.
  - destruct (IH (string_drop size rest) (i + Z.of_nat size) ltac:(lia) Hfound)
      as (j & Hj & Hrest & Hrune).
    exists (size + j)%nat. rewrite string_drop_drop in Hrest, Hrune.
    split; [rewrite Hj; lia|]. split; assumption.
  - exists O. cbn [string_drop]. rewrite Hdec.
    split; [lia|]. split; assumption.
Qed.

Lemma TrimLeftFunc_first s f :
  TrimLeftFunc s f = "" \/ f (DecodeRuneInString (TrimLeftFunc s f)).1 = false.
Proof.
  unfold TrimLeftFunc.
  destruct (Z.eqb_spec (indexFunc s f false) (-1)) as [Heq|Hne]; [left; reflexivity|].
  right. unfold indexFunc in *.
  destruct (indexFunc_loop_found f _ s 0 ltac:(lia) Hne) as (j & Hj & _ & Hrune).
  rewrite Hj. replace (Z.to_nat (0 + Z.of_nat j)) with j by lia. exact Hrune.
Qed.

Lemma TrimRightFunc_take s f : exists k, TrimRightFunc s f = string_take k s.
Proof. unfold TrimRightFunc. eexists. reflexivity. Qed.

Lemma trimmed_take k s : trimmed s -> trimmed (string_take k s).
Proof.
  intros [-> | Hs].
  - left. destruct k; reflexivity.
  - destruct k as [|k]; [left; reflexivity|].
    right. apply first_rune_take; [lia|exact Hs].
Qed.

Lemma TrimFunc_trimmed s : trimmed (TrimFunc s IsSpace).
Proof.
  unfold TrimFunc.
  destruct (TrimRightFunc_take (TrimLeftFunc s IsSpace) IsSpace) as [k ->].
  apply trimmed_take. apply TrimLeftFunc_first.
Qed.

Lemma IsSpace_ascii c :
  0 <= c < 128 -> asciiSpace c = false -> IsSpace c = false.
Proof.
  intros Hc Ha. unfold IsSpace, asciiSpace in *.
  rewrite to_uint_small by lia.
  destruct (Z.leb_spec c 255); [|lia].
  cbn [existsb] in *.
  repeat match goal with
         | |- context [c =? ?v] => destruct (Z.eqb_spec c v); try lia
         | H : context [c =? ?v] |- _ => destruct (Z.eqb_spec c v); try lia
         end; cbn in *; congruence.
Qed.

Lemma byte_val_range c : 0 <= byte_val c < 256.
Proof.
  unfold byte_val. pose proof (N_ascii_bounded c). lia.
Qed.

Lemma DecodeRune_ascii c t :
  byte_val c < 128 -> DecodeRuneInString (String c t) = (byte_val c, 1%nat).
Proof.
  intros Hc. unfold DecodeRuneInString, DecodeRune_bytes, utf8_first.
  cbn [String.length Nat.ltb Nat.leb].
  change (byteAt (String c t) 0) with (byte_val c).
  destruct (Z.ltb_spec (byte_val c) 128); [|lia]. reflexivity.
Qed.

Lemma TrimSpace_stop_trimmed c t :
  byte_val c < 128 -> asciiSpace (byte_val c) = false ->
  forall stop, trimmed (TrimSpace_stop (String c t) stop).
Proof.
  intros Hc Ha.
  assert (Hu : trimmed (String c t)).
  { right. rewrite DecodeRune_ascii by exact Hc. cbn [fst].
    apply IsSpace_ascii; [pose proof (byte_val_range c); lia|exact Ha]. }
  induction stop as [|stop IH]; cbn [TrimSpace_stop]; [left; reflexivity|].
  destruct (RuneSelf <=? byteAt (String c t) stop).
  - destruct (TrimRightFunc_take (string_take (S stop) (String c t)) IsSpace) as [k ->].
    rewrite take_take. apply trimmed_take. exact Hu.
  - destruct (asciiSpace (byteAt (String c t) stop)); [exact IH|].
    apply trimmed_take. exact Hu.
Qed.

Lemma TrimSpace_trimmed : forall s, trimmed (TrimSpace s).
Proof.
  induction s as [|c t IH]; cbn [TrimSpace]; [left; reflexivity|].
  unfold RuneSelf.
  destruct (Z.leb_spec 128 (byte_val c)); [apply TrimFunc_trimmed|].
  destruct (asciiSpace (byte_val c)) eqn:Ha; [exact IH|].
  apply TrimSpace_stop_trimmed; [lia|exact Ha].
Qed.

(** What [TrimSpace] returns is empty or not blank. *)
Lemma TrimSpace_not_blank v : TrimSpace v <> "" -> blank (TrimSpace v) = false.
Proof.
  intros Hne. destruct (TrimSpace_trimmed v) as [Heq|Hs]; [congruence|].
  apply blank_first_rune; assumption.
Qed.

(* ================================================================ *)
(** ** The statistics accumulator *)
(* ================================================================ *)

Lemma stats_ok_same st st' :
  rdsPI st' = rdsPI st -> rdsPS st' = rdsPS st -> stats_ok st -> stats_ok st'.
Proof. unfold stats_ok. intros -> ->. exact id. Qed.

Lemma property_changed_stats_ok message w sequence :
  stats_ok (receiveStats w) ->
  stats_ok (receiveStats (property_changed message w sequence).1).
Proof.
  intros Hok. unfold property_changed.
  repeat match goal with
         | |- context [if ?b then _ else _] => destruct b eqn:?
         end;
    cbn [fst receiveStats with_stats with_settings];
    try exact Hok;
    try (apply (stats_ok_same (receiveStats w)); [reflexivity|reflexivity|exact Hok]).
  - (* rds_pi *)
    destruct Hok as [Hpi Hps]. split; [|exact Hps].
    cbn [rdsPI set_rdsPI]. apply Forall_app. split; [exact Hpi|].
    constructor; [|constructor].
    pose proof (ParseUint_16_range (Value message)) as Hr.
    match goal with
    | H : negb (_ =? 0) = true |- _ =>
        apply negb_true_iff, Z.eqb_neq in H
    end.
    unfold uint16, is_uint. rewrite to_uint_small by lia. lia.
  - (* rds_ps *)
    destruct Hok as [Hpi Hps]. split; [exact Hpi|].
    cbn [rdsPS set_rdsPS]. apply Forall_app. split; [exact Hps|].
    constructor; [|constructor].
    match goal with
    | H : negb (String.eqb _ "") = true |- _ =>
        apply negb_true_iff, String.eqb_neq in H
    end.
    split; [assumption|]. apply TrimSpace_not_blank. assumption.
Qed.

Lemma receiveMessages_loop_stats_ok sequencePattern :
  forall events sequence paused w,
    stats_ok (receiveStats w) ->
    stats_ok (receiveStats
                (world (receiveMessages_loop sequencePattern events sequence paused w))).
Proof.
  induction events as [|ev events IH]; intros sequence paused w Hok;
    cbn [receiveMessages_loop]; [exact Hok|].
  assert (Hkeys : stats_ok (receiveStats (getKeyPresses (keys ev) w)))
    by (rewrite getKeyPresses_stats; exact Hok).
  assert (Hcount : stats_ok (receiveStats (count_message (getKeyPresses (keys ev) w))))
    by (eapply stats_ok_same; [| |exact Hkeys]; reflexivity).
  destruct (received ev) as [message|err]; [|exact Hkeys].
  destruct (userCommandTerminate _); [exact Hcount|].
  destruct (userCommandNextScan _); [exact Hcount|].
  destruct (userCommandTogglePause _);
    (destruct (String.eqb (EventType message) "property_changed");
     [match goal with
      | |- context [property_changed message ?w0 sequence] =>
          pose proof (property_changed_stats_ok message w0 sequence Hcount) as Hpc;
          destruct (property_changed message w0 sequence) as [w2 sequence2]
      end;
      cbn [fst] in Hpc;
      destruct sequencePattern as [pattern|];
      [destruct (MatchString pattern sequence2); [exact Hpc|]|];
      apply IH; exact Hpc
     |apply IH; exact Hcount]).
Qed.

(** C10: the statistics accumulator never stores a station identifier
    equal to 0, nor a station name that is empty or all white space:
    the statistics are so when they are cleared, and every call of
    [receiveMessages] keeps them so, whether it has returned or is still
    waiting.  An rds_pi message whose parsed value is 0, and an rds_ps
    message whose trimmed value is empty, changes nothing at all; any
    other one appends at most the parsed identifier, resp. the trimmed
    name. *)
Theorem receiveMessages_rds_invariant :
  stats_ok clearStats /\
  (forall sequencePattern timeout events w,
     stats_ok (receiveStats w) ->
     stats_ok (receiveStats
                 (world (receiveMessages sequencePattern timeout events w)))) /\
  (forall value w sequence,
     (ParseUint value 10 16).1 = 0 ->
     property_changed (changed "rds_pi" value) w sequence = (w, sequence)) /\
  (forall value w sequence,
     TrimSpace value = "" ->
     property_changed (changed "rds_ps" value) w sequence = (w, sequence)) /\
  (forall value w sequence,
     rdsPI (receiveStats (property_changed (changed "rds_pi" value) w sequence).1) =
       rdsPI (receiveStats w) \/
     (ParseUint value 10 16).1 <> 0 /\
     rdsPI (receiveStats (property_changed (changed "rds_pi" value) w sequence).1) =
       rdsPI (receiveStats w) ++ [(ParseUint value 10 16).1]) /\
  (forall value w sequence,
     rdsPS (receiveStats (property_changed (changed "rds_ps" value) w sequence).1) =
       rdsPS (receiveStats w) \/
     TrimSpace value <> "" /\
     rdsPS (receiveStats (property_changed (changed "rds_ps" value) w sequence).1) =
       rdsPS (receiveStats w) ++ [TrimSpace value]).
Proof.
  split; [split; constructor|].
  split.
  { intros sequencePattern timeout events w Hok. unfold receiveMessages.
    apply receiveMessages_loop_stats_ok. exact Hok. }
  split.
  { intros value w sequence Hzero. unfold property_changed, changed.
    cbn [Property Value String.eqb Ascii.eqb Bool.eqb].
    rewrite Hzero. cbn. destruct (below_cap _); reflexivity. }
  split.
  { intros value w sequence Hempty. unfold property_changed, changed.
    cbn [Property Value String.eqb Ascii.eqb Bool.eqb].
    rewrite Hempty. cbn. destruct (below_cap _); reflexivity. }
  split.
  { intros value w sequence. unfold property_changed, changed.
    cbn [Property Value String.eqb Ascii.eqb Bool.eqb].
    destruct (below_cap _); [|left; reflexivity].
    destruct (Z.eqb_spec (ParseUint value 10 16).1 0) as [Hz|Hnz];
      cbn [negb fst]; [left; reflexivity|].
    right. split; [exact Hnz|].
    cbn [receiveStats with_stats rdsPI set_rdsPI].
    pose proof (ParseUint_16_range value).
    unfold uint16. rewrite to_uint_small by lia. reflexivity. }
  { intros value w sequence. unfold property_changed, changed.
    cbn [Property Value String.eqb Ascii.eqb Bool.eqb].
    destruct (below_cap _); [|left; reflexivity].
    destruct (String.eqb_spec (TrimSpace value) "") as [Hz|Hnz];
      cbn [negb fst]; [left; reflexivity|].
    right. split; [exact Hnz|]. reflexivity. }
Qed.

(* ================================================================ *)
(** ** Frequency plans: when a range ends *)
(* ================================================================ *)

(** One wrap of a 64-bit addition or subtraction. *)
Lemma uint64_wrap_up z : 2 ^ 64 <= z < 2 ^ 65 -> uint64 z = z - 2 ^ 64.
Proof.
  intros H. unfold uint64, to_uint.
  rewrite <- (Z_mod_plus_full z (-1) (2 ^ 64)).
  apply Z.mod_small. lia.
Qed.

Lemma uint64_wrap_down z : - 2 ^ 64 <= z < 0 -> uint64 z = z + 2 ^ 64.
Proof.
  intros H. unfold uint64, to_uint.
  rewrite <- (Z_mod_plus_full z 1 (2 ^ 64)).
  apply Z.mod_small. lia.
Qed.

Lemma rangeUp_past fuel freq stop step idx :
  stop < freq -> rangeUp fuel freq stop step idx = ([], true).
Proof.
  intros H. destruct fuel; cbn [rangeUp];
    (destruct (Z.leb_spec freq stop); [lia|reflexivity]).
Qed.

Lemma rangeDown_past fuel freq stop step idx :
  freq < stop -> rangeDown fuel freq stop step idx = ([], true).
Proof.
  intros H. destruct fuel; cbn [rangeDown];
    (destruct (Z.leb_spec stop freq); [lia|reflexivity]).
Qed.

(** The run of the ascending loop from [start], whose last value in
    range is [last]: it closes when [last + step] is still a uint64, and
    goes on from [last + step - 2^64] when it is not. *)
Lemma rangeUp_run stop step :
  0 < step < 2 ^ 63 -> stop < 2 ^ 64 ->
  forall n start idx,
    0 <= start <= stop -> Z.to_nat ((stop - start) / step) = n ->
    let last := start + (stop - start) / step * step in
    (last + step < 2 ^ 64 ->
     forall fuel, (S n <= fuel)%nat ->
       exists plan,
         rangeUp fuel start stop step idx = (plan, true) /\
         map frequency plan = ascending start stop step) /\
    (2 ^ 64 <= last + step ->
     exists plan,
       rangeUp (S (S n)) start stop step idx = (plan, false) /\
       map frequency plan = ascending start stop step ++ [last + step - 2 ^ 64]).
Proof.
  intros Hstep Hstop. induction n as [|n IH]; intros start idx Hstart Hn last.
  - assert (Hq : (stop - start) / step = 0).
    { assert (0 <= (stop - start) / step) by (apply Z.div_pos; lia). lia. }
    assert (Hlt : stop < start + step).
    { apply Z.div_small_iff in Hq; lia. }
    subst last. rewrite Hq, Z.mul_0_l, Z.add_0_r.
    rewrite ascending_cons, (ascending_nil (start + step)) by lia.
    split.
    + intros Hmax fuel Hfuel. destruct fuel as [|fuel]; [lia|].
      cbn [rangeUp]. destruct (Z.leb_spec start stop); [|lia].
      rewrite uint64_small by lia. rewrite rangeUp_past by lia.
      eexists. split; reflexivity.
    + intros Hwrap. cbn [rangeUp].
      destruct (Z.leb_spec start stop); [|lia].
      assert (Hnext : uint64 (start + step) = start + step - 2 ^ 64)
        by (apply uint64_wrap_up; lia).
      rewrite Hnext.
      destruct (Z.leb_spec (start + step - 2 ^ 64) stop); [|lia].
      rewrite (uint64_small (start + step - 2 ^ 64 + step)) by lia.
      destruct (Z.leb_spec (start + step - 2 ^ 64 + step) stop); [|lia].
      eexists. split; reflexivity.
  - assert (Hq : (stop - start) / step = Z.of_nat (S n)) by lia.
    assert (Hle : start + step <= stop).
    { assert (1 <= (stop - start) / step) by lia.
      pose proof (Z.mul_div_le (stop - start) step ltac:(lia)). nia. }
    assert (Hq' : (stop - (start + step)) / step = Z.of_nat n).
    { replace (stop - (start + step)) with (stop - start + (-1) * step) by ring.
      rewrite Z.div_add by lia. lia. }
    assert (Hlast : last = start + step + (stop - (start + step)) / step * step).
    { subst last. rewrite Hq, Hq'. lia. }
    destruct (IH (start + step) (int64 (idx + 1)) ltac:(lia) ltac:(lia))
      as [Hclose Hopen].
    rewrite ascending_cons by lia.
    split.
    + intros Hmax fuel Hfuel. destruct fuel as [|fuel]; [lia|].
      cbn [rangeUp]. destruct (Z.leb_spec start stop); [|lia].
      rewrite uint64_small by lia.
      destruct (Hclose ltac:(lia) fuel ltac:(lia)) as (plan & Hrun & Hfreq).
      rewrite Hrun. eexists. split; [reflexivity|].
      cbn [map frequency]. rewrite Hfreq. reflexivity.
    + intros Hwrap.
      destruct (Hopen ltac:(lia)) as (plan & Hrun & Hfreq).
      cbn [rangeUp] in Hrun |- *. destruct (Z.leb_spec start stop); [|lia].
      rewrite uint64_small by lia.
      cbn [rangeUp]. rewrite Hrun. eexists. split; [reflexivity|].
      cbn [map frequency app]. rewrite Hfreq, Hlast. reflexivity.
Qed.

(** The same downwards: the loop closes when [last - step] is not
    negative, and goes on from [last - step + 2^64] when it is. *)
Lemma rangeDown_run stop step :
  0 < step <= 2 ^ 63 -> 0 <= stop ->
  forall n start idx,
    stop <= start < 2 ^ 64 -> Z.to_nat ((start - stop) / step) = n ->
    let last := start - (start - stop) / step * step in
    (step <= last ->
     forall fuel, (S n <= fuel)%nat ->
       exists plan,
         rangeDown fuel start stop step idx = (plan, true) /\
         map frequency plan = descending start stop step) /\
    (last < step ->
     exists plan,
       rangeDown (S (S n)) start stop step idx = (plan, false) /\
       map frequency plan = descending start stop step ++ [last - step + 2 ^ 64]).
Proof.
  intros Hstep Hstop. induction n as [|n IH]; intros start idx Hstart Hn last.
  - assert (Hq : (start - stop) / step = 0).
    { assert (0 <= (start - stop) / step) by (apply Z.div_pos; lia). lia. }
    assert (Hlt : start - step < stop).
    { apply Z.div_small_iff in Hq; lia. }
    subst last. rewrite Hq, Z.mul_0_l, Z.sub_0_r.
    rewrite descending_cons, (descending_nil (start - step)) by lia.
    split.
    + intros Hmin fuel Hfuel. destruct fuel as [|fuel]; [lia|].
      cbn [rangeDown]. destruct (Z.leb_spec stop start); [|lia].
      rewrite uint64_small by lia. rewrite rangeDown_past by lia.
      eexists. split; reflexivity.
    + intros Hwrap. cbn [rangeDown].
      destruct (Z.leb_spec stop start); [|lia].
      assert (Hnext : uint64 (start - step) = start - step + 2 ^ 64)
        by (apply uint64_wrap_down; lia).
      rewrite Hnext.
      destruct (Z.leb_spec stop (start - step + 2 ^ 64)); [|lia].
      rewrite (uint64_small (start - step + 2 ^ 64 - step)) by lia.
      destruct (Z.leb_spec stop (start - step + 2 ^ 64 - step)); [|lia].
      eexists. split; reflexivity.
  - assert (Hq : (start - stop) / step = Z.of_nat (S n)) by lia.
    assert (Hle : stop <= start - step).
    { assert (1 <= (start - stop) / step) by lia.
      pose proof (Z.mul_div_le (start - stop) step ltac:(lia)). nia. }
    assert (Hq' : (start - step - stop) / step = Z.of_nat n).
    { replace (start - step - stop) with (start - stop + (-1) * step) by ring.
      rewrite Z.div_add by lia. lia. }
    assert (Hlast : last = start - step - (start - step - stop) / step * step).
    { subst last. rewrite Hq, Hq'. lia. }
    destruct (IH (start - step) (int64 (idx + 1)) ltac:(lia) ltac:(lia))
      as [Hclose Hopen].
    rewrite descending_cons by lia.
    split.
    + intros Hmin fuel Hfuel. destruct fuel as [|fuel]; [lia|].
      cbn [rangeDown]. destruct (Z.leb_spec stop start); [|lia].
      rewrite uint64_small by lia.
      destruct (Hclose ltac:(lia) fuel ltac:(lia)) as (plan & Hrun & Hfreq).
      rewrite Hrun. eexists. split; [reflexivity|].
      cbn [map frequency]. rewrite Hfreq. reflexivity.
    + intros Hwrap.
      destruct (Hopen ltac:(lia)) as (plan & Hrun & Hfreq).
      cbn [rangeDown] in Hrun |- *. destruct (Z.leb_spec stop start); [|lia].
      rewrite uint64_small by lia.
      cbn [rangeDown]. rewrite Hrun. eexists. split; [reflexivity|].
      cbn [map frequency app]. rewrite Hfreq, Hlast. reflexivity.
Qed.

(** X1: a range with a positive step and [Start <= Stop].  The last
    frequency within the range, [last], is at most [Stop] and above
    [Stop - Step].  If [last + Step] is still a 64-bit value, the
    generator sends exactly [Start], [Start + Step], ..., [last] and
    closes the channel, and the items carry the indexes 0, 1, ...  If
    [last + Step] passes 2^64, the addition wraps: after [last] the
    generator sends [last + Step - 2^64] and the channel is still
    open. *)
Theorem getScanFrequenciesAndIndexes_range_up scan :
  Scan.wf scan -> 0 < Scan.Step scan -> Scan.Start scan <= Scan.Stop scan ->
  Scan.Stop scan - Scan.Step scan <
    last_ascending (Scan.Start scan) (Scan.Stop scan) (Scan.Step scan) <=
    Scan.Stop scan /\
  (last_ascending (Scan.Start scan) (Scan.Stop scan) (Scan.Step scan) +
     Scan.Step scan < 2 ^ 64 ->
   exists plan,
     yields scan plan /\
     map frequency plan =
       ascending (Scan.Start scan) (Scan.Stop scan) (Scan.Step scan) /\
     (Z.of_nat (length plan) <= 2 ^ 63 -> well_indexed 0 plan)) /\
  (2 ^ 64 <=
     last_ascending (Scan.Start scan) (Scan.Stop scan) (Scan.Step scan) +
     Scan.Step scan ->
   exists fuel plan,
     getScanFrequenciesAndIndexes fuel scan = (plan, false) /\
     map frequency plan =
       ascending (Scan.Start scan) (Scan.Stop scan) (Scan.Step scan) ++
       [last_ascending (Scan.Start scan) (Scan.Stop scan) (Scan.Step scan) +
        Scan.Step scan - 2 ^ 64]).
Proof.
  intros Hwf Hpos Hle.
  pose proof Hwf as (Hstart & Hstop & Hstep & _).
  unfold is_uint, is_int in *. change (2 ^ (64 - 1)) with (2 ^ 63) in Hstep.
  split; [apply ascending_spec; lia|].
  destruct (rangeUp_run (Scan.Stop scan) (Scan.Step scan) ltac:(lia) ltac:(lia)
              _ (Scan.Start scan) 0 ltac:(lia) eq_refl) as [Hclose Hopen].
  fold (last_ascending (Scan.Start scan) (Scan.Stop scan) (Scan.Step scan))
    in Hclose, Hopen.
  assert (Hgen : forall fuel,
            getScanFrequenciesAndIndexes fuel scan =
            rangeUp fuel (Scan.Start scan) (Scan.Stop scan) (Scan.Step scan) 0).
  { intros fuel. unfold getScanFrequenciesAndIndexes.
    destruct (Z.ltb_spec 0 (Scan.Step scan)); [|lia].
    rewrite uint64_small by lia. reflexivity. }
  split.
  - intros Hmax. destruct (Hclose Hmax _ (Nat.le_refl _)) as (plan & Hrun & Hfreq).
    exists plan. rewrite <- Hgen in Hrun.
    split; [eexists; exact Hrun|]. split; [exact Hfreq|].
    intros Hlen. exact (generator_well_indexed _ _ _ _ Hwf Hrun Hlen).
  - intros Hwrap. destruct (Hopen Hwrap) as (plan & Hrun & Hfreq).
    rewrite <- Hgen in Hrun. eexists. exists plan. split; [exact Hrun|exact Hfreq].
Qed.

(** X2: a range with a negative step and [Stop <= Start]; [step] is
    [-Step].  The last frequency within the range, [last], is at least
    [Stop] and below [Stop + step].  If [last - step] is not negative,
    the generator sends exactly [Start], [Start - step], ..., [last] and
    closes the channel.  If [last < step], the unsigned subtraction
    wraps: after [last] the generator sends [last - step + 2^64] and the
    channel is still open. *)
Theorem getScanFrequenciesAndIndexes_range_down scan :
  Scan.wf scan -> Scan.Step scan < 0 -> Scan.Stop scan <= Scan.Start scan ->
  Scan.Stop scan <=
    last_descending (Scan.Start scan) (Scan.Stop scan) (- Scan.Step scan) <
    Scan.Stop scan - Scan.Step scan /\
  (- Scan.Step scan <=
     last_descending (Scan.Start scan) (Scan.Stop scan) (- Scan.Step scan) ->
   exists plan,
     yields scan plan /\
     map frequency plan =
       descending (Scan.Start scan) (Scan.Stop scan) (- Scan.Step scan) /\
     (Z.of_nat (length plan) <= 2 ^ 63 -> well_indexed 0 plan)) /\
  (last_descending (Scan.Start scan) (Scan.Stop scan) (- Scan.Step scan) <
     - Scan.Step scan ->
   exists fuel plan,
     getScanFrequenciesAndIndexes fuel scan = (plan, false) /\
     map frequency plan =
       descending (Scan.Start scan) (Scan.Stop scan) (- Scan.Step scan) ++
       [last_descending (Scan.Start scan) (Scan.Stop scan) (- Scan.Step scan) +
        Scan.Step scan + 2 ^ 64]).
Proof.
  intros Hwf Hneg Hle.
  pose proof Hwf as (Hstart & Hstop & Hstep & _).
  unfold is_uint, is_int in *. change (2 ^ (64 - 1)) with (2 ^ 63) in Hstep.
  split.
  { pose proof (descending_spec (Scan.Start scan) (Scan.Stop scan) (- Scan.Step scan)
                  ltac:(lia) Hle) as [_ H].
    unfold last_descending. lia. }
  destruct (rangeDown_run (Scan.Stop scan) (- Scan.Step scan) ltac:(lia) ltac:(lia)
              _ (Scan.Start scan) 0 ltac:(lia) eq_refl) as [Hclose Hopen].
  fold (last_descending (Scan.Start scan) (Scan.Stop scan) (- Scan.Step scan))
    in Hclose, Hopen.
  assert (Hgen : forall fuel,
            getScanFrequenciesAndIndexes fuel scan =
            rangeDown fuel (Scan.Start scan) (Scan.Stop scan) (- Scan.Step scan) 0).
  { intros fuel. unfold getScanFrequenciesAndIndexes.
    destruct (Z.ltb_spec 0 (Scan.Step scan)); [lia|].
    destruct (Z.ltb_spec (Scan.Step scan) 0); [|lia].
    rewrite uint64_int64, uint64_small by lia. reflexivity. }
  split.
  - intros Hmin. destruct (Hclose Hmin _ (Nat.le_refl _)) as (plan & Hrun & Hfreq).
    exists plan. rewrite <- Hgen in Hrun.
    split; [eexists; exact Hrun|]. split; [exact Hfreq|].
    intros Hlen. exact (generator_well_indexed _ _ _ _ Hwf Hrun Hlen).
  - intros Hwrap. destruct (Hopen Hwrap) as (plan & Hrun & Hfreq).
    rewrite <- Hgen in Hrun. eexists. exists plan. split; [exact Hrun|].
    rewrite Hfreq. f_equal. f_equal. lia.
Qed.

(** X3: a scan given by a list (step 0) sends the frequencies of the
    list in the order of the list, each with its position as index, and
    closes the channel; the range fields play no part.  With an empty
    list nothing is sent and the channel is closed at once. *)
Theorem getScanFrequenciesAndIndexes_list scan :
  Scan.Step scan = 0 ->
  exists plan,
    yields scan plan /\
    map frequency plan = Scan.List scan /\
    (forall (i : nat) x, plan !! i = Some x -> index x = Z.of_nat i) /\
    (Scan.List scan = [] -> forall fuel, getScanFrequenciesAndIndexes fuel scan = ([], true)).
Proof.
  intros Hstep.
  assert (Hgen : forall fuel,
            getScanFrequenciesAndIndexes fuel scan = rangeList fuel (Scan.List scan) 0).
  { intros fuel. unfold getScanFrequenciesAndIndexes. rewrite Hstep.
    cbn [Z.ltb Z.compare].
    destruct (Scan.List scan) as [|f l]; [destruct fuel; reflexivity|].
    cbn [length]. destruct (Z.ltb_spec 0 (Z.of_nat (S (length l)))); [|lia].
    reflexivity. }
  destruct (rangeList_complete (Scan.List scan) (length (Scan.List scan)) 0
              ltac:(lia)) as (plan & Hrun & Hfreq).
  exists plan. split; [eexists; rewrite Hgen; exact Hrun|].
  split; [exact Hfreq|]. split.
  - assert (Hidx : forall l fuel idx sent closed,
              rangeList fuel l idx = (sent, closed) ->
              forall (i : nat) x, sent !! i = Some x -> index x = idx + Z.of_nat i).
    { induction l as [|f l IH]; intros fuel idx sent closed Hr i x Hx.
      - destruct fuel; cbn in Hr; injection Hr as <- <-; discriminate.
      - destruct fuel as [|fuel]; cbn [rangeList] in Hr;
          [injection Hr as <- <-; discriminate|].
        destruct (rangeList fuel l (idx + 1)) as [sent' c] eqn:Hrec.
        injection Hr as <- <-.
        destruct i as [|i]; cbn in Hx.
        + injection Hx as <-. cbn. lia.
        + rewrite (IH _ _ _ _ Hrec i x Hx). lia. }
    intros i x Hx. rewrite (Hidx _ _ _ _ _ Hrun i x Hx). lia.
  - intros Hnil fuel. rewrite Hgen, Hnil. destruct fuel; reflexivity.
Qed.

(* ================================================================ *)
(** ** The plan with its LO frequencies *)
(* ================================================================ *)

Lemma covers_from_ge : forall spans a hi,
  covers a spans hi -> Forall (fun s => a <= LOSpan.from s) spans.
Proof.
  induction spans as [|s spans IH]; intros a hi Hc; [constructor|].
  cbn [covers] in Hc. destruct Hc as (Hfrom & Hle & Hrest).
  constructor; [lia|].
  eapply Forall_impl; [exact (IH _ _ Hrest)|].
  cbn. intros s' Hs'. lia.
Qed.

Lemma covers_length : forall spans a hi,
  covers a spans hi -> a + Z.of_nat (length spans) <= hi + 1.
Proof.
  induction spans as [|s spans IH]; intros a hi Hc; cbn [covers length] in *.
  - lia.
  - destruct Hc as (Hfrom & Hle & Hrest). pose proof (IH _ _ Hrest). lia.
Qed.

Lemma lo_at_skip done later idx :
  Forall (fun s => LOSpan.from s <> idx) done ->
  lo_at (done ++ later) idx = lo_at later idx.
Proof.
  unfold lo_at. induction done as [|s done IH]; intros Hall; [reflexivity|].
  inversion Hall as [|? ? Hs Hrest]; subst. cbn [app List.find].
  destruct (Z.eqb_spec (LOSpan.from s) idx); [contradiction|].
  apply IH. exact Hrest.
Qed.

Lemma lo_at_none later idx :
  Forall (fun s => LOSpan.from s <> idx) later -> lo_at later idx = 0.
Proof.
  intros H. rewrite <- (app_nil_r later). rewrite lo_at_skip by exact H.
  reflexivity.
Qed.

Lemma at_index_length {A} (done later : list A) :
  at_index (done ++ later) (Z.of_nat (length done)) = head later.
Proof.
  unfold at_index. destruct (Z.leb_spec 0 (Z.of_nat (length done))); [|lia].
  rewrite Nat2Z.id, lookup_app_r by lia. rewrite Nat.sub_diag.
  destruct later; reflexivity.
Qed.

(** The loop over the plan, when [done] are the spans already handed out
    and [later] the ones still to come. *)
Lemma LOFrequencies_loop_covers : forall plan done later a hi i,
  covers a later hi -> 0 <= i <= a ->
  Forall (fun s => LOSpan.from s < i) done ->
  (forall (n : nat) x, plan !! n = Some x -> index x = i + Z.of_nat n) ->
  Z.of_nat (length (done ++ later)) < 2 ^ 63 ->
  LOFrequencies_loop (done ++ later) (Z.of_nat (length done))
    (match later with s :: _ => LOSpan.from s | [] => -1 end) plan =
  (map (fun x => {| FrequencyAndLOFrequency.frequency := frequency x;
                    FrequencyAndLOFrequency.loFrequency :=
                      lo_at (done ++ later) (index x) |}) plan,
   false).
Proof.
  induction plan as [|x plan IH]; intros done later a hi i Hcov Hi Hdone Hidx Hlen;
    [reflexivity|].
  assert (Hx : index x = i) by (rewrite (Hidx 0%nat x eq_refl); lia).
  assert (Hrest : forall (n : nat) y, plan !! n = Some y -> index y = (i + 1) + Z.of_nat n).
  { intros n y Hy. rewrite (Hidx (S n) y Hy). lia. }
  assert (Hskip : Forall (fun s => LOSpan.from s <> i) done).
  { eapply Forall_impl; [exact Hdone|]. cbn. intros s Hs. lia. }
  pose proof (covers_from_ge _ _ _ Hcov) as Hge.
  cbn [LOFrequencies_loop map]. rewrite Hx.
  destruct later as [|s later].
  - destruct (Z.eqb_spec i (-1)); [lia|].
    rewrite (IH done [] (i + 1) i (i + 1)); try assumption.
    + rewrite lo_at_skip by exact Hskip. reflexivity.
    + reflexivity.
    + lia.
    + eapply Forall_impl; [exact Hdone|]. cbn. intros s Hs. lia.
  - cbn [covers] in Hcov. destruct Hcov as (Hfrom & Hle & Hcov').
    destruct (Z.eqb_spec i (LOSpan.from s)) as [Heq|Hne].
    + rewrite at_index_length. cbn [head].
      rewrite length_app in Hlen. cbn [length] in Hlen.
      rewrite int64_small by lia.
      replace (Z.of_nat (length done) + 1) with (Z.of_nat (length (done ++ [s])))
        by (rewrite length_app; cbn [length]; lia).
      replace (done ++ s :: later) with ((done ++ [s]) ++ later)
        by (rewrite <- app_assoc; reflexivity).
      rewrite at_index_length.
      assert (Hnext : (if Z.of_nat (length (done ++ [s])) <?
                          Z.of_nat (length ((done ++ [s]) ++ later))
                       then LOSpan.from <$> head later else Some (-1)) =
                      Some (match later with s' :: _ => LOSpan.from s' | [] => -1 end)).
      { rewrite (length_app (done ++ [s]) later).
        destruct later as [|s' later']; cbn [length head fmap option_fmap option_map].
        - destruct (Z.ltb_spec (Z.of_nat (length (done ++ [s])))
                      (Z.of_nat (length (done ++ [s]) + 0))); [lia|reflexivity].
        - destruct (Z.ltb_spec (Z.of_nat (length (done ++ [s])))
                      (Z.of_nat (length (done ++ [s]) + S (length later'))));
            [reflexivity|lia]. }
      rewrite Hnext.
      rewrite (IH (done ++ [s]) later (LOSpan.to s + 1) hi (i + 1) Hcov');
        try assumption.
      * f_equal. f_equal. f_equal.
        rewrite <- app_assoc. cbn [app]. rewrite lo_at_skip by exact Hskip.
        unfold lo_at. cbn [List.find].
        destruct (Z.eqb_spec (LOSpan.from s) i); [reflexivity|lia].
      * lia.
      * apply Forall_app. split.
        -- eapply Forall_impl; [exact Hdone|]. cbn. intros s0 Hs0. lia.
        -- constructor; [lia|constructor].
      * rewrite length_app in *. cbn [length] in *. rewrite length_app. cbn [length]. lia.
    + rewrite (IH done (s :: later) a hi (i + 1)); try assumption.
      * f_equal. f_equal. f_equal.
        rewrite lo_at_skip by exact Hskip. symmetry. apply lo_at_none.
        eapply Forall_impl; [exact Hge|]. cbn. intros s0 Hs0. lia.
      * cbn [covers]. repeat split; assumption.
      * lia.
      * eapply Forall_impl; [exact Hdone|]. cbn. intros s0 Hs0. lia.
Qed.

Lemma getScanFrequenciesAndIndexes_set_LOSpans fuel loSpans scan :
  getScanFrequenciesAndIndexes fuel (set_LOSpans loSpans scan) =
  getScanFrequenciesAndIndexes fuel scan.
Proof. reflexivity. Qed.

(** The spans of any closed plan, even an empty one, start with a span
    from index 0 and cover consecutive indexes. *)
Lemma getLOSpans_walk_covers maxDf LOOffset plan :
  0 <= maxDf -> well_indexed 0 plan ->
  exists hi,
    covers 0 (getLOSpans_walk maxDf LOOffset plan) hi /\
    hi < Z.max (Z.of_nat (length plan)) 1.
Proof.
  intros HmaxDf Hwi. destruct plan as [|x plan].
  - exists 0. split; [|cbn; lia].
    cbn. repeat split; lia.
  - destruct (getLOSpans_walk_spec maxDf LOOffset (x :: plan) HmaxDf
                ltac:(discriminate) Hwi) as (Hcov & _).
    eexists. split; [exact Hcov|]. cbn [length]. lia.
Qed.

(** The generator on the spans that [getLOSpans] has planned. *)
Lemma getScanFrequenciesAndLOFrequencies_planned fuel settings scan plan spans :
  Scan.wf scan ->
  getScanFrequenciesAndIndexes fuel scan = (plan, true) ->
  Z.of_nat (length plan) < 2 ^ 63 ->
  getLOSpans fuel settings scan = Some spans ->
  (exists s, head spans = Some s /\ LOSpan.from s = 0) /\
  getScanFrequenciesAndLOFrequencies fuel (set_LOSpans (Some spans) scan) =
    (map (fun x => {| FrequencyAndLOFrequency.frequency := frequency x;
                      FrequencyAndLOFrequency.loFrequency := lo_at spans (index x) |})
         plan,
     ChanClosed).
Proof.
  intros Hwf Hrun Hlen Hspans.
  pose proof (generator_well_indexed _ _ _ _ Hwf Hrun ltac:(lia)) as Hwi.
  unfold getLOSpans in Hspans. rewrite Hrun in Hspans. injection Hspans as <-.
  assert (HmaxDf : 0 <= getLOSpans_maxDf settings scan)
    by (unfold getLOSpans_maxDf; apply uint64_range).
  destruct (getLOSpans_walk_covers (getLOSpans_maxDf settings scan)
              (Scan.LOOffset scan) plan HmaxDf Hwi) as (hi & Hcov & Hhi).
  remember (getLOSpans_walk (getLOSpans_maxDf settings scan)
              (Scan.LOOffset scan) plan) as spans eqn:Hs.
  pose proof (covers_length _ _ _ Hcov) as Hn.
  destruct spans as [|s spans'].
  { unfold getLOSpans_walk, getLOSpans_finish in Hs.
    symmetry in Hs. apply app_eq_nil in Hs. destruct Hs as [_ Hs]. discriminate. }
  assert (Hfrom : LOSpan.from s = 0)
    by (cbn [covers] in Hcov; destruct Hcov as (H & _); exact H).
  split; [exists s; split; [reflexivity|exact Hfrom]|].
  unfold getScanFrequenciesAndLOFrequencies.
  rewrite getScanFrequenciesAndIndexes_set_LOSpans, Hrun.
  cbn [Scan.LOSpans set_LOSpans from_option id].
  change (at_index (s :: spans') 0) with (Some s). cbn iota.
  pose proof (LOFrequencies_loop_covers plan [] (s :: spans') 0 hi 0 Hcov
                ltac:(lia) ltac:(constructor)) as Hloop.
  cbn [app] in Hloop. change (Z.of_nat (length [])) with 0 in Hloop.
  rewrite Hloop; [reflexivity| |].
  - destruct Hwi as [_ Hidx]. exact Hidx.
  - cbn [length] in *. lia.
Qed.

(** X4: the LO spans [initScan] stores in a scan and the generator
    [runScan] reads them with fit together.  For every plan that the
    frequency generator closes (the empty one included), [getLOSpans]
    returns at least one span and the first one starts at index 0, so
    the generator's first read [scan.LOSpans[0]] does not panic; it then
    sends the frequencies of the plan in their order, each span's centre
    frequency on the first item of the span and 0 on every other item,
    and closes the channel. *)
Theorem getScanFrequenciesAndLOFrequencies_of_getLOSpans fuel settings scan plan spans :
  Scan.wf scan ->
  getScanFrequenciesAndIndexes fuel scan = (plan, true) ->
  Z.of_nat (length plan) < 2 ^ 63 ->
  getLOSpans fuel settings scan = Some spans ->
  (exists s, head spans = Some s /\ LOSpan.from s = 0) /\
  getScanFrequenciesAndLOFrequencies fuel (set_LOSpans (Some spans) scan) =
    (map (fun x => {| FrequencyAndLOFrequency.frequency := frequency x;
                      FrequencyAndLOFrequency.loFrequency := lo_at spans (index x) |})
         plan,
     ChanClosed).
Proof. apply getScanFrequenciesAndLOFrequencies_planned. Qed.

(** X5: [getLOSpans] computes the available bandwidth in unsigned 32-bit
    arithmetic and does not test its sign.  When the filter bandwidth plus
    the size of the offset exceeds the IF bandwidth, so that
    [IFBandwidth - filterBandwidth - |offset|] is negative (and not below
    -2^32), the limit [maxDf] is that number plus 2^32: a limit of almost
    4.3 GHz instead of no room at all. *)
Theorem getLOSpans_maxDf_wraps settings scan :
  Settings.wf settings -> Scan.wf scan ->
  - 2 ^ 32 <=
    availableBandwidth (getIFBandwidth (Settings.SampleRate settings))
      (Settings.FilterBandwidth settings) (Scan.LOOffset scan) < 0 ->
  getLOSpans_maxDf settings scan =
  availableBandwidth (getIFBandwidth (Settings.SampleRate settings))
    (Settings.FilterBandwidth settings) (Scan.LOOffset scan) + 2 ^ 32.
Proof.
  intros (Hfb & _) (_ & _ & _ & _ & Hoff & _) Havail.
  unfold getLOSpans_maxDf, availableBandwidth in *.
  rewrite (abs_offset_uint32 _ Hoff).
  unfold uint32 at 1 2. unfold to_uint.
  rewrite Zminus_mod_idemp_l.
  rewrite <- (Z_mod_plus_full _ 1 (2 ^ 32)).
  rewrite Z.mod_small by lia.
  apply uint64_small. lia.
Qed.

(* ================================================================ *)
(** ** IF bandwidth and demodulator names *)
(* ================================================================ *)

Lemma largest_bucket_at_most_mono rate1 rate2 :
  rate1 <= rate2 -> largest_bucket_at_most rate1 <= largest_bucket_at_most rate2.
Proof.
  intros Hle. unfold largest_bucket_at_most, bandwidthskHz.
  cbn [List.filter].
  repeat match goal with
         | |- context [?a <=? ?b] => destruct (Z.leb_spec a b); try lia
         end; cbn [List.last]; lia.
Qed.

(** X6: the IF bandwidth is a step function of the rate
    [uint32(sampleRate / 1000)] that never decreases when the rate
    grows, and it always lies between 200 kHz and 8 MHz, whatever the
    sample rate is (zero, negative, NaN or beyond every bucket). *)
Theorem getIFBandwidth_monotone sampleRate1 sampleRate2 :
  float64_to_uint32 (f64_div sampleRate1 (float64_of_Z 1000)) <=
  float64_to_uint32 (f64_div sampleRate2 (float64_of_Z 1000)) ->
  getIFBandwidth sampleRate1 <= getIFBandwidth sampleRate2 /\
  200000 <= getIFBandwidth sampleRate1 /\ getIFBandwidth sampleRate2 <= 8000000.
Proof.
  intros Hle. unfold getIFBandwidth. change (nth 0 bandwidthskHz 0) with 200.
  rewrite !getIFBandwidth_loop_largest.
  pose proof (largest_bucket_at_most_mono _ _ Hle) as Hmono.
  destruct (largest_bucket_at_most_spec
              (float64_to_uint32 (f64_div sampleRate1 (float64_of_Z 1000))))
    as [Hin1 _].
  destruct (largest_bucket_at_most_spec
              (float64_to_uint32 (f64_div sampleRate2 (float64_of_Z 1000))))
    as [Hin2 _].
  unfold bandwidthskHz in Hin1, Hin2. cbn [In] in Hin1, Hin2.
  split; [lia|].
  split.
  - destruct Hin1 as [H|[H|[H|[H|[H|[H|[H|[H|[]]]]]]]]]; lia.
  - destruct Hin2 as [H|[H|[H|[H|[H|[H|[H|[H|[]]]]]]]]]; lia.
Qed.

(** X7: the names of the demodulator modes round-trip.  Parsing the name
    of any mode other than the unknown one gives that mode back with no
    error; a string that parses without an error is the name of the mode
    it parses to; and the name of the unknown mode, like any other
    string outside the seven names, is refused with the unknown mode as
    value. *)
Theorem ParseDemodulatorMode_String :
  (forall dm, dm <> DemodulatorUnknown ->
     ParseDemodulatorMode (DemodulatorMode_String dm) = (dm, None)) /\
  (forall dmstring dm,
     ParseDemodulatorMode dmstring = (dm, None) ->
     DemodulatorMode_String dm = dmstring /\ dm <> DemodulatorUnknown) /\
  (forall dmstring,
     (ParseDemodulatorMode dmstring).2 <> None ->
     (ParseDemodulatorMode dmstring).1 = DemodulatorUnknown) /\
  ParseDemodulatorMode (DemodulatorMode_String DemodulatorUnknown) =
    (DemodulatorUnknown, Some (Errorf "invalid demodulator mode: UNKNOWN")).
Proof.
  split; [|split; [|split]].
  - intros dm Hne. destruct dm; try reflexivity. congruence.
  - intros dmstring dm. unfold ParseDemodulatorMode.
    repeat match goal with
           | |- context [String.eqb ?a ?b] => destruct (String.eqb_spec a b)
           end; intros [= <-]; subst; split; (reflexivity || discriminate).
  - intros dmstring. unfold ParseDemodulatorMode.
    repeat match goal with
           | |- context [String.eqb ?a ?b] => destruct (String.eqb_spec a b)
           end; cbn; congruence.
  - reflexivity.
Qed.

(* ================================================================ *)
(** ** Getting and setting a property *)
(* ================================================================ *)

Lemma getSdrconnectProperty_loop_frame property : forall events w,
  sdrconnectSettings (world (getSdrconnectProperty_loop property events w)) =
    sdrconnectSettings w /\
  receiveStats (world (getSdrconnectProperty_loop property events w)) =
    receiveStats w /\
  requests (world (getSdrconnectProperty_loop property events w)) = requests w.
Proof.
  induction events as [|ev events IH]; intros w; cbn [getSdrconnectProperty_loop world];
    [repeat split; reflexivity|].
  destruct (getKeyPresses_preserves (keys ev) w) as (Hs & Hset & _ & Hreq).
  destruct (received ev) as [message|err].
  - destruct (_ && _).
    + cbn. rewrite Hs, Hset, Hreq. repeat split; reflexivity.
    + destruct (IH (getKeyPresses (keys ev) w)) as (H1 & H2 & H3).
      rewrite H1, H2, H3, Hs, Hset, Hreq. repeat split; reflexivity.
  - cbn. rewrite Hs, Hset, Hreq. repeat split; reflexivity.
Qed.

Lemma setSdrconnectProperty_loop_frame property value : forall events w,
  sdrconnectSettings (world (setSdrconnectProperty_loop property value events w)) =
    sdrconnectSettings w /\
  receiveStats (world (setSdrconnectProperty_loop property value events w)) =
    receiveStats w /\
  requests (world (setSdrconnectProperty_loop property value events w)) = requests w.
Proof.
  induction events as [|ev events IH]; intros w; cbn [setSdrconnectProperty_loop world];
    [repeat split; reflexivity|].
  destruct (getKeyPresses_preserves (keys ev) w) as (Hs & Hset & _ & Hreq).
  destruct (received ev) as [message|err].
  - destruct (is_property_changed_of property message).
    + cbn. rewrite Hs, Hset, Hreq. repeat split; reflexivity.
    + destruct (IH (getKeyPresses (keys ev) w)) as (H1 & H2 & H3).
      rewrite H1, H2, H3, Hs, Hset, Hreq. repeat split; reflexivity.
  - destruct (errors_Is err ErrDeadlineExceeded);
      cbn; rewrite Hs, Hset, Hreq; repeat split; reflexivity.
Qed.

(** X8: whatever arrives while a property is read or set, and however
    the call ends (an answer, an error, or still waiting), the call
    leaves the receiver settings and the statistics as they were: the
    messages it reads, property changes included, are not processed and
    not counted.  It adds its one request to the requests sent. *)
Theorem get_set_property_discard_messages :
  (forall property sendErr events w,
     let o := getSdrconnectProperty property sendErr events w in
     sdrconnectSettings (world o) = sdrconnectSettings w /\
     receiveStats (world o) = receiveStats w /\
     requests (world o) =
       {| EventType := "get_property"; Property := property; Value := "" |} ::
       requests w) /\
  (forall property value sendErr events w,
     let o := setSdrconnectProperty property value sendErr events w in
     sdrconnectSettings (world o) = sdrconnectSettings w /\
     receiveStats (world o) = receiveStats w /\
     requests (world o) =
       {| EventType := "set_property"; Property := property; Value := value |} ::
       requests w).
Proof.
  split.
  - intros property sendErr events w o. subst o. unfold getSdrconnectProperty.
    destruct sendErr as [err|]; [repeat split; reflexivity|].
    destruct (getSdrconnectProperty_loop_frame property events
                (SetReadDeadline (DeadlineIn waitGetProperty)
                   (Send {| EventType := "get_property"; Property := property;
                            Value := "" |} w))) as (H1 & H2 & H3).
    rewrite H1, H2, H3. repeat split; reflexivity.
  - intros property value sendErr events w o. subst o. unfold setSdrconnectProperty.
    destruct sendErr as [err|]; [repeat split; reflexivity|].
    destruct (setSdrconnectProperty_loop_frame property value events
                (SetReadDeadline (DeadlineIn waitSetProperty)
                   (Send {| EventType := "set_property"; Property := property;
                            Value := value |} w))) as (H1 & H2 & H3).
    rewrite H1, H2, H3. repeat split; reflexivity.
Qed.

Lemma getSdrconnectProperty_loop_skip property : forall pre rest w,
  Forall (other_response property) pre ->
  exists w',
    getSdrconnectProperty_loop property (pre ++ rest) w =
    getSdrconnectProperty_loop property rest w'.
Proof.
  induction pre as [|ev pre IH]; intros rest w Hpre.
  - exists w. reflexivity.
  - inversion Hpre as [|? ? (m & Hev & Hother) Hrest]; subst.
    cbn [app getSdrconnectProperty_loop]. rewrite Hev.
    unfold is_response_of in Hother. rewrite Hother.
    apply IH. exact Hrest.
Qed.

(** X9: [getSdrconnectProperty] returns the value of the first
    [get_property_response] message about the property it asked for and
    leaves the rest of the script unread; every message before it is
    skipped.  A read that fails while it waits, the read deadline
    included, makes it return the empty string and the error wrapped in
    its own, so that unlike a set request a get request that is not
    answered in time is an error. *)
Theorem getSdrconnectProperty_first_answer property pre ks rest w :
  Forall (other_response property) pre ->
  (forall m, is_response_of property m = true ->
     exists w',
       getSdrconnectProperty property None
         (pre ++ {| keys := ks; received := RecvMessage m |} :: rest) w =
       Returned (Value m, None) w' rest) /\
  (forall e,
     exists w',
       getSdrconnectProperty property None
         (pre ++ {| keys := ks; received := RecvError e |} :: rest) w =
       Returned ("", Some (Errorf_w ("getSdrconnectProperty(" +:+ property +:+ ")") e))
                w' rest /\
       errors_Is (Errorf_w ("getSdrconnectProperty(" +:+ property +:+ ")") e)
                 ErrDeadlineExceeded =
       errors_Is e ErrDeadlineExceeded).
Proof.
  intros Hpre. split.
  - intros m Hm. unfold getSdrconnectProperty.
    destruct (getSdrconnectProperty_loop_skip property pre
                ({| keys := ks; received := RecvMessage m |} :: rest)
                (SetReadDeadline (DeadlineIn waitGetProperty)
                   (Send {| EventType := "get_property"; Property := property;
                            Value := "" |} w)) Hpre) as (w1 & Hskip).
    rewrite Hskip. cbn [getSdrconnectProperty_loop keys received].
    unfold is_response_of in Hm. rewrite Hm. eexists. reflexivity.
  - intros e. unfold getSdrconnectProperty.
    destruct (getSdrconnectProperty_loop_skip property pre
                ({| keys := ks; received := RecvError e |} :: rest)
                (SetReadDeadline (DeadlineIn waitGetProperty)
                   (Send {| EventType := "get_property"; Property := property;
                            Value := "" |} w)) Hpre) as (w1 & Hskip).
    rewrite Hskip. cbn [getSdrconnectProperty_loop keys received].
    eexists. split; reflexivity.
Qed.

Lemma setSdrconnectProperty_loop_skip property value : forall pre rest w,
  Forall (other_message property) pre ->
  exists w',
    setSdrconnectProperty_loop property value (pre ++ rest) w =
    setSdrconnectProperty_loop property value rest w'.
Proof.
  induction pre as [|ev pre IH]; intros rest w Hpre.
  - exists w. reflexivity.
  - inversion Hpre as [|? ? (m & Hev & Hother) Hrest]; subst.
    cbn [app setSdrconnectProperty_loop]. rewrite Hev, Hother.
    apply IH. exact Hrest.
Qed.

(** X10: [setSdrconnectProperty] returns at the first [property_changed]
    message about the property it set, with that message's value as the
    actual value (which may differ from the requested one) and
    changed=true, leaving the rest of the script unread.  A read error
    other than the deadline is returned wrapped, with an empty actual
    value and changed=false; a failed send is returned as it is and
    nothing is read. *)
Theorem setSdrconnectProperty_confirmation property value pre ks rest w :
  Forall (other_message property) pre ->
  (forall m, is_property_changed_of property m = true ->
     exists w',
       setSdrconnectProperty property value None
         (pre ++ {| keys := ks; received := RecvMessage m |} :: rest) w =
       Returned (Value m, true, None) w' rest) /\
  (forall e, errors_Is e ErrDeadlineExceeded = false ->
     exists w',
       setSdrconnectProperty property value None
         (pre ++ {| keys := ks; received := RecvError e |} :: rest) w =
       Returned ("", false,
                 Some (Errorf_w ("setSdrconnectProperty(" +:+ property +:+ ")") e))
                w' rest) /\
  (forall e events,
     setSdrconnectProperty property value (Some e) events w =
     Returned ("", false, Some e)
       (Send {| EventType := "set_property"; Property := property; Value := value |} w)
       events).
Proof.
  intros Hpre. split; [|split].
  - intros m Hm. unfold setSdrconnectProperty.
    destruct (setSdrconnectProperty_loop_skip property value pre
                ({| keys := ks; received := RecvMessage m |} :: rest)
                (SetReadDeadline (DeadlineIn waitSetProperty)
                   (Send {| EventType := "set_property"; Property := property;
                            Value := value |} w)) Hpre) as (w1 & Hskip).
    rewrite Hskip. cbn [setSdrconnectProperty_loop keys received].
    rewrite Hm. eexists. reflexivity.
  - intros e He. unfold setSdrconnectProperty.
    destruct (setSdrconnectProperty_loop_skip property value pre
                ({| keys := ks; received := RecvError e |} :: rest)
                (SetReadDeadline (DeadlineIn waitSetProperty)
                   (Send {| EventType := "set_property"; Property := property;
                            Value := value |} w)) Hpre) as (w1 & Hskip).
    rewrite Hskip. cbn [setSdrconnectProperty_loop keys received].
    rewrite He. eexists. reflexivity.
  - intros e events. reflexivity.
Qed.

(* ================================================================ *)
(** ** Invariants of the session loop *)
(* ================================================================ *)

(** A property of the settings and the statistics that counting a
    message and processing a property change keep is kept by the loop of
    [receiveMessages], however it ends. *)
Lemma receiveMessages_loop_invariant (Q : Settings.t -> ReceiveStats -> Prop) :
  (forall s st n, Q s st -> Q s (set_countMessages n st)) ->
  (forall message w sequence,
     Q (sdrconnectSettings w) (receiveStats w) ->
     Q (sdrconnectSettings (property_changed message w sequence).1)
       (receiveStats (property_changed message w sequence).1)) ->
  forall sequencePattern events sequence paused w,
    Q (sdrconnectSettings w) (receiveStats w) ->
    Q (sdrconnectSettings
         (world (receiveMessages_loop sequencePattern events sequence paused w)))
      (receiveStats
         (world (receiveMessages_loop sequencePattern events sequence paused w))).
Proof.
  intros Hcount Hpc sequencePattern.
  induction events as [|ev events IH]; intros sequence paused w HQ;
    cbn [receiveMessages_loop]; [exact HQ|].
  destruct (getKeyPresses_preserves (keys ev) w) as (Hs & Hset & _).
  assert (Hkeys : Q (sdrconnectSettings (getKeyPresses (keys ev) w))
                    (receiveStats (getKeyPresses (keys ev) w)))
    by (rewrite Hs, Hset; exact HQ).
  assert (Hcnt : Q (sdrconnectSettings (count_message (getKeyPresses (keys ev) w)))
                   (receiveStats (count_message (getKeyPresses (keys ev) w))))
    by (apply Hcount; exact Hkeys).
  destruct (received ev) as [message|err]; [|exact Hkeys].
  destruct (userCommandTerminate _); [exact Hcnt|].
  destruct (userCommandNextScan _); [exact Hcnt|].
  destruct (userCommandTogglePause _);
    (destruct (String.eqb (EventType message) "property_changed");
     [match goal with
      | |- context [property_changed message ?w0 sequence] =>
          pose proof (Hpc message w0 sequence Hcnt) as Hpc';
          destruct (property_changed message w0 sequence) as [w2 sequence2]
      end;
      cbn [fst] in Hpc';
      destruct sequencePattern as [pattern|];
      [destruct (MatchString pattern sequence2); [exact Hpc'|]|];
      apply IH; exact Hpc'
     |apply IH; exact Hcnt]).
Qed.

Lemma property_changed_within_cap message w sequence :
  within_cap (receiveStats w) ->
  within_cap (receiveStats (property_changed message w sequence).1).
Proof.
  intros (H1 & H2 & H3 & H4). unfold property_changed, below_cap, maxStats in *.
  repeat match goal with
         | |- context [if ?b then _ else _] => destruct b eqn:?
         end;
    cbn [fst receiveStats with_stats with_settings];
    unfold within_cap, maxStats;
    cbn [signalPower signalSNR rdsPI rdsPS set_signalPower set_signalSNR set_rdsPI
         set_rdsPS];
    rewrite ?length_app; cbn [length];
    repeat match goal with
           | H : (_ <? _) = true |- _ => apply Z.ltb_lt in H
           end;
    lia.
Qed.

(** X11: each of the four statistics slices (power, SNR, station
    identifiers, station names) never holds more than [maxStats] = 100
    entries: the cleared statistics are within the limit and every call
    of [receiveMessages] keeps them within it, however it ends.  A
    report that arrives when its slice is full changes nothing but the
    message counter. *)
Theorem receiveMessages_within_cap :
  within_cap clearStats /\
  (forall sequencePattern timeout events w,
     within_cap (receiveStats w) ->
     within_cap (receiveStats
                   (world (receiveMessages sequencePattern timeout events w)))) /\
  (forall value w sequence,
     Z.of_nat (length (signalPower (receiveStats w))) = maxStats ->
     property_changed (changed "signal_power" value) w sequence = (w, sequence)) /\
  (forall value w sequence,
     Z.of_nat (length (signalSNR (receiveStats w))) = maxStats ->
     property_changed (changed "signal_snr" value) w sequence = (w, sequence)) /\
  (forall value w sequence,
     Z.of_nat (length (rdsPI (receiveStats w))) = maxStats ->
     property_changed (changed "rds_pi" value) w sequence = (w, sequence)) /\
  (forall value w sequence,
     Z.of_nat (length (rdsPS (receiveStats w))) = maxStats ->
     property_changed (changed "rds_ps" value) w sequence = (w, sequence)).
Proof.
  split; [unfold within_cap, maxStats; cbn; lia|].
  split.
  { intros sequencePattern timeout events w Hcap. unfold receiveMessages.
    apply (receiveMessages_loop_invariant (fun _ st => within_cap st)).
    - intros s st n Hst. exact Hst.
    - intros message w0 sequence Hst. apply property_changed_within_cap. exact Hst.
    - exact Hcap. }
  repeat split; intros value w sequence Hfull;
    unfold property_changed, changed, below_cap;
    cbn [Property Value String.eqb Ascii.eqb Bool.eqb];
    rewrite Hfull; reflexivity.
Qed.

(* ================================================================ *)
(** ** User commands *)
(* ================================================================ *)


(** X12: the next-scan command.  In any iteration of the loop of
    [receiveMessages], if the next-scan flag is set when the flags are
    examined, then: with the terminate flag not set, the call returns
    [ErrUserCommandNextScan] in that iteration, clears the next-scan
    flag and leaves the rest of the script unread; with the terminate
    flag set as well, terminate wins, and the next-scan flag stays set.
    Either way the message just read is counted but not processed: the
    settings are as they were. *)
Theorem receiveMessages_next_scan sequencePattern timeout pre ev m rest w w1 :
  receiveMessages sequencePattern timeout pre w = Waiting w1 ->
  received ev = RecvMessage m ->
  userCommandNextScan (getKeyPresses (keys ev) w1) = true ->
  (userCommandTerminate (getKeyPresses (keys ev) w1) = false ->
   exists w2,
     receiveMessages sequencePattern timeout (pre ++ ev :: rest) w =
     Returned (Some ErrUserCommandNextScan) w2 rest /\
     userCommandNextScan w2 = false /\
     sdrconnectSettings w2 = sdrconnectSettings w1 /\
     receiveStats w2 = receiveStats (count_message w1)) /\
  (userCommandTerminate (getKeyPresses (keys ev) w1) = true ->
   exists w2,
     receiveMessages sequencePattern timeout (pre ++ ev :: rest) w =
     Returned (Some ErrUserCommandTerminate) w2 rest /\
     userCommandNextScan w2 = true /\
     sdrconnectSettings w2 = sdrconnectSettings w1 /\
     receiveStats w2 = receiveStats (count_message w1)).
Proof.
  unfold receiveMessages. intros Hrun Hev Hnext.
  destruct (receiveMessages_loop_app _ _ _ _ _ _ Hrun) as (sequence1 & paused1 & Happ).
  destruct (getKeyPresses_preserves (keys ev) w1) as (Hs & Hset & _).
  split; intros Hterm; rewrite Happ; cbn [receiveMessages_loop]; rewrite Hev;
    change (userCommandTerminate (count_message (getKeyPresses (keys ev) w1)))
      with (userCommandTerminate (getKeyPresses (keys ev) w1));
    change (userCommandNextScan (count_message (getKeyPresses (keys ev) w1)))
      with (userCommandNextScan (getKeyPresses (keys ev) w1));
    rewrite Hterm; [rewrite Hnext|];
    (eexists; split; [reflexivity|]);
    cbn; rewrite ?Hs, ?Hset; repeat split; try reflexivity; exact Hnext.
Qed.




(* ================================================================ *)
(** ** Setting the centre frequency *)
(* ================================================================ *)

Lemma string_rev_acc_app a : forall b acc,
  string_rev_acc (a +:+ b) acc = string_rev_acc b (string_rev_acc a acc).
Proof.
  induction a as [|c a IH]; intros b acc; [reflexivity|].
  change (String c a +:+ b) with (String c (a +:+ b)).
  cbn [string_rev_acc]. apply IH.
Qed.

Lemma no_newline_cons c t :
  no_newline (String c t) = negb (byte_val c =? 10) && no_newline t.
Proof. reflexivity. Qed.

Lemma no_newline_rev s : forall acc,
  no_newline (string_rev_acc s acc) = no_newline s && no_newline acc.
Proof.
  induction s as [|c s IH]; intros acc; [reflexivity|].
  cbn [string_rev_acc]. rewrite IH, !no_newline_cons.
  destruct (negb (byte_val c =? 10)), (no_newline s), (no_newline acc); reflexivity.
Qed.

Lemma no_newline_app a b : no_newline (a +:+ b) = no_newline a && no_newline b.
Proof.
  induction a as [|c a IH]; [reflexivity|].
  change (String c a +:+ b) with (String c (a +:+ b)).
  rewrite !no_newline_cons, IH. apply andb_assoc.
Qed.

(** The sequence string never holds a line break. *)
Lemma property_changed_sequence_clean message w sequence :
  no_newline sequence = true ->
  no_newline (property_changed message w sequence).2 = true.
Proof.
  intros H. unfold property_changed.
  split_if; cbn [snd]; rewrite ?no_newline_app, ?H; reflexivity.
Qed.

Lemma receiveMessages_loop_app_clean sequencePattern :
  forall pre sequence paused w w1,
    receiveMessages_loop sequencePattern pre sequence paused w = Waiting w1 ->
    no_newline sequence = true ->
    exists sequence1 paused1,
      no_newline sequence1 = true /\
      forall rest,
        receiveMessages_loop sequencePattern (pre ++ rest) sequence paused w =
        receiveMessages_loop sequencePattern rest sequence1 paused1 w1.
Proof.
  induction pre as [|ev pre IH]; intros sequence paused w w1 Hrun Hclean.
  - cbn in Hrun. injection Hrun as <-. exists sequence, paused.
    split; [exact Hclean|reflexivity].
  - cbn [receiveMessages_loop app] in *.
    destruct (received ev) as [message|err]; [|discriminate].
    destruct (userCommandTerminate _); [discriminate|].
    destruct (userCommandNextScan _); [discriminate|].
    destruct (userCommandTogglePause _);
      (destruct (String.eqb (EventType message) "property_changed");
       [match type of Hrun with
        | context [property_changed message ?w0 sequence] =>
            pose proof (property_changed_sequence_clean message w0 sequence Hclean)
              as Hc;
            destruct (property_changed message w0 sequence) as [w2 sequence2]
        end;
        cbn [snd] in Hc;
        destruct sequencePattern as [pattern|];
        [destruct (MatchString pattern sequence2); [discriminate|]|];
        apply (IH _ _ _ _ Hrun Hc)
       |apply (IH _ _ _ _ Hrun Hclean)]).
Qed.

(** The pattern [^.*CV$] on a sequence that has just grown by a letter. *)
Lemma pattern_CV_after_C sequence :
  MatchString pattern_CV (sequence +:+ "C") = false.
Proof.
  cbn [MatchString pattern_CV]. rewrite string_rev_acc_app.
  cbn [string_rev_acc]. destruct (string_rev_acc sequence ""); reflexivity.
Qed.

Lemma pattern_CV_after_CV sequence :
  no_newline sequence = true ->
  MatchString pattern_CV ((sequence +:+ "C") +:+ "V") = true.
Proof.
  intros H. cbn [MatchString pattern_CV]. rewrite !string_rev_acc_app.
  cbn [string_rev_acc]. rewrite no_newline_rev, H. reflexivity.
Qed.

(** X14: the confirmation [setCenterFrequency] waits for.  After any
    events on which the call is still waiting, and with no user command
    pending, a [device_center_frequency] change followed directly by a
    [device_vfo_frequency] change ends the call at once, the rest of the
    script unread: with success if the centre frequency reported is the
    one requested, and with the error that names both frequencies if it
    is not.  If instead the read fails, the call returns that error, the
    read deadline included: unlike the detect window, a time-out is never
    a success here, even when the centre frequency already is the
    requested one. *)
Theorem setCenterFrequency_confirmation loFreq pre c v e rest w w1 :
  setCenterFrequency loFreq None pre w = Waiting w1 ->
  no_command w1 ->
  (exists w2,
     setCenterFrequency loFreq None
       (pre ++ message_event (changed "device_center_frequency" c) ::
               message_event (changed "device_vfo_frequency" v) :: rest) w =
     Returned
       (if (ParseUint c 10 64).1 =? loFreq then None
        else Some (Errorf ("error setting center frequency - requested: " +:+
                           FormatUint loFreq +:+ " - actual: " +:+
                           FormatUint (ParseUint c 10 64).1)))
       w2 rest /\
     Settings.DeviceCenterFrequency (sdrconnectSettings w2) = (ParseUint c 10 64).1 /\
     Settings.DeviceVFOFrequency (sdrconnectSettings w2) = (ParseUint v 10 64).1) /\
  (exists w2,
     setCenterFrequency loFreq None (pre ++ error_event e :: rest) w =
     Returned (Some e) w2 rest).
Proof.
  unfold setCenterFrequency, receiveMessages.
  set (w0 := SetReadDeadline (DeadlineIn waitSetCenterFrequency) (Send _ w)).
  intros Hrun (Hp & Hn & Ht).
  destruct (receiveMessages_loop (Some pattern_CV) pre "" false w0)
    as [[err|] w' rest'|w'] eqn:Hloop;
    [discriminate|destruct (negb _) in Hrun; discriminate|].
  injection Hrun as ->.
  destruct (receiveMessages_loop_app_clean _ _ _ _ _ _ Hloop eq_refl)
    as (sequence1 & paused1 & Hclean & Happ).
  split.
  - rewrite Happ. cbn [receiveMessages_loop message_event keys received getKeyPresses
                       fold_left].
    change (userCommandTerminate (count_message w1)) with (userCommandTerminate w1).
    change (userCommandNextScan (count_message w1)) with (userCommandNextScan w1).
    change (userCommandTogglePause (count_message w1)) with (userCommandTogglePause w1).
    rewrite Ht, Hn, Hp.
    cbn [changed EventType String.eqb Ascii.eqb Bool.eqb].
    unfold property_changed at 1.
    cbn [changed Property Value String.eqb Ascii.eqb Bool.eqb].
    rewrite pattern_CV_after_C.
    cbn [userCommandTerminate userCommandNextScan userCommandTogglePause
         with_settings count_message with_stats].
    rewrite Ht, Hn, Hp.
    unfold property_changed.
    cbn [changed Property Value String.eqb Ascii.eqb Bool.eqb].
    rewrite (pattern_CV_after_CV _ Hclean).
    cbn [sdrconnectSettings with_settings with_stats SetReadDeadline count_message
         Settings.DeviceCenterFrequency Settings.DeviceVFOFrequency
         SettingsUpdate.DeviceVFOFrequency SettingsUpdate.DeviceCenterFrequency].
    destruct (Z.eqb_spec (ParseUint c 10 64).1 loFreq) as [Heq|Hne];
      cbn [negb]; eexists; (split; [reflexivity|]); split; reflexivity.
  - rewrite Happ. unfold error_event.
    rewrite receiveMessages_loop_expiry_pattern.
    eexists. reflexivity.
Qed.

(* ================================================================ *)
(** ** The scan loop *)
(* ================================================================ *)

Lemma same_but_stats_refl w : same_but_stats w w.
Proof. repeat split; reflexivity. Qed.

Lemma same_but_stats_with_stats st w : same_but_stats (with_stats st w) w.
Proof. repeat split; reflexivity. Qed.

Lemma same_but_stats_clear w w' :
  same_but_stats w w' -> with_stats clearStats w = with_stats clearStats w'.
Proof.
  destruct w, w'. unfold same_but_stats. cbn.
  intros (-> & -> & -> & -> & -> & -> & ->). reflexivity.
Qed.

Lemma getKeyPresses_same_but_stats ks : forall w w',
  same_but_stats w w' -> same_but_stats (getKeyPresses ks w) (getKeyPresses ks w').
Proof.
  unfold getKeyPresses. induction ks as [|k ks IH]; intros w w' H; [exact H|].
  cbn [fold_left]. apply IH.
  destruct w, w'. unfold same_but_stats in *. cbn in H.
  destruct H as (-> & -> & -> & -> & -> & -> & ->).
  unfold getKeyPresses_step. cbn.
  split_if; cbn; repeat split; reflexivity.
Qed.

Lemma property_changed_same_but_stats message sequence w w' :
  same_but_stats w w' ->
  (property_changed message w sequence).2 = (property_changed message w' sequence).2 /\
  same_but_stats (property_changed message w sequence).1
                 (property_changed message w' sequence).1.
Proof.
  destruct w, w'. unfold same_but_stats. cbn.
  intros (-> & -> & -> & -> & -> & -> & ->).
  unfold property_changed. cbn [sdrconnectSettings receiveStats].
  split_if; cbn; repeat split; reflexivity.
Qed.

Lemma same_but_stats_flags w w' :
  same_but_stats w w' ->
  userCommandTerminate w = userCommandTerminate w' /\
  userCommandNextScan w = userCommandNextScan w' /\
  userCommandTogglePause w = userCommandTogglePause w'.
Proof. intros (_ & H1 & H2 & H3 & _). repeat split; assumption. Qed.

Lemma count_message_same_but_stats w w' :
  same_but_stats w w' -> same_but_stats (count_message w) (count_message w').
Proof. intros H. exact H. Qed.

Lemma with_flags_same_but_stats a b c d w w' :
  same_but_stats w w' ->
  same_but_stats (with_flags a b c d w) (with_flags a b c d w').
Proof.
  intros (H1 & _ & _ & _ & _ & H6 & H7). repeat split; assumption.
Qed.

Lemma SetReadDeadline_same_but_stats d w w' :
  same_but_stats w w' ->
  same_but_stats (SetReadDeadline d w) (SetReadDeadline d w').
Proof.
  intros (H1 & H2 & H3 & H4 & H5 & _ & H7). repeat split; assumption.
Qed.

(** With a pattern, what the loop of [receiveMessages] returns and does
    to the settings and flags does not depend on the statistics it
    starts from. *)
Lemma receiveMessages_loop_same_but_stats pattern :
  forall events sequence paused w w',
    same_but_stats w w' ->
    same_outcome
      (receiveMessages_loop (Some pattern) events sequence paused w)
      (receiveMessages_loop (Some pattern) events sequence paused w').
Proof.
  induction events as [|ev events IH]; intros sequence paused w w' Hsame;
    cbn [receiveMessages_loop]; [exact Hsame|].
  pose proof (getKeyPresses_same_but_stats (keys ev) _ _ Hsame) as Hkeys.
  destruct (received ev) as [message|err].
  2:{ rewrite !andb_false_r. cbn.
      split; [reflexivity|]. split; [|reflexivity].
      apply SetReadDeadline_same_but_stats. exact Hkeys. }
  pose proof (count_message_same_but_stats _ _ Hkeys) as Hcount.
  remember (count_message (getKeyPresses (keys ev) w)) as W eqn:HW.
  remember (count_message (getKeyPresses (keys ev) w')) as W' eqn:HW'.
  clear HW HW' Hkeys Hsame.
  destruct (same_but_stats_flags _ _ Hcount) as (Ft & Fn & Fp).
  rewrite <- Ft, <- Fn, <- Fp.
  destruct (userCommandTerminate W).
  { cbn. split; [reflexivity|]. split; [|reflexivity].
    destruct Hcount as (H1 & H2 & H3 & H4 & H5 & H6 & H7).
    unfold same_but_stats. cbn. repeat split; congruence. }
  destruct (userCommandNextScan W).
  { cbn. split; [reflexivity|]. split; [|reflexivity].
    destruct Hcount as (H1 & H2 & H3 & H4 & H5 & H6 & H7).
    unfold same_but_stats. cbn. repeat split; congruence. }
  assert (Hgo : forall w2 w2' paused2,
            same_but_stats w2 w2' ->
            same_outcome
              (if String.eqb (EventType message) "property_changed"
               then let '(w3, sequence3) := property_changed message w2 sequence in
                    if MatchString pattern sequence3
                    then Returned None (SetReadDeadline NoDeadline w3) events
                    else receiveMessages_loop (Some pattern) events sequence3 paused2 w3
               else receiveMessages_loop (Some pattern) events sequence paused2 w2)
              (if String.eqb (EventType message) "property_changed"
               then let '(w3, sequence3) := property_changed message w2' sequence in
                    if MatchString pattern sequence3
                    then Returned None (SetReadDeadline NoDeadline w3) events
                    else receiveMessages_loop (Some pattern) events sequence3 paused2 w3
               else receiveMessages_loop (Some pattern) events sequence paused2 w2')).
  { intros w2 w2' paused2 H2.
    destruct (String.eqb (EventType message) "property_changed"); [|apply IH; exact H2].
    destruct (property_changed_same_but_stats message sequence w2 w2' H2) as [Hseq Hw].
    destruct (property_changed message w2 sequence) as [w3 sequence3].
    destruct (property_changed message w2' sequence) as [w3' sequence3'].
    cbn [fst snd] in Hseq, Hw. subst sequence3'.
    destruct (MatchString pattern sequence3).
    - cbn. split; [reflexivity|]. split; [|reflexivity].
      apply SetReadDeadline_same_but_stats. exact Hw.
    - apply IH. exact Hw. }
  destruct (userCommandTogglePause W).
  - apply Hgo.
    destruct Hcount as (H1 & H2 & H3 & H4 & H5 & H6 & H7).
    unfold same_but_stats. cbn. repeat split; congruence.
  - apply Hgo. exact Hcount.
Qed.

Lemma setCenterFrequency_same_but_stats loFreq sendErr events w w' :
  same_but_stats w w' ->
  same_outcome (setCenterFrequency loFreq sendErr events w)
               (setCenterFrequency loFreq sendErr events w').
Proof.
  intros Hsame. unfold setCenterFrequency, receiveMessages.
  set (request := {| EventType := "set_property";
                     Property := "device_center_frequency";
                     Value := FormatUint loFreq |}).
  assert (Hsend : same_but_stats (Send request w) (Send request w')).
  { destruct Hsame as (H1 & H2 & H3 & H4 & H5 & H6 & H7).
    unfold same_but_stats. cbn. repeat split; congruence. }
  destruct sendErr as [err|].
  { cbn. split; [reflexivity|]. split; [exact Hsend|reflexivity]. }
  pose proof (receiveMessages_loop_same_but_stats pattern_CV events "" false _ _
                (SetReadDeadline_same_but_stats (DeadlineIn waitSetCenterFrequency)
                   _ _ Hsend)) as Hloop.
  destruct (receiveMessages_loop (Some pattern_CV) events "" false
              (SetReadDeadline (DeadlineIn waitSetCenterFrequency) (Send request w)))
    as [[err|] w1 rest1|w1];
    destruct (receiveMessages_loop (Some pattern_CV) events "" false
                (SetReadDeadline (DeadlineIn waitSetCenterFrequency) (Send request w')))
    as [[err'|] w1' rest1'|w1'];
    cbn in Hloop; try contradiction; try (destruct Hloop as (? & _); discriminate).
  - exact Hloop.
  - destruct Hloop as (_ & Hw & ->).
    pose proof Hw as (Hset & _). rewrite Hset.
    destruct (negb _); cbn; (split; [reflexivity|]); split; (exact Hw || reflexivity).
  - exact Hloop.
Qed.

(** X15: the statistics of one frequency never leak into the next.
    Whatever statistics are left when [runScan] comes to a frequency
    (from the frequency before, or from a retune), the run from there on
    is the same as with any other statistics: the same lines logged, the
    same error, the same requests, settings and flags, and the same
    events left unread.  Only the statistics in the final state can
    differ. *)
Theorem runScan_ignores_earlier_statistics scan sends labels items ending events log
    w st :
  forget_stats (runScan_loop scan sends labels items ending events log
                  (with_stats st w)) =
  forget_stats (runScan_loop scan sends labels items ending events log w).
Proof.
  pose proof (same_but_stats_with_stats st w) as Hsame.
  remember (with_stats st w) as w' eqn:Hw'. clear Hw'.
  destruct items as [|item items]; cbn [runScan_loop].
  - destruct ending; cbn [forget_stats];
      rewrite ?(same_but_stats_clear _ _ Hsame); reflexivity.
  - pose proof Hsame as (Hset & _ & _ & _ & _ & _ & Hreq).
    unfold nextSend. rewrite Hset, Hreq.
    destruct (negb _ && negb _).
    + pose proof (setCenterFrequency_same_but_stats
                    (FrequencyAndLOFrequency.loFrequency item)
                    (sends (length (requests w))) events _ _ Hsame) as Hret.
      destruct (setCenterFrequency _ _ events w') as [[err|] w1 rest1|w1];
        destruct (setCenterFrequency _ _ events w) as [[err'|] w1' rest1'|w1'];
        cbn in Hret; try contradiction; try (destruct Hret as (? & _); discriminate).
      * destruct Hret as ([= ->] & Hw & ->). cbn [forget_stats].
        rewrite (same_but_stats_clear _ _ Hw). reflexivity.
      * destruct Hret as (_ & Hw & ->).
        rewrite (same_but_stats_clear _ _ Hw). reflexivity.
      * cbn [forget_stats]. rewrite (same_but_stats_clear _ _ Hret). reflexivity.
    + rewrite (same_but_stats_clear _ _ Hsame). reflexivity.
Qed.

(** X16: a detect window in which nothing at all is received ends the
    scan.  When [runScan] comes to a frequency for which the centre
    frequency need not be set, and the request to set the VFO is sent
    but the first read ends on the read deadline, [runScan] returns the
    deadline error, whatever the message counter held before (the
    statistics are cleared first), leaving the other frequencies of the
    plan untried and logging nothing. *)
Theorem runScan_silent_detect_window scan sends labels item items ending ks e rest log w :
  FrequencyAndLOFrequency.loFrequency item = 0 \/
  FrequencyAndLOFrequency.loFrequency item =
    Settings.DeviceCenterFrequency (sdrconnectSettings w) ->
  nextSend sends w = None ->
  errors_Is e ErrDeadlineExceeded = true ->
  exists w',
    runScan_loop scan sends labels (item :: items) ending
      ({| keys := ks; received := RecvError e |} :: rest) log w =
    ScanReturned (Some e) log w' rest /\
    requests w' =
      {| EventType := "set_property"; Property := "device_vfo_frequency";
         Value := FormatUint (FrequencyAndLOFrequency.frequency item) |} :: requests w.
Proof.
  intros Hlo Hsend He. cbn [runScan_loop].
  assert (Hskip : negb (FrequencyAndLOFrequency.loFrequency item =? 0) &&
                  negb (FrequencyAndLOFrequency.loFrequency item =?
                        Settings.DeviceCenterFrequency (sdrconnectSettings w)) = false).
  { destruct Hlo as [-> | ->]; [reflexivity|].
    rewrite Z.eqb_refl. apply andb_false_r. }
  rewrite Hskip.
  change (nextSend sends (with_stats clearStats w)) with (nextSend sends w).
  rewrite Hsend.
  unfold setVFOFrequencyAndGetSignalStats, receiveMessages.
  rewrite (receiveMessages_loop_expiry _ _ _ _ _ _ He).
  cbn [receiveStats SetReadDeadline Send with_stats clearStats countMessages Z.ltb
       Z.compare].
  eexists. split; [reflexivity|].
  destruct (getKeyPresses_preserves ks
              (SetReadDeadline (DeadlineIn (Scan.DetectTime scan))
                 (Send {| EventType := "set_property";
                          Property := "device_vfo_frequency";
                          Value := FormatUint (FrequencyAndLOFrequency.frequency item) |}
                    (with_stats clearStats w)))) as (_ & _ & _ & Hreq).
  cbn [requests SetReadDeadline]. rewrite Hreq. reflexivity.
Qed.


Lemma detectSignal_total stats scan : exists b, detectSignal stats scan = Some b.
Proof.
  unfold detectSignal.
  destruct (signalMax_total (signalPower stats)) as [p ->].
  destruct (signalMax_total (signalSNR stats)) as [q ->].
  eexists. reflexivity.
Qed.

(** The line of [showStats] starts with the word and the frequency the
    VFO is set to. *)
Lemma showStats_line labels what w :
  what <> "" ->
  exists fields,
    showStats labels what w =
    Some (Join (what ::
                ("f=" +:+ FormatUint (Settings.DeviceVFOFrequency (sdrconnectSettings w)))
                :: fields) " ").
Proof.
  intros Hwhat. apply String.eqb_neq in Hwhat.
  unfold showStats, showStats_fields.
  destruct (powerField_total (signalPower (receiveStats w))) as [pwr ->].
  destruct (snrField_total (signalSNR (receiveStats w))) as [snr ->].
  cbn [mbind option_bind]. rewrite Hwhat. cbn [negb app].
  eexists. reflexivity.
Qed.

Lemma setVFOFrequencyAndGetSignalStats_success freq detectTime sendErr events w w1 rest :
  setVFOFrequencyAndGetSignalStats freq detectTime sendErr events w =
    Returned None w1 rest ->
  Settings.DeviceVFOFrequency (sdrconnectSettings w1) = freq.
Proof.
  unfold setVFOFrequencyAndGetSignalStats.
  destruct sendErr as [err|]; [discriminate|].
  destruct (receiveMessages None detectTime events _) as [[err|] w2 rest2|w2];
    [discriminate| |discriminate].
  destruct (Z.eqb_spec (Settings.DeviceVFOFrequency (sdrconnectSettings w2)) freq)
    as [Heq|Hne]; cbn [negb]; [|discriminate].
  intros [= <- _]. exact Heq.
Qed.

(** What the loop of [runScan] logs, and that it does not panic. *)
Lemma runScan_loop_log scan sends labels ending :
  ending <> ChanPanic ->
  forall items events log w,
    runScan_loop scan sends labels items ending events log w <> ScanPanic /\
    exists lines,
      scan_log (runScan_loop scan sends labels items ending events log w) =
        log ++ lines /\
      Forall (fun line =>
                listen_line line \/
                exists item, In item items /\
                  detect_line (FrequencyAndLOFrequency.frequency item) line) lines.
Proof.
  intros Hending.
  induction items as [|item items IH]; intros events log w.
  - cbn [runScan_loop]. destruct ending; try congruence;
      (split; [discriminate|]); exists []; rewrite app_nil_r;
      (split; [reflexivity|constructor]).
  - assert (Hstop : forall o, o <> ScanPanic -> scan_log o = log ->
              o <> ScanPanic /\
              exists lines,
                scan_log o = log ++ lines /\
                Forall (fun line =>
                          listen_line line \/
                          exists item0, In item0 (item :: items) /\
                            detect_line (FrequencyAndLOFrequency.frequency item0) line)
                       lines).
    { intros o Ho Hlog. split; [exact Ho|]. exists []. rewrite app_nil_r.
      split; [exact Hlog|constructor]. }
    assert (Hweak : forall lines,
              Forall (fun line =>
                        listen_line line \/
                        exists item0, In item0 items /\
                          detect_line (FrequencyAndLOFrequency.frequency item0) line)
                     lines ->
              Forall (fun line =>
                        listen_line line \/
                        exists item0, In item0 (item :: items) /\
                          detect_line (FrequencyAndLOFrequency.frequency item0) line)
                     lines).
    { intros lines Hl. eapply Forall_impl; [exact Hl|].
      cbn beta. intros line [Hlis|(item0 & Hin & Hdet)]; [left; exact Hlis|].
      right. exists item0. split; [right; exact Hin|exact Hdet]. }
    cbn [runScan_loop].
    destruct (if negb _ && negb _ then _ else _) as [[err|] w1 events1|w1];
      [apply Hstop; [discriminate|reflexivity]|
      |apply Hstop; [discriminate|reflexivity]].
    destruct (setVFOFrequencyAndGetSignalStats _ _ _ events1 _)
      as [[err|] w2 events2|w2] eqn:Hvfo;
      [apply Hstop; [discriminate|reflexivity]|
      |apply Hstop; [discriminate|reflexivity]].
    apply setVFOFrequencyAndGetSignalStats_success in Hvfo.
    destruct (detectSignal_total (receiveStats w2) scan) as [[|] ->].
    2:{ destruct (IH events2 log w2) as (Hok & lines & Hlog & Hall).
        split; [exact Hok|]. exists lines. split; [exact Hlog|]. apply Hweak, Hall. }
    destruct (showStats_line labels "detect" w2 ltac:(discriminate)) as [fields Hline].
    rewrite Hvfo in Hline. rewrite Hline.
    assert (Hdet : detect_line (FrequencyAndLOFrequency.frequency item)
              (Join ("detect" ::
                     ("f=" +:+ FormatUint (FrequencyAndLOFrequency.frequency item))
                     :: fields) " "))
      by (exists fields; reflexivity).
    set (line1 := Join ("detect" :: _ :: fields) " ") in *.
    assert (Hstop1 : forall o, o <> ScanPanic -> scan_log o = log ++ [line1] ->
              o <> ScanPanic /\
              exists lines,
                scan_log o = log ++ lines /\
                Forall (fun line =>
                          listen_line line \/
                          exists item0, In item0 (item :: items) /\
                            detect_line (FrequencyAndLOFrequency.frequency item0) line)
                       lines).
    { intros o Ho Hlog. split; [exact Ho|]. exists [line1].
      split; [exact Hlog|]. constructor; [|constructor].
      right. exists item. split; [left; reflexivity|exact Hdet]. }
    destruct (receiveMessages None (Scan.ListenTime scan) events2 w2)
      as [[err|] w3 events3|w3];
      [apply Hstop1; [discriminate|reflexivity]|
      |apply Hstop1; [discriminate|reflexivity]].
    destruct (if (0 <? _) && (0 <? _) then _ else _) as [[err|] w4 events4|w4];
      [apply Hstop1; [discriminate|reflexivity]|
      |apply Hstop1; [discriminate|reflexivity]].
    destruct (showStats_line labels "listen" w4 ltac:(discriminate)) as [fields2 Hline2].
    rewrite Hline2.
    set (line2 := Join ("listen" :: _ :: fields2) " ").
    destruct (IH events4 ((log ++ [line1]) ++ [line2]) w4)
      as (Hok & lines & Hlog & Hall).
    split; [exact Hok|]. exists (line1 :: line2 :: lines).
    split.
    + rewrite Hlog. rewrite <- !app_assoc. reflexivity.
    + constructor; [right; exists item; split; [left; reflexivity|exact Hdet]|].
      constructor; [left; eexists; reflexivity|]. apply Hweak, Hall.
Qed.

(** X24: the loop of [runScan] never panics on its own: nothing in it
    indexes or takes the maximum of an empty slice, whatever the
    receiver sends.  Unless the plan generator has panicked, the loop
    ends by returning, by waiting in a read, or with the generator still
    sending. *)
Theorem runScan_loop_never_panics scan sends labels items ending events log w :
  ending <> ChanPanic ->
  runScan_loop scan sends labels items ending events log w <> ScanPanic.
Proof.
  intros Hending.
  apply (runScan_loop_log scan sends labels ending Hending items events log w).
Qed.


(* ================================================================ *)
(** ** The label file *)
(* ================================================================ *)

Lemma append_assoc_string (a b c : string) : (a +:+ b) +:+ c = a +:+ (b +:+ c).
Proof.
  induction a as [|ch a IH]; [reflexivity|].
  change ((String ch a +:+ b) +:+ c) with (String ch ((a +:+ b) +:+ c)).
  rewrite IH. reflexivity.
Qed.

Lemma Join_cons a b l sep :
  Join (a :: b :: l) sep = a +:+ sep +:+ Join (b :: l) sep.
Proof. reflexivity. Qed.

(** Adding a label to the ones a key already has. *)
Lemma joined_step current label more :
  joined (Some (match current with
                | Some c => c +:+ "|" +:+ label
                | None => label
                end)) more =
  joined current (label :: more).
Proof.
  destruct current as [c|]; cbn [joined]; [|reflexivity].
  f_equal. destruct more as [|m more]; [reflexivity|].
  rewrite (Join_cons (c +:+ "|" +:+ label)), (Join_cons c), (Join_cons label).
  rewrite !append_assoc_string. reflexivity.
Qed.

Lemma joined_nil current : joined current [] = current.
Proof. destruct current; reflexivity. Qed.

(** X18: what the label map holds after a label file has been read
    without an error.  A record is stored under the value of its first
    field, read as a hexadecimal PI code when the field has exactly four
    bytes and as a decimal frequency otherwise, with its second field
    trimmed of white space.  For every key the map then holds the label
    it had before (if any) followed by the labels of all records with
    that key, in the order of the file, joined with [|]; a key that no
    record has keeps what it had. *)
Theorem readLabelFile_lookup reads : forall labels labels',
  readLabelFile (inl reads) labels = (labels', None) ->
  forall key, labels' !! key = joined (labels !! key) (labels_of key reads).
Proof.
  cbn [readLabelFile].
  induction reads as [|read reads IH]; intros labels labels' Hread key.
  - cbn in Hread. injection Hread as <-. cbn [labels_of]. rewrite joined_nil.
    reflexivity.
  - cbn [readLabelFile_loop] in Hread.
    destruct read as [record|e]; [|discriminate].
    destruct record as [|record0 [|record1 [|extra record]]];
      cbn [length Nat.eqb negb] in Hread; try discriminate.
    cbn [nth] in Hread. cbn [labels_of].
    destruct (label_key record0) as [k [e|]]; [discriminate|].
    rewrite (IH _ _ Hread key).
    destruct (Z.eqb_spec k key) as [->|Hne].
    + rewrite <- joined_step.
      destruct (labels !! key) as [c|]; rewrite lookup_insert_eq; reflexivity.
    + destruct (labels !! k) as [c|]; rewrite lookup_insert_ne by exact Hne;
        reflexivity.
Qed.

(* ================================================================ *)
(** ** The configuration file *)
(* ================================================================ *)

Lemma to_int_range w z : 0 < w -> - 2 ^ (w - 1) <= to_int w z < 2 ^ (w - 1).
Proof.
  intros Hw. unfold to_int.
  assert (H2 : 2 ^ w = 2 * 2 ^ (w - 1)).
  { replace w with (Z.succ (w - 1)) at 1 by lia. apply Z.pow_succ_r. lia. }
  pose proof (Z.mod_pos_bound (z + 2 ^ (w - 1)) (2 ^ w)
                ltac:(apply Z.pow_pos_nonneg; lia)).
  lia.
Qed.

Section ConfigProofs.

Variable uint64_of_unrepresentable : float64 -> Z.
Variable int64_of_unrepresentable : float64 -> Z.
Variable int32_of_unrepresentable : float64 -> Z.

Lemma float64_to_uint64_range x :
  is_uint 64 (float64_to_uint64 uint64_of_unrepresentable x).
Proof.
  unfold float64_to_uint64, is_uint.
  destruct (f64_trunc x) as [z|]; [|apply uint64_range].
  destruct (Z.leb_spec 0 z); destruct (Z.ltb_spec z (2 ^ 64)); cbn [andb];
    try apply uint64_range. lia.
Qed.

Lemma float64_to_int64_range x :
  is_int 64 (float64_to_int64 int64_of_unrepresentable x).
Proof.
  unfold float64_to_int64, is_int. change (2 ^ (64 - 1)) with (2 ^ 63).
  destruct (f64_trunc x) as [z|]; [|apply (to_int_range 64); lia].
  destruct (Z.leb_spec (- 2 ^ 63) z); destruct (Z.ltb_spec z (2 ^ 63)); cbn [andb];
    try (apply (to_int_range 64); lia). lia.
Qed.

Lemma float64_to_int32_range x :
  is_int 32 (float64_to_int32 int32_of_unrepresentable x).
Proof.
  unfold float64_to_int32, is_int. change (2 ^ (32 - 1)) with (2 ^ 31).
  destruct (f64_trunc x) as [z|]; [|apply (to_int_range 32); lia].
  destruct (Z.leb_spec (- 2 ^ 31) z); destruct (Z.ltb_spec z (2 ^ 31)); cbn [andb];
    try (apply (to_int_range 32); lia). lia.
Qed.

Lemma getUint32ConfigSetting_range defaultSection setting section v found :
  checked (getUint32ConfigSetting defaultSection setting section) = inl (v, found) ->
  0 <= v < 2 ^ 32.
Proof.
  unfold checked, getUint32ConfigSetting.
  destruct (section setting) as [key|]; [|destruct (defaultSection setting) as [key|]];
    try (destruct (IniKey.Uint key) as [u [e|]]; cbn; [discriminate|];
         intros [= <- _]; apply uint32_range).
  cbn. intros [= <- _]. apply uint32_range.
Qed.

(** What [readScanFrequencies] returns is a range alone or a list alone,
    of values of the field types. *)
Lemma readScanFrequencies_ok section freqStart freqStop freqStep freqList :
  readScanFrequencies uint64_of_unrepresentable int64_of_unrepresentable section =
    inl (freqStart, freqStop, freqStep, freqList) ->
  is_uint 64 freqStart /\ is_uint 64 freqStop /\ is_int 64 freqStep /\
  Forall (is_uint 64) freqList /\
  (freqList = [] \/
   (freqList <> [] /\ freqStart = 0 /\ freqStop = 0 /\ freqStep = 0)).
Proof.
  unfold readScanFrequencies.
  destruct (_ || _); [discriminate|].
  destruct (HasKey section "range").
  - destruct (negb _); [discriminate|].
    destruct (f64_eq _ _); [discriminate|].
    destruct (_ && _); [discriminate|].
    destruct (_ && _); [discriminate|].
    intros [= <- <- <- <-].
    split; [apply float64_to_uint64_range|].
    split; [apply float64_to_uint64_range|].
    split; [apply float64_to_int64_range|].
    split; [constructor|]. left. reflexivity.
  - destruct (HasKey section "list").
    + destruct (match section "list" with Some key => IniKey.Float64s key | None => [] end)
        as [|v values]; [discriminate|].
      cbn [length Nat.eqb]. intros [= <- <- <- <-].
      unfold is_uint, is_int. split; [lia|]. split; [lia|].
      split; [change (2 ^ (64 - 1)) with (2 ^ 63); lia|].
      split.
      * apply Forall_forall. intros z Hz. apply list_elem_of_In in Hz.
        change (In z (map (float64_to_uint64 uint64_of_unrepresentable) (v :: values)))
          in Hz.
        apply in_map_iff in Hz as (x & <- & _). apply float64_to_uint64_range.
      * right. split; [discriminate|]. repeat split; reflexivity.
    + intros [= <- <- <- <-].
      unfold is_uint, is_int. split; [lia|]. split; [lia|].
      split; [change (2 ^ (64 - 1)) with (2 ^ 63); lia|].
      split; [constructor|]. left. reflexivity.
Qed.

Ltac invert_bind H :=
  repeat
    match type of H with
    | bind_result ?m _ = inl _ =>
        let E := fresh "E" in
        destruct m as [?|?] eqn:E; cbn [bind_result] in H; [|discriminate H]
    | match ?x with (_, _) => _ end = inl _ => destruct x
    | (if ?c then _ else _) = inl _ =>
        let C := fresh "C" in destruct c eqn:C; [discriminate H|]
    end.

Lemma readScanSection_configured defaultSection section scan :
  readScanSection uint64_of_unrepresentable int64_of_unrepresentable
    int32_of_unrepresentable defaultSection section = inl scan ->
  configured scan.
Proof.
  unfold readScanSection. intros H.
  invert_bind H.
  injection H as <-.
  match goal with
  | E : readScanFrequencies _ _ _ = inl _ |- _ =>
      apply readScanFrequencies_ok in E as (Hstart & Hstop & Hstep & Hlist & Hshape)
  end.
  unfold configured, Scan.wf.
  cbn [Scan.Start Scan.Stop Scan.Step Scan.List Scan.LOOffset Scan.LNAState
       Scan.DetectTime Scan.ListenTime Scan.ListenExtraTimeRDS Scan.DeviceName
       Scan.DeviceSerial Scan.LOSpans].
  repeat match goal with
         | E : checked (getUint32ConfigSetting _ _ _) = inl _ |- _ =>
             apply getUint32ConfigSetting_range in E
         end.
  unfold waitSignalPowerAndSNR, defaultDetectTime, defaultListenTime, Second,
    Millisecond in *.
  repeat match goal with
         | _ : context [int64 (?z * 1000000)] |- _ =>
             rewrite (int64_small (z * 1000000)) in * by lia
         | |- context [int64 (?z * 1000000)] =>
             rewrite (int64_small (z * 1000000)) in * by lia
         end.
  assert (Hdev : s = "" \/ s0 = "").
  { destruct (String.eqb_spec s ""); [left; assumption|].
    destruct (String.eqb_spec s0 ""); [right; assumption|discriminate]. }
  repeat match goal with
         | E : (if ?a <? ?b then inr _ else _) = inl _ |- _ =>
             destruct (Z.ltb_spec a b); [discriminate E|]
         | E : (if ?b then _ else inl _) = inl _ |- _ =>
             destruct b; try discriminate E
         | E : inl ?a = inl ?b |- _ =>
             assert (a = b) by congruence; clear E; try subst
         end.
  all: unfold waitSignalPowerAndSNR, Millisecond in *.
  all: repeat match goal with
              | H : context [if ?b then _ else _] |- _ => is_var b; destruct b
              | |- context [if ?b then _ else _] => is_var b; destruct b
              end.
  all: (split;
        [split; [exact Hstart|]; split; [exact Hstop|]; split; [exact Hstep|];
         split; [exact Hlist|]; split; [apply float64_to_int32_range|];
         unfold is_uint; assumption|]).
  all: rewrite ?int64_small by lia.
  all: repeat split; try lia; try assumption.
Qed.

Lemma readScanSections_configured defaultSection : forall scanSections scans result,
  readScanSections uint64_of_unrepresentable int64_of_unrepresentable
    int32_of_unrepresentable defaultSection scanSections scans = inl result ->
  Forall configured scans ->
  Forall configured result /\
  length result = (length scans + length scanSections)%nat.
Proof.
  induction scanSections as [|section rest IH]; intros scans result Hread Hscans.
  - cbn in Hread. injection Hread as <-. split; [exact Hscans|cbn [length]; lia].
  - cbn [readScanSections] in Hread.
    destruct (readScanSection _ _ _ defaultSection section) as [scan|e] eqn:Hscan;
      cbn [bind_result] in Hread; [|discriminate].
    destruct (IH _ _ Hread) as [Hall Hlen].
    + apply Forall_app. split; [exact Hscans|].
      constructor; [|constructor].
      exact (readScanSection_configured _ _ _ Hscan).
    + split; [exact Hall|]. rewrite Hlen, length_app. cbn [length]. lia.
Qed.

(** X19: what [readConfigFile] guarantees.  When it returns no error,
    every scan it returns has a detect time of at least 600 ms, a listen
    time and an extra RDS listen time that are not negative, at most one
    of device name and device serial, no LO spans yet, a list only
    together with a zero range, and every number within its Go type;
    there is one scan for each scan section.  When it returns an error,
    it returns no scan at all. *)
Theorem readConfigFile_configured config scans err :
  readConfigFile uint64_of_unrepresentable int64_of_unrepresentable
    int32_of_unrepresentable config = (scans, err) ->
  (err = None ->
   Forall configured scans /\
   exists file defaultSection scanSections,
     config = inl file /\ GetSection_default file = inl defaultSection /\
     SectionsByName_scan file = inl scanSections /\
     length scans = length scanSections) /\
  (err <> None -> scans = []).
Proof.
  unfold readConfigFile. intros Hread.
  destruct config as [file|e]; cbn [bind_result] in Hread.
  2:{ injection Hread as <- <-. split; [discriminate|reflexivity]. }
  destruct (GetSection_default file) as [defaultSection|e] eqn:Hdefault;
    cbn [bind_result] in Hread.
  2:{ injection Hread as <- <-. split; [discriminate|reflexivity]. }
  destruct (SectionsByName_scan file) as [scanSections|e] eqn:Hsections;
    cbn [bind_result] in Hread.
  2:{ injection Hread as <- <-. split; [discriminate|reflexivity]. }
  destruct (readScanSections _ _ _ defaultSection scanSections []) as [result|e] eqn:Hscans.
  2:{ injection Hread as <- <-. split; [discriminate|reflexivity]. }
  injection Hread as <- <-.
  destruct (readScanSections_configured _ _ _ _ Hscans ltac:(constructor))
    as [Hall Hlen].
  split; [|congruence].
  intros _. split; [exact Hall|].
  exists file, defaultSection, scanSections. repeat split; assumption.
Qed.

(** X20: the range is validated as it is written and stored after
    truncation.  A scan section whose only key is a range
    [start, stop, step] with a step that is not 0 but smaller than 1 in
    size, and with [stop] on the right side of [start], passes every
    test of [readConfigFile]; the scan it gives has step 0 and no list,
    and its generator sends no frequency at all. *)
Theorem readScanSection_fractional_step v0 v1 v2 :
  f64_eq v2 f64_zero = false ->
  f64_gt v2 f64_zero && negb (f64_gt v1 v0) = false ->
  f64_lt v2 f64_zero && negb (f64_lt v1 v0) = false ->
  f64_trunc v2 = Some 0 ->
  exists scan,
    readScanSection uint64_of_unrepresentable int64_of_unrepresentable
      int32_of_unrepresentable no_keys
      (section_with "range" (float64s_key [v0; v1; v2])) = inl scan /\
    Scan.Step scan = 0 /\ Scan.List scan = [] /\
    forall fuel, getScanFrequenciesAndIndexes fuel scan = ([], true).
Proof.
  intros Hne Hup Hdown Htrunc.
  unfold readScanSection, readScanFrequencies.
  cbn [HasKey section_with String.eqb Ascii.eqb Bool.eqb negb andb orb float64s_key
       IniKey.Float64s length Nat.eqb nth].
  rewrite Hne, Hup, Hdown.
  cbn [bind_result checked getStringConfigSetting getUint32ConfigSetting
       getFloat64ConfigSetting section_with no_keys String.eqb Ascii.eqb Bool.eqb
       fst snd negb andb].
  eexists. split; [reflexivity|].
  cbn [Scan.Step Scan.List].
  assert (Hstep : float64_to_int64 int64_of_unrepresentable v2 = 0).
  { unfold float64_to_int64. rewrite Htrunc. reflexivity. }
  split; [exact Hstep|]. split; [reflexivity|].
  intros fuel. unfold getScanFrequenciesAndIndexes.
  cbn [Scan.Step Scan.List]. rewrite Hstep. reflexivity.
Qed.

End ConfigProofs.

(* ================================================================ *)
(** ** Start-up and the initialisation of a scan *)
(* ================================================================ *)

Lemma getSdrconnectProperty_frame property sendErr events w :
  sdrconnectSettings (world (getSdrconnectProperty property sendErr events w)) =
    sdrconnectSettings w /\
  receiveStats (world (getSdrconnectProperty property sendErr events w)) =
    receiveStats w /\
  requests (world (getSdrconnectProperty property sendErr events w)) =
    {| EventType := "get_property"; Property := property; Value := "" |} :: requests w.
Proof.
  unfold getSdrconnectProperty.
  destruct sendErr as [err|]; [repeat split; reflexivity|].
  destruct (getSdrconnectProperty_loop_frame property events
              (SetReadDeadline (DeadlineIn waitGetProperty)
                 (Send {| EventType := "get_property"; Property := property;
                          Value := "" |} w))) as (H1 & H2 & H3).
  rewrite H1, H2, H3. repeat split; reflexivity.
Qed.

Lemma ParseDemodulatorMode_known dmstring :
  (ParseDemodulatorMode dmstring).2 = None ->
  (ParseDemodulatorMode dmstring).1 <> DemodulatorUnknown.
Proof.
  unfold ParseDemodulatorMode.
  repeat match goal with
         | |- context [String.eqb ?a ?b] => destruct (String.eqb a b)
         end; cbn; congruence.
Qed.

Section StartupProofs.

Variable ParseFloat_err : string -> option error.
Variable FormatFloat : float64 -> string.

(** A block of [getSdrconnectSettings] that went well. *)
Lemma getSetting_success property sends store next settings events w result w' rest :
  getSetting property sends store next settings events w = Returned (result, None) w' rest ->
  exists answer settings1 w1 rest1,
    store answer settings = (settings1, None) /\
    next settings1 rest1 w1 = Returned (result, None) w' rest /\
    sdrconnectSettings w1 = sdrconnectSettings w /\
    receiveStats w1 = receiveStats w /\
    requests w1 =
      {| EventType := "get_property"; Property := property; Value := "" |} :: requests w.
Proof.
  unfold getSetting. intros H.
  pose proof (getSdrconnectProperty_frame property (nextSend sends w) events w)
    as (F1 & F2 & F3).
  destruct (getSdrconnectProperty property (nextSend sends w) events w)
    as [[answer [err|]] w1 rest1|w1]; [discriminate| |discriminate].
  cbn [world] in F1, F2, F3.
  destruct (store answer settings) as [settings1 [e|]] eqn:Hstore; [discriminate|].
  exists answer, settings1, w1, rest1. repeat split; assumption.
Qed.

(** X21: what a successful start-up has read.  When
    [getSdrconnectSettings] returns no error, the receiver has answered
    all eight requests, its demodulator is one of the seven known modes
    (any other name makes start-up fail), the filter bandwidth and the
    LNA state are 32-bit values, and the device name, device serial,
    profile, centre frequency and VFO frequency are not read: they are
    empty and 0.  The eight requests were sent in the order sample rate,
    filter bandwidth, demodulator, LNA state, squelch enable, squelch
    threshold, AGC enable, AGC threshold, and nothing that arrived in
    between has changed the global settings or the statistics. *)
Theorem getSdrconnectSettings_success sends events w settings w' rest :
  getSdrconnectSettings ParseFloat_err sends events w = Returned (settings, None) w' rest ->
  Settings.wf settings /\
  Settings.Demodulator settings <> DemodulatorUnknown /\
  Settings.DeviceName settings = "" /\ Settings.DeviceSerial settings = "" /\
  Settings.Profile settings = "" /\
  Settings.DeviceCenterFrequency settings = 0 /\
  Settings.DeviceVFOFrequency settings = 0 /\
  sdrconnectSettings w' = sdrconnectSettings w /\
  receiveStats w' = receiveStats w /\
  map Property (requests w') =
    ["agc_threshold"; "agc_enable"; "squelch_threshold"; "squelch_enable";
     "lna_state"; "demodulator"; "filter_bandwidth"; "device_sample_rate"] ++
    map Property (requests w).
Proof.
  unfold getSdrconnectSettings. intros H.
  apply getSetting_success in H as (a1 & s1 & w1 & r1 & S1 & H & A1 & B1 & C1).
  apply getSetting_success in H as (a2 & s2 & w2 & r2 & S2 & H & A2 & B2 & C2).
  apply getSetting_success in H as (a3 & s3 & w3 & r3 & S3 & H & A3 & B3 & C3).
  apply getSetting_success in H as (a4 & s4 & w4 & r4 & S4 & H & A4 & B4 & C4).
  apply getSetting_success in H as (a5 & s5 & w5 & r5 & S5 & H & A5 & B5 & C5).
  apply getSetting_success in H as (a6 & s6 & w6 & r6 & S6 & H & A6 & B6 & C6).
  apply getSetting_success in H as (a7 & s7 & w7 & r7 & S7 & H & A7 & B7 & C7).
  apply getSetting_success in H as (a8 & s8 & w8 & r8 & S8 & H & A8 & B8 & C8).
  injection H as <- <- <-.
  unfold store_SampleRate in S1. injection S1 as <- _.
  unfold store_FilterBandwidth in S2.
  destruct (ParseUint a2 10 32) as [v2 [e|]]; [discriminate|]. injection S2 as <-.
  unfold store_Demodulator in S3. injection S3 as <- Hdemod.
  apply ParseDemodulatorMode_known in Hdemod.
  unfold store_LNAState in S4.
  destruct (ParseUint a4 10 32) as [v4 [e|]]; [discriminate|]. injection S4 as <-.
  unfold store_SquelchEnable in S5. injection S5 as <- _.
  unfold store_SquelchThreshold in S6. injection S6 as <- _.
  unfold store_AGCEnable in S7. injection S7 as <- _.
  unfold store_AGCThreshold in S8. injection S8 as <- _.
  split.
  { unfold Settings.wf, is_uint. cbn.
    pose proof (uint32_range v2). pose proof (uint32_range v4). lia. }
  split; [exact Hdemod|].
  do 5 (split; [reflexivity|]).
  split; [congruence|]. split; [congruence|].
  rewrite C8, C7, C6, C5, C4, C3, C2, C1. reflexivity.
Qed.

(** X22: a receiver that stays silent at the first scan.  No message has
    been counted when the first scan is initialised (reading the settings
    at start-up counts none), and selecting a device or applying a profile
    waits in [receiveMessages] without a pattern.  So if the scan asks
    for a profile (or names a device) other than the current one, the
    request is sent, and the first read ends on the read deadline,
    [initScan] returns the deadline error and leaves the scan as it was.
    Once a message has been counted, the same silence after applying a
    profile is a success. *)
Theorem initScan_silent_receiver fuel scan sends ks e rest w :
  nextSend sends w = None ->
  errors_Is e ErrDeadlineExceeded = true ->
  (countMessages (receiveStats w) = 0 ->
   Scan.DeviceName scan = "" -> Scan.DeviceSerial scan = "" ->
   Scan.Profile scan <> Settings.Profile (sdrconnectSettings w) ->
   exists w',
     initScan ParseFloat_err FormatFloat fuel scan sends
       ({| keys := ks; received := RecvError e |} :: rest) w =
     InitReturned (Some e) scan w' rest /\
     requests w' =
       {| EventType := "apply_device_profile"; Property := "";
          Value := Scan.Profile scan |} :: requests w) /\
  (countMessages (receiveStats w) = 0 ->
   Scan.DeviceName scan <> "" ->
   Scan.DeviceName scan <> Settings.DeviceName (sdrconnectSettings w) ->
   exists w',
     initScan ParseFloat_err FormatFloat fuel scan sends
       ({| keys := ks; received := RecvError e |} :: rest) w =
     InitReturned (Some e) scan w' rest /\
     requests w' =
       {| EventType := "selected_device_name"; Property := "";
          Value := Scan.DeviceName scan |} :: requests w) /\
  (0 < countMessages (receiveStats w) ->
   forall profile, exists w',
     applySdrconnectProfile profile None
       ({| keys := ks; received := RecvError e |} :: rest) w =
     Returned None w' rest).
Proof.
  intros Hsend He. split; [|split].
  - intros Hcount Hname Hserial Hprofile.
    apply String.eqb_neq in Hprofile.
    unfold initScan, initScan_requests, andThen, initScan_device, skip.
    rewrite Hname, Hserial. cbn [String.eqb negb].
    unfold initScan_profile, callThen, applySdrconnectProfile, receiveMessages.
    rewrite Hprofile, Hsend. cbn [negb].
    rewrite (receiveMessages_loop_expiry _ _ _ _ _ _ He).
    cbn [receiveStats SetReadDeadline Send]. rewrite Hcount.
    cbn [Z.ltb Z.compare]. eexists. split; [reflexivity|].
    destruct (getKeyPresses_preserves ks
                (SetReadDeadline (DeadlineIn waitApplyProfile)
                   (Send {| EventType := "apply_device_profile"; Property := "";
                            Value := Scan.Profile scan |} w))) as (_ & _ & _ & Hreq).
    cbn [requests SetReadDeadline]. rewrite Hreq. reflexivity.
  - intros Hcount Hname Hdiff.
    apply String.eqb_neq in Hname, Hdiff.
    unfold initScan, initScan_requests, andThen, initScan_device, skip.
    rewrite Hname, Hdiff. cbn [negb].
    unfold callThen, selectSdrconnectDeviceByName, receiveMessages.
    rewrite Hsend.
    rewrite (receiveMessages_loop_expiry _ _ _ _ _ _ He).
    cbn [receiveStats SetReadDeadline Send]. rewrite Hcount.
    cbn [Z.ltb Z.compare]. eexists. split; [reflexivity|].
    destruct (getKeyPresses_preserves ks
                (SetReadDeadline (DeadlineIn waitSelectDevice)
                   (Send {| EventType := "selected_device_name"; Property := "";
                            Value := Scan.DeviceName scan |} w))) as (_ & _ & _ & Hreq).
    cbn [requests SetReadDeadline]. rewrite Hreq. reflexivity.
  - intros Hcount profile.
    unfold applySdrconnectProfile, receiveMessages.
    rewrite (receiveMessages_loop_expiry _ _ _ _ _ _ He).
    cbn [receiveStats SetReadDeadline Send].
    destruct (Z.ltb_spec 0 (countMessages (receiveStats w))); [|lia].
    eexists. reflexivity.
Qed.

(** X23: the LO spans of a scan are planned once.  If [initScan] returns
    an error, or the scan already has LO spans, the scan is left exactly
    as it was, whatever the receiver settings have become.  If it
    returns no error for a scan without LO spans, the generator of the
    scan has closed its channel on some plan, and the scan handed back
    differs from the old one only in its LO spans, which are the ones
    [getLOSpans] plans from the settings in force at that moment; with
    them the generator that [runScan] reads does not panic, sends the
    frequencies of the plan in order and closes the channel. *)
Theorem initScan_plans_once fuel scan sends events w err scan' w' rest :
  initScan ParseFloat_err FormatFloat fuel scan sends events w =
    InitReturned err scan' w' rest ->
  (err <> None -> scan' = scan) /\
  (Scan.LOSpans scan <> None -> scan' = scan) /\
  (err = None -> Scan.LOSpans scan = None ->
   exists spans plan,
     getScanFrequenciesAndIndexes fuel scan = (plan, true) /\
     getLOSpans fuel (sdrconnectSettings w') scan = Some spans /\
     scan' = set_LOSpans (Some spans) scan /\
     (Scan.wf scan -> Z.of_nat (length plan) < 2 ^ 63 ->
      getScanFrequenciesAndLOFrequencies fuel scan' =
        (map (fun x => {| FrequencyAndLOFrequency.frequency := frequency x;
                          FrequencyAndLOFrequency.loFrequency :=
                            lo_at spans (index x) |}) plan,
         ChanClosed))).
Proof.
  unfold initScan. intros H.
  destruct (initScan_requests ParseFloat_err FormatFloat scan sends events w)
    as [[e|] w1 rest1|w1]; [| |discriminate].
  - injection H as <- <- <- <-.
    split; [reflexivity|]. split; [reflexivity|]. discriminate.
  - destruct (Scan.LOSpans scan) as [loSpans|] eqn:Hspans.
    + injection H as <- <- <- <-.
      split; [reflexivity|]. split; [reflexivity|]. discriminate.
    + destruct (getLOSpans fuel (sdrconnectSettings w1) scan) as [spans|] eqn:Hplan;
        [|discriminate].
      injection H as <- <- <- <-.
      split; [congruence|]. split; [congruence|].
      intros _ _.
      assert (Hgen : exists plan, getScanFrequenciesAndIndexes fuel scan = (plan, true)).
      { unfold getLOSpans in Hplan.
        destruct (getScanFrequenciesAndIndexes fuel scan) as [plan [|]];
          [eexists; reflexivity|discriminate]. }
      destruct Hgen as [plan Hgen].
      exists spans, plan. split; [exact Hgen|]. split; [exact Hplan|].
      split; [reflexivity|].
      intros Hwf Hlen.
      apply (getScanFrequenciesAndLOFrequencies_planned fuel (sdrconnectSettings w1)
               scan plan spans Hwf Hgen Hlen Hplan).
Qed.

End StartupProofs.

End Scanner.

(* ================================================================== *)
(** ** Runs on concrete inputs *)
(* ================================================================== *)

(** C2 as worded fails: at a sample rate of 250 kHz the first bucket whose
    threshold exceeds the rate is 300 kHz, and the code answers 200 kHz. *)
Lemma getIFBandwidth_not_first_bucket_above :
  float64_to_uint32 arm64_uint32 (f64_div (float64_of_Z 250000) (float64_of_Z 1000)) = 250 /\
  IFBandwidth_as_specified 250 = 300000 /\
  getIFBandwidth arm64_uint32 (float64_of_Z 250000) = 200000.
Proof. repeat split; vm_compute; reflexivity. Qed.

(** At a sample rate of 2 MHz the bucket is 1536 kHz, the largest one that
    does not exceed 2000. *)
Lemma getIFBandwidth_largest_bucket_at_most_witness :
  getIFBandwidth arm64_uint32 (float64_of_Z 2000000) = 1536000 /\
  1536 <= 2000 /\
  forall b, In b bandwidthskHz -> b <= 2000 -> b <= 1536.
Proof.
  split; [vm_compute; reflexivity|].
  refine (proj2 (proj2 (proj2 (getIFBandwidth_largest_bucket_at_most
                                 arm64_uint32 (float64_of_Z 2000000)))) _).
  vm_compute. discriminate.
Defined.

(** The plan of the three targets, as the generator sends it. *)
Lemma example_plan :
  getScanFrequenciesAndIndexes 3 (scanOf 0 0 0 [100000; 100100; 500000] 0) =
  ([{| frequency := 100000; index := 0 |}; {| frequency := 100100; index := 1 |};
    {| frequency := 500000; index := 2 |}], true).
Proof. reflexivity. Qed.

Lemma example_scan_wf offset :
  - 2 ^ 31 <= offset < 2 ^ 31 ->
  Scan.wf (scanOf 0 0 0 [100000; 100100; 500000] offset).
Proof.
  intros H. unfold Scan.wf, is_uint, is_int. cbn.
  repeat split; try lia; try assumption.
  repeat constructor; lia.
Defined.

Lemma example_settings_wf :
  Settings.wf (settingsOf (float64_of_Z 1000000) 300000).
Proof. unfold Settings.wf, is_uint. cbn. lia. Defined.

(** C4 on the three targets 100000, 100100, 500000 at an available
    bandwidth of 300000. *)
Lemma getLOSpans_partition_witness :
  exists spans,
    getLOSpans arm64_uint32 3 (settingsOf (float64_of_Z 1000000) 300000)
               (scanOf 0 0 0 [100000; 100100; 500000] 0) = Some spans /\
    covers 0 spans 2 /\
    (forall s lo hi, In s spans ->
       window [{| frequency := 100000; index := 0 |};
               {| frequency := 100100; index := 1 |};
               {| frequency := 500000; index := 2 |}] (LOSpan.from s) (LOSpan.to s) lo hi ->
       hi - lo <= 300000) /\
    (forall s i j fi fj, In s spans ->
       LOSpan.from s <= i <= LOSpan.to s -> LOSpan.from s <= j <= LOSpan.to s ->
       target [{| frequency := 100000; index := 0 |};
               {| frequency := 100100; index := 1 |};
               {| frequency := 500000; index := 2 |}] i = Some fi ->
       target [{| frequency := 100000; index := 0 |};
               {| frequency := 100100; index := 1 |};
               {| frequency := 500000; index := 2 |}] j = Some fj ->
       fi - fj <= 300000) /\
    (3%nat = 1%nat -> length spans = 1%nat).
Proof.
  refine (getLOSpans_partition arm64_uint32 3
            (settingsOf (float64_of_Z 1000000) 300000)
            (scanOf 0 0 0 [100000; 100100; 500000] 0)
            [{| frequency := 100000; index := 0 |};
             {| frequency := 100100; index := 1 |};
             {| frequency := 500000; index := 2 |}] _ _ _ _ _ _).
  - exact example_settings_wf.
  - apply example_scan_wf. lia.
  - reflexivity.
  - discriminate.
  - vm_compute. discriminate.
  - vm_compute. discriminate.
Defined.


(** C8 fails on the range 25000, 5000, -10000, which passes the range
    validation (negative step, stop below start): the specified sequence
    is 25000, 15000, 5000, but after 5000 the generator subtracts the step
    once more, the unsigned frequency wraps to 2^64 - 5000, passes the test
    [frequency >= scan.Stop] and is sent; the channel is not closed. *)
Theorem getScanFrequencies_descending_wraps :
  descending 25000 5000 10000 = [25000; 15000; 5000] /\
  getScanFrequenciesAndIndexes 4 (scanOf 25000 5000 (-10000) [] 0) =
  ([{| frequency := 25000; index := 0 |}; {| frequency := 15000; index := 1 |};
    {| frequency := 5000; index := 2 |};
    {| frequency := 18446744073709546616; index := 3 |}], false).
Proof. split; vm_compute; reflexivity. Qed.

(** C6 as worded fails: with no sample at all and a power threshold of
    -1000, the sentinel reaches the threshold and a signal is reported. *)
Lemma detectSignal_sentinel_detects :
  detectSignal (statsOf [] [])
    (scanWithThresholds (float64_of_Z (-1000)) (S754_zero false)) = Some true.
Proof. vm_compute. reflexivity. Qed.

(** The sentinel is below a threshold of -70. *)
Lemma detectSignal_rule_witness :
  f64_ge (float64_of_Z (-1000)) (float64_of_Z (-70)) = false.
Proof.
  apply (proj1 (proj2 (proj2 detectSignal_rule)) (float64_of_Z (-70))).
  vm_compute. reflexivity.
Defined.

(** C3 as worded fails: for the power samples -60, -55 the line carries
    the range, and no single-value field. *)
Lemma showStats_power_is_range :
  showStats_fields rangeOrder_sorted ∅ "detect"
    (worldOf (statsOf [float64_of_Z (-60); float64_of_Z (-55)] [])) =
    Some ["detect"; "f=0"; "pwr=[-55.0dB,-55.0dB]"] /\
  ~ In "pwr=-55.0dB" ["detect"; "f=0"; "pwr=[-55.0dB,-55.0dB]"].
Proof.
  split; [vm_compute; reflexivity|].
  cbn [In]. intros [H|[H|[H|[]]]]; discriminate.
Qed.

(** The minimum and the maximum of the range over -55 alone. *)
Lemma showStats_power_field_witness :
  is_min_of [float64_of_Z (-55)] (float64_of_Z (-55)) /\
  is_max_of [float64_of_Z (-55)] (float64_of_Z (-55)).
Proof.
  destruct (proj1 (proj2 (proj2 (proj2 (showStats_power_field rangeOrder_sorted))))
              (float64_of_Z (-60)) (float64_of_Z (-55)) [])
    as (lo & hi & Hlo & Hhi & Hspec & _).
  injection Hlo as <-. injection Hhi as <-.
  apply Hspec. repeat constructor.
Defined.

(** C1 as worded fails, on the sequence of calls [runScan] makes at one
    frequency: with the statistics cleared, the detect window receives
    the VFO confirmation and a power report and ends on its deadline; the
    signal is detected; the listen window that follows receives no
    message at all before its deadline, and still returns success,
    because the counter kept the two messages of the earlier call. *)
Lemma receiveMessages_expiry_without_message :
  result
    (setVFOFrequencyAndGetSignalStats ParseFloat_integers 100000000
       (600 * Millisecond) None
       example_detect_window (worldOf clearStats)) = Some None /\
  countMessages
    (receiveStats
       (world
          (setVFOFrequencyAndGetSignalStats ParseFloat_integers 100000000
             (600 * Millisecond) None
             example_detect_window (worldOf clearStats)))) = 2 /\
  detectSignal
    (receiveStats
       (world
          (setVFOFrequencyAndGetSignalStats ParseFloat_integers 100000000
             (600 * Millisecond) None
             example_detect_window (worldOf clearStats))))
    (scanWithThresholds (float64_of_Z (-70)) (float64_of_Z 5)) = Some true /\
  receiveMessages ParseFloat_integers None (5000 * Millisecond)
    [error_event ErrDeadlineExceeded]
    (world
       (setVFOFrequencyAndGetSignalStats ParseFloat_integers 100000000
          (600 * Millisecond) None
          example_detect_window (worldOf clearStats))) =
  Returned None
    (world
       (setVFOFrequencyAndGetSignalStats ParseFloat_integers 100000000
          (600 * Millisecond) None
          example_detect_window (worldOf clearStats))) [].
Proof. repeat split; vm_compute; reflexivity. Qed.

(** With the statistics cleared, one message and then the deadline:
    success. *)
Lemma receiveMessages_deadline_expiry_witness :
  Forall (fun ev => exists m, received ev = RecvMessage m)
         [message_event (changed "signal_power" "-80")] /\
  exists w2,
    receiveMessages ParseFloat_integers None (600 * Millisecond)
      ([message_event (changed "signal_power" "-80")] ++
       {| keys := []; received := RecvError ErrDeadlineExceeded |} :: [])
      (worldOf clearStats) =
    Returned (if 0 <? 0 + Z.of_nat 1 then None else Some ErrDeadlineExceeded) w2 [].
Proof.
  refine (receiveMessages_deadline_expiry ParseFloat_integers (600 * Millisecond)
            [message_event (changed "signal_power" "-80")] [] ErrDeadlineExceeded []
            (worldOf clearStats) _ _ _ _ _).
  - vm_compute. reflexivity.
  - reflexivity.
  - cbn. lia.
  - cbn. lia.
Defined.

(** The terminate key pressed while the second message is awaited. *)
Lemma receiveMessages_terminate_witness :
  exists w2,
    receiveMessages ParseFloat_integers None (5000 * Millisecond)
      ([message_event (changed "signal_power" "-80")] ++
       {| keys := [{| char := 113; key := KeyNone |}];
          received := RecvMessage (changed "signal_snr" "12") |} ::
       [message_event (changed "signal_power" "-79")])
      (worldOf clearStats) =
    Returned (Some ErrUserCommandTerminate) w2
             [message_event (changed "signal_power" "-79")] /\
    userCommandTerminate w2 = false /\
    readDeadline w2 = NoDeadline /\
    receiveStats w2 =
      receiveStats
        (count_message
           (world (receiveMessages ParseFloat_integers None (5000 * Millisecond)
                     [message_event (changed "signal_power" "-80")]
                     (worldOf clearStats)))) /\
    sdrconnectSettings w2 =
      sdrconnectSettings
        (world (receiveMessages ParseFloat_integers None (5000 * Millisecond)
                  [message_event (changed "signal_power" "-80")]
                  (worldOf clearStats))).
Proof.
  refine (receiveMessages_terminate ParseFloat_integers None (5000 * Millisecond)
            [message_event (changed "signal_power" "-80")]
            {| keys := [{| char := 113; key := KeyNone |}];
               received := RecvMessage (changed "signal_snr" "12") |}
            (changed "signal_snr" "12")
            [message_event (changed "signal_power" "-79")]
            (worldOf clearStats) _ _ _ _).
  - vm_compute. reflexivity.
  - reflexivity.
  - vm_compute. reflexivity.
Defined.

(** Setting the LNA state while only signal reports arrive. *)
Lemma setSdrconnectProperty_timeout_witness :
  exists w',
    setSdrconnectProperty "lna_state" "3" None
      ([message_event (changed "signal_power" "-80")] ++
       {| keys := []; received := RecvError ErrDeadlineExceeded |} :: [])
      (worldOf clearStats) =
    Returned ("3", false, None) w' [].
Proof.
  apply (setSdrconnectProperty_timeout "lna_state" "3"
           [message_event (changed "signal_power" "-80")] [] ErrDeadlineExceeded []
           (worldOf clearStats)).
  - constructor; [|constructor].
    exists (changed "signal_power" "-80"). split; reflexivity.
  - reflexivity.
Defined.

(** A window in which an identifier 0, an identifier 54321, a blank name
    and a padded name arrive: one identifier and one name are stored. *)
Lemma receiveMessages_rds_example :
  receiveStats
    (world
       (receiveMessages ParseFloat_integers None (5000 * Millisecond)
          [message_event (changed "rds_pi" "0");
           message_event (changed "rds_pi" "54321");
           message_event (changed "rds_ps" "   ");
           message_event (changed "rds_ps" " KEXP ")]
          (worldOf clearStats))) =
  {| countMessages := 4; signalPower := []; signalSNR := [];
     rdsPI := [54321]; rdsPS := ["KEXP"] |}.
Proof. vm_compute. reflexivity. Qed.

Lemma receiveMessages_rds_invariant_witness :
  stats_ok
    (receiveStats
       (world
          (receiveMessages ParseFloat_integers None (5000 * Millisecond)
             [message_event (changed "rds_pi" "0");
              message_event (changed "rds_pi" "54321");
              message_event (changed "rds_ps" "   ");
              message_event (changed "rds_ps" " KEXP ")]
             (worldOf clearStats)))).
Proof.
  apply (proj1 (proj2 (receiveMessages_rds_invariant ParseFloat_integers))).
  split; constructor.
Defined.


(* ================================================================ *)
(** * The further properties on concrete inputs *)
(* ================================================================ *)

Lemma scanOf_wf start stop step list offset :
  is_uint 64 start -> is_uint 64 stop -> is_int 64 step ->
  Forall (is_uint 64) list -> is_int 32 offset ->
  Scan.wf (scanOf start stop step list offset).
Proof.
  intros Hstart Hstop Hstep Hlist Hoffset.
  unfold Scan.wf, is_uint, is_int in *. cbn.
  repeat split; try lia; try assumption.
Defined.

(** X1 on the range 2^64 - 30, 2^64 - 5, 10: after 2^64 - 10 the
    frequency wraps to 0, which is sent. *)
Lemma getScanFrequenciesAndIndexes_range_up_witness :
  exists fuel plan,
    getScanFrequenciesAndIndexes fuel (scanOf (2 ^ 64 - 30) (2 ^ 64 - 5) 10 [] 0) =
      (plan, false) /\
    map frequency plan = [2 ^ 64 - 30; 2 ^ 64 - 20; 2 ^ 64 - 10; 0].
Proof.
  destruct (getScanFrequenciesAndIndexes_range_up
              (scanOf (2 ^ 64 - 30) (2 ^ 64 - 5) 10 [] 0))
    as (_ & _ & Hwrap).
  - apply scanOf_wf; unfold is_uint, is_int; try lia. constructor.
  - cbn. lia.
  - cbn. lia.
  - destruct Hwrap as (fuel & plan & Hrun & Hmap).
    + vm_compute. discriminate.
    + exists fuel, plan. split; [exact Hrun|]. rewrite Hmap. vm_compute. reflexivity.
Defined.

(** X2 on the range 30000, 10000, -10000, which ends at its stop
    value. *)
Lemma getScanFrequenciesAndIndexes_range_down_witness :
  exists plan,
    yields (scanOf 30000 10000 (-10000) [] 0) plan /\
    map frequency plan = [30000; 20000; 10000].
Proof.
  destruct (getScanFrequenciesAndIndexes_range_down (scanOf 30000 10000 (-10000) [] 0))
    as (_ & Hends & _).
  - apply scanOf_wf; unfold is_uint, is_int; try lia. constructor.
  - cbn. lia.
  - cbn. lia.
  - destruct Hends as (plan & Hrun & Hmap & _).
    + vm_compute. discriminate.
    + exists plan. split; [exact Hrun|]. rewrite Hmap. vm_compute. reflexivity.
Defined.

(** X3 on the list 100000, 100100, 500000. *)
Lemma getScanFrequenciesAndIndexes_list_witness :
  exists plan,
    yields example_targets plan /\
    map frequency plan = [100000; 100100; 500000].
Proof.
  destruct (getScanFrequenciesAndIndexes_list example_targets eq_refl)
    as (plan & Hrun & Hmap & _).
  exists plan. split; [exact Hrun|exact Hmap].
Defined.

Lemma example_targets_wf : Scan.wf example_targets.
Proof.
  apply scanOf_wf; unfold is_uint, is_int; try lia.
  repeat constructor; lia.
Defined.

(** X4 on the three targets: the first and the third item carry the
    centres of the two spans. *)
Lemma getScanFrequenciesAndLOFrequencies_of_getLOSpans_witness :
  getScanFrequenciesAndLOFrequencies 3 (set_LOSpans (Some example_spans) example_targets) =
  ([{| FrequencyAndLOFrequency.frequency := 100000;
       FrequencyAndLOFrequency.loFrequency := 100050 |};
    {| FrequencyAndLOFrequency.frequency := 100100;
       FrequencyAndLOFrequency.loFrequency := 0 |};
    {| FrequencyAndLOFrequency.frequency := 500000;
       FrequencyAndLOFrequency.loFrequency := 500000 |}], ChanClosed).
Proof.
  destruct (getScanFrequenciesAndLOFrequencies_of_getLOSpans arm64_uint32 3
              (settingsOf (float64_of_Z 1000000) 300000) example_targets
              example_targets_plan example_spans) as [_ Hrun].
  - exact example_targets_wf.
  - reflexivity.
  - cbn. lia.
  - vm_compute. reflexivity.
  - exact Hrun.
Defined.

(** X5 at a sample rate of 1 MHz with a filter of 2 MHz. *)
Lemma getLOSpans_maxDf_wraps_witness :
  getLOSpans_maxDf arm64_uint32 (settingsOf (float64_of_Z 1000000) 2000000)
    example_targets =
  availableBandwidth (getIFBandwidth arm64_uint32 (float64_of_Z 1000000)) 2000000 0 +
  2 ^ 32.
Proof.
  apply (getLOSpans_maxDf_wraps arm64_uint32
           (settingsOf (float64_of_Z 1000000) 2000000) example_targets).
  - unfold Settings.wf, is_uint. cbn. lia.
  - exact example_targets_wf.
  - vm_compute. split; [discriminate|reflexivity].
Defined.

(** X6 at the rates 1 MHz and 2 MHz. *)
Lemma getIFBandwidth_monotone_witness :
  getIFBandwidth arm64_uint32 (float64_of_Z 1000000) <=
    getIFBandwidth arm64_uint32 (float64_of_Z 2000000) /\
  200000 <= getIFBandwidth arm64_uint32 (float64_of_Z 1000000) /\
  getIFBandwidth arm64_uint32 (float64_of_Z 2000000) <= 8000000.
Proof.
  apply (getIFBandwidth_monotone arm64_uint32
           (float64_of_Z 1000000) (float64_of_Z 2000000)).
  vm_compute. discriminate.
Defined.

(** X9: the answer about the filter bandwidth is returned although a
    power report and the answer about another property come first. *)
Lemma getSdrconnectProperty_first_answer_witness :
  exists w',
    getSdrconnectProperty "filter_bandwidth" None
      ([message_event (changed "signal_power" "-50");
        message_event (response "demodulator" "AM")] ++
       [message_event (response "filter_bandwidth" "200000")])
      (worldOf clearStats) =
    Returned ("200000", None) w' [].
Proof.
  destruct (getSdrconnectProperty_first_answer "filter_bandwidth"
              [message_event (changed "signal_power" "-50");
               message_event (response "demodulator" "AM")]
              [] [] (worldOf clearStats)) as [Hanswer _].
  - constructor; [eexists; split; reflexivity|].
    constructor; [eexists; split; reflexivity|]. constructor.
  - exact (Hanswer (response "filter_bandwidth" "200000") eq_refl).
Defined.

(** X10: the confirmation of the VFO frequency after a power report. *)
Lemma setSdrconnectProperty_confirmation_witness :
  exists w',
    setSdrconnectProperty "device_vfo_frequency" "100000000" None
      ([message_event (changed "signal_power" "-50")] ++
       [message_event (changed "device_vfo_frequency" "100000000")])
      (worldOf clearStats) =
    Returned ("100000000", true, None) w' [].
Proof.
  destruct (setSdrconnectProperty_confirmation "device_vfo_frequency" "100000000"
              [message_event (changed "signal_power" "-50")]
              [] [] (worldOf clearStats)) as [Hconfirmed _].
  - constructor; [eexists; split; reflexivity|]. constructor.
  - exact (Hconfirmed (changed "device_vfo_frequency" "100000000") eq_refl).
Defined.

(** X12: the key n pressed before the first message of a detect
    window. *)
Lemma receiveMessages_next_scan_witness :
  exists w2,
    receiveMessages ParseFloat_integers None (600 * Millisecond)
      [{| keys := [key_n]; received := RecvMessage (changed "signal_power" "-50") |}]
      (worldOf clearStats) =
    Returned (Some ErrUserCommandNextScan) w2 [] /\
    userCommandNextScan w2 = false.
Proof.
  destruct (receiveMessages_next_scan ParseFloat_integers None (600 * Millisecond) []
              {| keys := [key_n]; received := RecvMessage (changed "signal_power" "-50") |}
              (changed "signal_power" "-50") [] (worldOf clearStats)
              (SetReadDeadline (DeadlineIn (600 * Millisecond)) (worldOf clearStats))
              eq_refl eq_refl eq_refl) as [Hnext _].
  destruct (Hnext eq_refl) as (w2 & Hrun & Hflag & _).
  exists w2. split; [exact Hrun|exact Hflag].
Defined.


(** X14: the receiver confirms the centre frequency 100050 and then
    reports the VFO frequency. *)
Lemma setCenterFrequency_confirmation_witness :
  exists w2,
    setCenterFrequency ParseFloat_integers 100050 None
      ([] ++
       message_event (changed "device_center_frequency" "100050")
       :: message_event (changed "device_vfo_frequency" "100000") :: [])
      (worldOf clearStats) =
    Returned None w2 [] /\
    Settings.DeviceCenterFrequency (sdrconnectSettings w2) = 100050 /\
    Settings.DeviceVFOFrequency (sdrconnectSettings w2) = 100000.
Proof.
  destruct (setCenterFrequency_confirmation ParseFloat_integers 100050 []
              "100050" "100000" ErrDeadlineExceeded [] (worldOf clearStats)
              (world (setCenterFrequency ParseFloat_integers 100050 None []
                        (worldOf clearStats))))
    as [(w2 & Hrun & Hcenter & Hvfo) _].
  - reflexivity.
  - repeat split.
  - exists w2. split; [exact Hrun|]. split; [exact Hcenter|exact Hvfo].
Defined.

(** X16: nothing is received in the detect window of the one item of a
    plan. *)
Lemma runScan_silent_detect_window_witness :
  exists w',
    runScan_loop ParseFloat_integers rangeOrder_sorted (scanWithProfile "") sends_ok ∅
      [example_item] ChanClosed
      [{| keys := []; received := RecvError ErrDeadlineExceeded |}] []
      (worldOf clearStats) =
    ScanReturned (Some ErrDeadlineExceeded) [] w' [] /\
    requests w' =
      [{| EventType := "set_property"; Property := "device_vfo_frequency";
          Value := "100000000" |}].
Proof.
  apply (runScan_silent_detect_window ParseFloat_integers rangeOrder_sorted
           (scanWithProfile "") sends_ok ∅ example_item [] ChanClosed []
           ErrDeadlineExceeded [] [] (worldOf clearStats)).
  - left. reflexivity.
  - reflexivity.
  - reflexivity.
Defined.


(** X24 on the detect window at 100 MHz. *)
Lemma runScan_loop_never_panics_witness :
  runScan_loop ParseFloat_integers rangeOrder_sorted (scanWithThresholds
    (float64_of_Z (-60)) (float64_of_Z 10)) sends_ok ∅
    [example_item] ChanClosed example_detect_window [] (worldOf clearStats) <> ScanPanic.
Proof.
  apply (runScan_loop_never_panics ParseFloat_integers rangeOrder_sorted
           (scanWithThresholds (float64_of_Z (-60)) (float64_of_Z 10)) sends_ok ∅
           [example_item] ChanClosed example_detect_window [] (worldOf clearStats)).
  discriminate.
Defined.


(** The run of X25 logs one line, the detect line of 100 MHz. *)
Lemma example_detect_line :
  scan_log (runScan_loop ParseFloat_integers rangeOrder_sorted
              (scanWithThresholds (float64_of_Z (-60)) (float64_of_Z 10)) sends_ok ∅
              [example_item] ChanClosed example_detect_window [] (worldOf clearStats)) =
  ["detect f=100000000 pwr=-50.0dB"].
Proof. vm_compute. reflexivity. Qed.

(** X18 on a file with two labels for 100000. *)
Lemma readLabelFile_lookup_witness :
  (readLabelFile (inl example_labels) ∅).1 !! 100000 = Some "BBC|Two" /\
  (readLabelFile (inl example_labels) ∅).1 !! 49665 = Some "Radio".
Proof.
  assert (Hread : readLabelFile (inl example_labels) ∅ =
                  ((readLabelFile (inl example_labels) ∅).1, None))
    by (vm_compute; reflexivity).
  split.
  - exact (eq_trans (readLabelFile_lookup example_labels ∅ _ Hread 100000) eq_refl).
  - exact (eq_trans (readLabelFile_lookup example_labels ∅ _ Hread 49665) eq_refl).
Defined.

(** X19 on a configuration with a range and a list. *)
Lemma readConfigFile_configured_witness :
  Forall configured
    (readConfigFile zero_of_unrepresentable zero_of_unrepresentable
       zero_of_unrepresentable example_config).1 /\
  length (readConfigFile zero_of_unrepresentable zero_of_unrepresentable
            zero_of_unrepresentable example_config).1 = 2%nat.
Proof.
  destruct (readConfigFile_configured zero_of_unrepresentable zero_of_unrepresentable
              zero_of_unrepresentable example_config _ _
              (surjective_pairing _)) as [Hok _].
  destruct Hok as (Hall & file & defaultSection & scanSections & Hfile & _ & Hscan & Hlen).
  - vm_compute. reflexivity.
  - split; [exact Hall|]. rewrite Hlen.
    injection Hfile as <-. cbn in Hscan. injection Hscan as <-. reflexivity.
Defined.

(** X20 on the range 100, 200 with a step of 0.5. *)
Lemma readScanSection_fractional_step_witness :
  exists scan,
    readScanSection zero_of_unrepresentable zero_of_unrepresentable
      zero_of_unrepresentable no_keys
      (section_with "range"
         (float64s_key [float64_of_Z 100; float64_of_Z 200; f64_half])) = inl scan /\
    Scan.Step scan = 0 /\ Scan.List scan = [].
Proof.
  destruct (readScanSection_fractional_step zero_of_unrepresentable
              zero_of_unrepresentable zero_of_unrepresentable
              (float64_of_Z 100) (float64_of_Z 200) f64_half)
    as (scan & Hread & Hstep & Hlist & _).
  - vm_compute. reflexivity.
  - vm_compute. reflexivity.
  - vm_compute. reflexivity.
  - vm_compute. reflexivity.
  - exists scan. split; [exact Hread|]. split; [exact Hstep|exact Hlist].
Defined.

(** X21: the receiver answers the eight requests, with a power report in
    between. *)
Lemma getSdrconnectSettings_success_witness :
  exists settings w',
    getSdrconnectSettings ParseFloat_integers ParseFloat_no_error sends_ok
      example_settings_answers (worldOf clearStats) =
      Returned (settings, None) w' [] /\
    Settings.wf settings /\
    Settings.Demodulator settings = DemodulatorWFM /\
    Settings.FilterBandwidth settings = 200000 /\
    Settings.LNAState settings = 3 /\
    sdrconnectSettings w' = sdrconnectSettings (worldOf clearStats).
Proof.
  assert (Hrun : getSdrconnectSettings ParseFloat_integers ParseFloat_no_error sends_ok
                   example_settings_answers (worldOf clearStats) =
                 Returned
                   ((default (zeroSettings, None)
                       (result (getSdrconnectSettings ParseFloat_integers
                                  ParseFloat_no_error sends_ok example_settings_answers
                                  (worldOf clearStats)))).1, None)
                   (world (getSdrconnectSettings ParseFloat_integers ParseFloat_no_error
                             sends_ok example_settings_answers (worldOf clearStats)))
                   [])
    by (vm_compute; reflexivity).
  destruct (getSdrconnectSettings_success ParseFloat_integers ParseFloat_no_error
              sends_ok example_settings_answers (worldOf clearStats) _ _ _ Hrun)
    as (Hwf & _ & _ & _ & _ & _ & _ & Hsettings & _).
  eexists. eexists. split; [exact Hrun|].
  split; [exact Hwf|]. split; [vm_compute; reflexivity|].
  split; [vm_compute; reflexivity|]. split; [vm_compute; reflexivity|].
  exact Hsettings.
Defined.

(** X22: the first scan asks for the profile fm and the receiver stays
    silent. *)
Lemma initScan_silent_receiver_witness :
  exists w',
    initScan arm64_uint32 ParseFloat_integers ParseFloat_no_error FormatFloat_blank 3
      (scanWithProfile "fm") sends_ok
      [{| keys := []; received := RecvError ErrDeadlineExceeded |}]
      (worldOf clearStats) =
    InitReturned (Some ErrDeadlineExceeded) (scanWithProfile "fm") w' [] /\
    requests w' =
      [{| EventType := "apply_device_profile"; Property := ""; Value := "fm" |}].
Proof.
  destruct (initScan_silent_receiver arm64_uint32 ParseFloat_integers
              ParseFloat_no_error FormatFloat_blank 3 (scanWithProfile "fm") sends_ok
              [] ErrDeadlineExceeded [] (worldOf clearStats) eq_refl eq_refl)
    as [Hprofile _].
  apply Hprofile; [reflexivity|reflexivity|reflexivity|discriminate].
Defined.

(** X23: the three targets on a receiver with a known sample rate and
    filter bandwidth; no request is made and the two spans are stored. *)
Lemma initScan_plans_once_witness :
  initScan arm64_uint32 ParseFloat_integers ParseFloat_no_error FormatFloat_blank 3
    example_targets sends_ok []
    (with_settings (settingsOf (float64_of_Z 1000000) 300000) (worldOf clearStats)) =
  InitReturned None (set_LOSpans (Some example_spans) example_targets)
    (with_settings (settingsOf (float64_of_Z 1000000) 300000) (worldOf clearStats)) [] /\
  exists spans plan,
    getScanFrequenciesAndIndexes 3 example_targets = (plan, true) /\
    set_LOSpans (Some example_spans) example_targets =
      set_LOSpans (Some spans) example_targets /\
    getScanFrequenciesAndLOFrequencies 3
      (set_LOSpans (Some example_spans) example_targets) =
    (map (fun x => {| FrequencyAndLOFrequency.frequency := frequency x;
                      FrequencyAndLOFrequency.loFrequency := lo_at spans (index x) |})
         plan, ChanClosed).
Proof.
  assert (Hrun : initScan arm64_uint32 ParseFloat_integers ParseFloat_no_error
                   FormatFloat_blank 3 example_targets sends_ok []
                   (with_settings (settingsOf (float64_of_Z 1000000) 300000)
                      (worldOf clearStats)) =
                 InitReturned None (set_LOSpans (Some example_spans) example_targets)
                   (with_settings (settingsOf (float64_of_Z 1000000) 300000)
                      (worldOf clearStats)) [])
    by (vm_compute; reflexivity).
  split; [exact Hrun|].
  destruct (initScan_plans_once arm64_uint32 ParseFloat_integers ParseFloat_no_error
              FormatFloat_blank 3 example_targets sends_ok [] _ _ _ _ _ Hrun)
    as (_ & _ & Hplanned).
  destruct (Hplanned eq_refl eq_refl) as (spans & plan & Hplan & _ & Hstored & Hgen).
  exists spans, plan. split; [exact Hplan|]. split; [exact Hstored|].
  apply Hgen; [exact example_targets_wf|].
  vm_compute in Hplan. injection Hplan as <-. cbn. lia.
Defined.

(** X11: a power report that arrives when the slice is empty is stored,
    and the statistics stay within their capacity. *)
Lemma receiveMessages_within_cap_witness :
  within_cap
    (receiveStats
       (world (receiveMessages ParseFloat_integers None (600 * Millisecond)
                 example_detect_window (worldOf clearStats)))).
Proof.
  apply (proj1 (proj2 (receiveMessages_within_cap ParseFloat_integers))
           None (600 * Millisecond) example_detect_window (worldOf clearStats)).
  apply (proj1 (receiveMessages_within_cap ParseFloat_integers)).
Defined.
